(** * EDGAR concept extraction and statement assembly

    A shallow embedding of [financetoolkit/edgar_model.py]: the resolution of
    XBRL company facts into one value per (field, period end-date)
    ([_extract_financial_items]) and the assembly of the statement table
    ([get_financial_statement]).

    Conventions of the embedding:
    - a JSON object that is only read ([us_gaap], [units]) is a [gmap];
    - a Python [dict] whose insertion order is observable ([concept_mapping],
      [filing_entries], [field_data], [result], [data]) is an association list
      with the update-in-place / append-at-the-end behaviour of [dict];
    - a key read with [d.get(k, default)] is an [option] field, the default is
      applied where the source applies it;
    - strings are byte strings compared in byte order (for UTF-8 text this is
      Python's code point order); reported values are integers ([Z]), the code
      only stores and copies them. *)

From Stdlib Require Import ZArith Lia Permutation Ascii.
From stdpp Require Import base option list gmap strings sorting pretty.

Local Open Scope Z_scope.

(** ** Insertion-ordered dictionaries *)

Module Dict.
Section Dict.
Context {V : Type}.

(** [k in d] and [d[k]] *)
Fixpoint lookup (d : list (string * V)) (k : string) : option V :=
  match d with
  | [] => None
  | (k', v) :: d' => if String.eqb k' k then Some v else lookup d' k
  end.

Definition mem (d : list (string * V)) (k : string) : bool :=
  match lookup d k with Some _ => true | None => false end.

(** [d.get(k, dflt)] *)
Definition get (d : list (string * V)) (k : string) (dflt : V) : V :=
  match lookup d k with Some v => v | None => dflt end.

(** [d[k] = v]: an existing key keeps its position, a new key goes last. *)
Fixpoint set (d : list (string * V)) (k : string) (v : V) : list (string * V) :=
  match d with
  | [] => [(k, v)]
  | (k', v') :: d' =>
      if String.eqb k' k then (k', v) :: d' else (k', v') :: set d' k v
  end.

(** [d.keys()] *)
Definition keys (d : list (string * V)) : list string := fst <$> d.
End Dict.
End Dict.

(** ** [datetime.strptime(s, "%Y-%m-%d")] and date ordinals

    The format is compiled by the library to the regular expression
    [(\d\d\d\d)-(1[0-2]|0[1-9]|[1-9])-(3[01]|[12]\d|0[1-9]|[1-9]| [1-9])],
    matched at the start of the string with alternatives tried in order; the
    call then fails when characters remain after the match, and when the three
    numbers are not a date of the proleptic Gregorian calendar with year
    1..9999. Every failure is a [ValueError], here [None]. The result is the
    datetime at midnight of that date, represented by (year, month, day);
    the [days] of the difference of two of them is the difference of their
    day ordinals. Date strings are taken to be ASCII: a digit is one of the
    characters 0 to 9. *)

Module Datetime.

Definition digit (c : ascii) : option Z :=
  let n := Z.of_N (N_of_ascii c) in
  if (48 <=? n) && (n <=? 57) then Some (n - 48) else None.

Definition in_range (lo hi : Z) (c : ascii) : option Z :=
  match digit c with
  | Some n => if (lo <=? n) && (n <=? hi) then Some n else None
  | None => None
  end.

(** [\d\d\d\d] *)
Definition re_Y (s : string) : option (Z * string) :=
  match s with
  | String a (String b (String c (String d rest))) =>
      match digit a, digit b, digit c, digit d with
      | Some a, Some b, Some c, Some d =>
          Some (1000 * a + 100 * b + 10 * c + d, rest)
      | _, _, _, _ => None
      end
  | _ => None
  end.

Definition re_lit (c : ascii) (s : string) : option string :=
  match s with
  | String a rest => if Ascii.eqb a c then Some rest else None
  | EmptyString => None
  end.

(** One alternative made of two character classes, and of one. *)
Definition alt2 (f g : ascii -> option Z) (s : string) : list (Z * string) :=
  match s with
  | String a (String b rest) =>
      match f a, g b with
      | Some x, Some y => [(10 * x + y, rest)]
      | _, _ => []
      end
  | _ => []
  end.

Definition alt1 (f : ascii -> option Z) (s : string) : list (Z * string) :=
  match s with
  | String a rest => match f a with Some x => [(x, rest)] | None => [] end
  | EmptyString => []
  end.

Definition space (c : ascii) : option Z :=
  if Ascii.eqb c " " then Some 0 else None.

(** [1[0-2]|0[1-9]|[1-9]] *)
Definition re_m (s : string) : list (Z * string) :=
  alt2 (in_range 1 1) (in_range 0 2) s ++
  alt2 (in_range 0 0) (in_range 1 9) s ++
  alt1 (in_range 1 9) s.

(** [3[01]|[12]\d|0[1-9]|[1-9]| [1-9]] *)
Definition re_d (s : string) : list (Z * string) :=
  alt2 (in_range 3 3) (in_range 0 1) s ++
  alt2 (in_range 1 2) digit s ++
  alt2 (in_range 0 0) (in_range 1 9) s ++
  alt1 (in_range 1 9) s ++
  alt2 space (in_range 1 9) s.

(** Backtracking over the alternatives of a group: the first alternative
    after which the rest of the expression matches. *)
Fixpoint first_match {A B : Type} (alts : list A) (k : A -> option B) : option B :=
  match alts with
  | [] => None
  | a :: alts' =>
      match k a with
      | Some b => Some b
      | None => first_match alts' k
      end
  end.

Definition format_regex_match (s : string) : option (Z * Z * Z * string) :=
  match re_Y s with
  | None => None
  | Some (y, r1) =>
      match re_lit "-" r1 with
      | None => None
      | Some r2 =>
          first_match (re_m r2) (fun '(m, r3) =>
            match re_lit "-" r3 with
            | None => None
            | Some r4 =>
                first_match (re_d r4) (fun '(d, r5) => Some (y, m, d, r5))
            end)
      end
  end.

Definition is_leap (year : Z) : bool :=
  (year mod 4 =? 0) && (negb (year mod 100 =? 0) || (year mod 400 =? 0)).

Definition days_in_month (year month : Z) : Z :=
  match month with
  | 1 | 3 | 5 | 7 | 8 | 10 | 12 => 31
  | 4 | 6 | 9 | 11 => 30
  | 2 => if is_leap year then 29 else 28
  | _ => 0
  end.

Definition days_before_year (year : Z) : Z :=
  let y := year - 1 in y * 365 + y / 4 - y / 100 + y / 400.

Definition DAYS_BEFORE_MONTH (month : Z) : Z :=
  match month with
  | 1 => 0 | 2 => 31 | 3 => 59 | 4 => 90 | 5 => 120 | 6 => 151
  | 7 => 181 | 8 => 212 | 9 => 243 | 10 => 273 | 11 => 304 | 12 => 334
  | _ => 0
  end.

Definition days_before_month (year month : Z) : Z :=
  DAYS_BEFORE_MONTH month + (if (2 <? month) && is_leap year then 1 else 0).

Definition ymd2ord (year month day : Z) : Z :=
  days_before_year year + days_before_month year month + day.

Definition valid_date (year month day : Z) : bool :=
  (1 <=? year) && (year <=? 9999) &&
  (1 <=? month) && (month <=? 12) &&
  (1 <=? day) && (day <=? days_in_month year month).

Definition strptime (s : string) : option (Z * Z * Z) :=
  match format_regex_match s with
  | None => None
  | Some (y, m, d, rest) =>
      match rest with
      | String _ _ => None
      | EmptyString => if valid_date y m d then Some (y, m, d) else None
      end
  end.

Definition toordinal (dt : Z * Z * Z) : Z :=
  let '(y, m, d) := dt in ymd2ord y m d.

(** [(end_dt - start_dt).days] *)
Definition days_between (end_dt start_dt : Z * Z * Z) : Z :=
  toordinal end_dt - toordinal start_dt.

End Datetime.

(** ** Raw company facts *)

(** One reported observation: a JSON object read with [entry.get]. *)
Record entry := Entry {
  e_start : option string;   (* "start" *)
  e_end : option string;     (* "end" *)
  e_val : option Z;          (* "val" *)
  e_form : option string;    (* "form" *)
  e_filed : option string;   (* "filed" *)
}.

(** A concept of the taxonomy: [concept_data.get("units", {})] maps a unit
    label to the list of observations reported in that unit. *)
Record concept_data := ConceptData {
  c_units : option (gmap string (list entry));
}.

(** The company facts document: [facts.get("facts", {})] maps a taxonomy
    namespace to its concepts. *)
Record facts := Facts {
  f_facts : option (gmap string (gmap string concept_data));
}.

(** ** XBRL concept mappings

    Each output field maps to the ordered list of concept names to try. *)

Definition INCOME_CONCEPTS : list (string * list string) :=
  [ ("Revenues",
      [ "Revenues";
        "RevenueFromContractWithCustomerExcludingAssessedTax";
        "RevenueFromContractWithCustomerIncludingAssessedTax";
        "SalesRevenueNet";
        "SalesRevenueGoodsNet";
        "SalesRevenueServicesNet";
        "RevenueNet" ]);
    ("CostOfRevenue",
      [ "CostOfRevenue";
        "CostOfGoodsAndServicesSold";
        "CostOfGoodsSold";
        "CostOfGoodsAndServiceExcludingDepreciationDepletionAndAmortization" ]);
    ("GrossProfit",
      [ "GrossProfit" ]);
    ("ResearchAndDevelopmentExpense",
      [ "ResearchAndDevelopmentExpense";
        "ResearchAndDevelopmentExpenseExcludingAcquiredInProcessCost" ]);
    ("SellingGeneralAndAdministrativeExpense",
      [ "SellingGeneralAndAdministrativeExpense";
        "SellingAndMarketingExpense";
        "GeneralAndAdministrativeExpense" ]);
    ("OperatingExpenses",
      [ "OperatingExpenses";
        "CostsAndExpenses" ]);
    ("OperatingIncomeLoss",
      [ "OperatingIncomeLoss" ]);
    ("InterestExpense",
      [ "InterestExpense";
        "InterestExpenseDebt" ]);
    ("InterestIncome",
      [ "InterestIncome";
        "InvestmentIncomeInterest" ]);
    ("IncomeTaxExpenseBenefit",
      [ "IncomeTaxExpenseBenefit" ]);
    ("NetIncomeLoss",
      [ "NetIncomeLoss";
        "ProfitLoss";
        "NetIncomeLossAvailableToCommonStockholdersBasic" ]);
    ("EarningsPerShareBasic",
      [ "EarningsPerShareBasic" ]);
    ("EarningsPerShareDiluted",
      [ "EarningsPerShareDiluted" ]);
    ("WeightedAverageNumberOfSharesOutstandingBasic",
      [ "WeightedAverageNumberOfSharesOutstandingBasic";
        "CommonStockSharesOutstanding" ]);
    ("WeightedAverageNumberOfDilutedSharesOutstanding",
      [ "WeightedAverageNumberOfDilutedSharesOutstanding" ]);
    ("DepreciationAndAmortization",
      [ "DepreciationDepletionAndAmortization";
        "DepreciationAmortizationAndAccretionNet";
        "Depreciation" ]);
    ("IncomeBeforeTax",
      [ "IncomeLossFromContinuingOperationsBeforeIncomeTaxesExtraordinaryItemsNoncontrollingInterest";
        "IncomeLossFromContinuingOperationsBeforeIncomeTaxesDomestic";
        "IncomeLossFromContinuingOperationsBeforeIncomeTaxesMinorityInterestAndIncomeLossFromEquityMethodInvestments" ]);
    ("NetIncomeFromContinuingOperations",
      [ "IncomeLossFromContinuingOperations" ]);
    ("OtherIncomeExpenseNet",
      [ "NonoperatingIncomeExpense";
        "OtherNonoperatingIncomeExpense" ]) ].

Definition BALANCE_CONCEPTS : list (string * list string) :=
  [ ("CashAndCashEquivalents",
      [ "CashAndCashEquivalentsAtCarryingValue";
        "CashCashEquivalentsAndShortTermInvestments";
        "Cash" ]);
    ("ShortTermInvestments",
      [ "ShortTermInvestments";
        "AvailableForSaleSecuritiesCurrent";
        "MarketableSecuritiesCurrent" ]);
    ("AccountsReceivableNet",
      [ "AccountsReceivableNetCurrent";
        "AccountsReceivableNet";
        "ReceivablesNetCurrent" ]);
    ("Inventories",
      [ "InventoryNet";
        "InventoryFinishedGoods" ]);
    ("OtherCurrentAssets",
      [ "OtherAssetsCurrent";
        "PrepaidExpenseAndOtherAssetsCurrent" ]);
    ("TotalCurrentAssets",
      [ "AssetsCurrent" ]);
    ("PropertyPlantAndEquipmentNet",
      [ "PropertyPlantAndEquipmentNet";
        "PropertyPlantAndEquipmentAndFinanceLeaseRightOfUseAssetAfterAccumulatedDepreciationAndAmortization" ]);
    ("Goodwill",
      [ "Goodwill" ]);
    ("IntangibleAssetsNet",
      [ "IntangibleAssetsNetExcludingGoodwill";
        "FiniteLivedIntangibleAssetsNet" ]);
    ("LongTermInvestments",
      [ "LongTermInvestments";
        "MarketableSecuritiesNoncurrent";
        "AvailableForSaleSecuritiesNoncurrent" ]);
    ("OtherNonCurrentAssets",
      [ "OtherAssetsNoncurrent" ]);
    ("TotalNonCurrentAssets",
      [ "AssetsNoncurrent" ]);
    ("TotalAssets",
      [ "Assets" ]);
    ("AccountsPayable",
      [ "AccountsPayableCurrent";
        "AccountsPayableAndAccruedLiabilitiesCurrent" ]);
    ("ShortTermDebt",
      [ "ShortTermBorrowings";
        "CommercialPaper" ]);
    ("DeferredRevenueCurrent",
      [ "DeferredRevenueCurrent";
        "ContractWithCustomerLiabilityCurrent" ]);
    ("OtherCurrentLiabilities",
      [ "OtherLiabilitiesCurrent";
        "AccruedLiabilitiesCurrent" ]);
    ("TotalCurrentLiabilities",
      [ "LiabilitiesCurrent" ]);
    ("LongTermDebt",
      [ "LongTermDebtNoncurrent";
        "LongTermDebt";
        "LongTermDebtAndCapitalLeaseObligations" ]);
    ("OtherNonCurrentLiabilities",
      [ "OtherLiabilitiesNoncurrent" ]);
    ("TotalNonCurrentLiabilities",
      [ "LiabilitiesNoncurrent" ]);
    ("TotalLiabilities",
      [ "Liabilities" ]);
    ("CommonStockValue",
      [ "CommonStocksIncludingAdditionalPaidInCapital";
        "CommonStockValue" ]);
    ("RetainedEarnings",
      [ "RetainedEarningsAccumulatedDeficit" ]);
    ("AccumulatedOtherComprehensiveIncomeLoss",
      [ "AccumulatedOtherComprehensiveIncomeLossNetOfTax" ]);
    ("TotalStockholdersEquity",
      [ "StockholdersEquity";
        "StockholdersEquityIncludingPortionAttributableToNoncontrollingInterest" ]);
    ("TotalLiabilitiesAndStockholdersEquity",
      [ "LiabilitiesAndStockholdersEquity" ]);
    ("CommonSharesOutstanding",
      [ "CommonStockSharesOutstanding";
        "EntityCommonStockSharesOutstanding" ]);
    ("TreasuryStock",
      [ "TreasuryStockValue" ]);
    ("AdditionalPaidInCapital",
      [ "AdditionalPaidInCapitalCommonStock";
        "AdditionalPaidInCapital" ]) ].

Definition CASHFLOW_CONCEPTS : list (string * list string) :=
  [ ("NetIncomeLoss",
      [ "NetIncomeLoss";
        "ProfitLoss" ]);
    ("DepreciationAndAmortization",
      [ "DepreciationDepletionAndAmortization";
        "DepreciationAmortizationAndAccretionNet";
        "Depreciation" ]);
    ("StockBasedCompensation",
      [ "ShareBasedCompensation";
        "StockBasedCompensation" ]);
    ("DeferredIncomeTax",
      [ "DeferredIncomeTaxExpenseBenefit";
        "DeferredIncomeTaxesAndTaxCredits" ]);
    ("ChangeInAccountsReceivable",
      [ "IncreaseDecreaseInAccountsReceivable" ]);
    ("ChangeInInventories",
      [ "IncreaseDecreaseInInventories" ]);
    ("ChangeInAccountsPayable",
      [ "IncreaseDecreaseInAccountsPayable";
        "IncreaseDecreaseInAccountsPayableAndAccruedLiabilities" ]);
    ("OtherOperatingActivities",
      [ "OtherOperatingActivitiesCashFlowStatement";
        "OtherNoncashIncomeExpense" ]);
    ("NetCashFromOperatingActivities",
      [ "NetCashProvidedByUsedInOperatingActivities" ]);
    ("CapitalExpenditures",
      [ "PaymentsToAcquirePropertyPlantAndEquipment";
        "PaymentsForCapitalImprovements" ]);
    ("PurchaseOfInvestments",
      [ "PaymentsToAcquireInvestments";
        "PaymentsToAcquireAvailableForSaleSecuritiesDebt";
        "PaymentsToAcquireMarketableSecurities" ]);
    ("SaleOfInvestments",
      [ "ProceedsFromSaleAndMaturityOfMarketableSecurities";
        "ProceedsFromMaturitiesPrepaymentsAndCallsOfAvailableForSaleSecurities";
        "ProceedsFromSaleOfAvailableForSaleSecuritiesDebt" ]);
    ("Acquisitions",
      [ "PaymentsToAcquireBusinessesNetOfCashAcquired";
        "PaymentsToAcquireBusinessesAndInterestInAffiliates" ]);
    ("OtherInvestingActivities",
      [ "PaymentsForProceedsFromOtherInvestingActivities";
        "OtherInvestingActivitiesCashFlowStatement" ]);
    ("NetCashFromInvestingActivities",
      [ "NetCashProvidedByUsedInInvestingActivities" ]);
    ("DebtRepayment",
      [ "RepaymentsOfLongTermDebt";
        "RepaymentsOfDebt" ]);
    ("DebtIssuance",
      [ "ProceedsFromIssuanceOfLongTermDebt";
        "ProceedsFromDebtNetOfIssuanceCosts" ]);
    ("CommonStockRepurchased",
      [ "PaymentsForRepurchaseOfCommonStock";
        "PaymentsForRepurchaseOfEquity" ]);
    ("DividendsPaid",
      [ "PaymentsOfDividendsCommonStock";
        "PaymentsOfDividends" ]);
    ("OtherFinancingActivities",
      [ "ProceedsFromPaymentsForOtherFinancingActivities";
        "OtherFinancingActivitiesCashFlowStatement" ]);
    ("NetCashFromFinancingActivities",
      [ "NetCashProvidedByUsedInFinancingActivities" ]);
    ("NetChangeInCash",
      [ "CashCashEquivalentsRestrictedCashAndRestrictedCashEquivalentsPeriodIncreaseDecreaseIncludingExchangeRateEffect";
        "CashAndCashEquivalentsPeriodIncreaseDecrease" ]);
    ("CashAtEndOfPeriod",
      [ "CashCashEquivalentsRestrictedCashAndRestrictedCashEquivalents";
        "CashAndCashEquivalentsAtCarryingValue" ]) ].

(** ** [_extract_financial_items] *)

Definition form_filter (quarter : bool) : string :=
  if quarter then "10-Q" else "10-K".

(** Truth value of a string in a condition: it is not empty. *)
Definition truthy (s : string) : bool := negb (String.eqb s "").

(** The [try] block of the annual duration test; [true] when it reaches its
    [continue]. A [ValueError] of either [strptime] is caught and passed. *)
Definition duration_below_350 (start_date end_date : string) : bool :=
  match Datetime.strptime start_date with
  | None => false
  | Some start_dt =>
      match Datetime.strptime end_date with
      | None => false
      | Some end_dt =>
          let duration := Datetime.days_between end_dt start_dt in
          duration <? 350
      end
  end.

(** Body of [for entry in entries], on the dictionary [filing_entries] that
    maps an end date to the list of its [(filed_date, val)] pairs. *)
Definition collect_entry (quarter : bool)
    (filing_entries : list (string * list (string * Z)))
    (e : entry) : list (string * list (string * Z)) :=
  let form := default "" (e_form e) in
  if negb (String.eqb form (form_filter quarter)) then filing_entries else
  let end_date := default "" (e_end e) in
  if negb (truthy end_date) then filing_entries else
  let start_date := default "" (e_start e) in
  if negb quarter && truthy start_date && truthy end_date
     && duration_below_350 start_date end_date then filing_entries else
  let filed_date := default "" (e_filed e) in
  let val := default 0 (e_val e) in
  let filing_entries :=
    if Dict.mem filing_entries end_date then filing_entries
    else Dict.set filing_entries end_date [] in
  Dict.set filing_entries end_date
    (Dict.get filing_entries end_date [] ++ [(filed_date, val)]).

(** [filings.sort(key=lambda x: x[0], reverse=True)]: the stable sort by
    decreasing key, pairs with equal keys keep their relative order. *)
Fixpoint insert_desc (x : string * Z) (l : list (string * Z)) : list (string * Z) :=
  match l with
  | [] => [x]
  | y :: l' => if String.ltb (fst x) (fst y) then y :: insert_desc x l' else x :: l
  end.

Definition sort_desc (filings : list (string * Z)) : list (string * Z) :=
  foldr insert_desc [] filings.

(** [for end_date, filings in filing_entries.items()]: the first pair after
    the sort gives the value of the period. A group is created by an append
    and is never empty, [filings[0]] does not fail. *)
Definition deduplicate (field_data : list (string * Z))
    (filing_entries : list (string * list (string * Z))) : list (string * Z) :=
  fold_left
    (fun field_data '(end_date, filings) =>
       match sort_desc filings with
       | (_, v) :: _ => Dict.set field_data end_date v
       | [] => field_data
       end)
    filing_entries field_data.

Definition unit_priority : list string := ["USD"; "USD/shares"; "shares"; "pure"].

(** [for key in [...]: if key in units: unit_key = key; break] *)
Fixpoint select_unit (keys : list string) (units : gmap string (list entry))
    : option string :=
  match keys with
  | [] => None
  | key :: keys' =>
      match units !! key with
      | Some _ => Some key
      | None => select_unit keys' units
      end
  end.

(** [for concept_name in concept_names], with the dictionary [field_data] of
    the field carried through the iterations. *)
Fixpoint try_concepts (us_gaap : gmap string concept_data) (quarter : bool)
    (concept_names : list string) (field_data : list (string * Z))
    : list (string * Z) :=
  match concept_names with
  | [] => field_data
  | concept_name :: rest =>
      match us_gaap !! concept_name with
      | None => try_concepts us_gaap quarter rest field_data
      | Some concept =>
          let units := default ∅ (c_units concept) in
          match select_unit unit_priority units with
          | None => try_concepts us_gaap quarter rest field_data
          | Some unit_key =>
              let entries := default [] (units !! unit_key) in
              let filing_entries := fold_left (collect_entry quarter) entries [] in
              let field_data := deduplicate field_data filing_entries in
              match field_data with
              | _ :: _ => field_data
              | [] => try_concepts us_gaap quarter rest field_data
              end
          end
      end
  end.

Definition _extract_financial_items (f : facts)
    (concept_mapping : list (string * list string)) (quarter : bool)
    : list (string * list (string * Z)) :=
  let us_gaap := default ∅ (default ∅ (f_facts f) !! "us-gaap") in
  fold_left
    (fun result '(field_name, concept_names) =>
       let field_data := try_concepts us_gaap quarter concept_names [] in
       Dict.set result field_name field_data)
    concept_mapping [].

(** ** [get_financial_statement] *)

(** A frame: column labels and, per row, the index label and the cells. A
    cell is the number of the series as it is: [pandas] stores the cells as
    64-bit integers or floats, which holds exactly every integer of
    magnitude up to 2^53; the cell of a greater value may be rounded. *)
Record dataframe (C : Type) := DataFrame {
  df_columns : list C;
  df_rows : list (string * list Z);
}.
Arguments DataFrame {C} _ _.
Arguments df_columns {C} _.
Arguments df_rows {C} _.

Inductive exn :=
  | ValueError (msg : string)
  | KeyError (key : string)
  | PeriodParseError.

(** Calls made to the collaborators of the function, in order. *)
Inductive event :=
  | CikLookup (ticker : string)
  | FactsFetch (cik : string)
  | LogWarning (about : string).

Section Statement.
(** The period labels of [pandas], and the conversion of one column label by
    [pd.PeriodIndex(..., freq="Q" if quarter else "Y")]; [None] when the
    library rejects the string. *)
Context {Period : Type} `{EqDecision Period}.
Variable period_of : bool -> string -> option Period.

(** The network collaborators: the CIK of a ticker, the facts of a CIK. *)
Variable get_cik_for_ticker : string -> option string.
Variable get_company_facts : string -> option facts.

Inductive outcome :=
  | Raise (e : exn)
  | ReturnError (df : dataframe string)
  | ReturnTable (df : dataframe Period).

(** [columns.duplicated()]: marks every label seen earlier in the index. *)
Fixpoint duplicated_from (seen labels : list Period) : list bool :=
  match labels with
  | [] => []
  | p :: rest => bool_decide (p ∈ seen) :: duplicated_from (p :: seen) rest
  end.

Definition duplicated (labels : list Period) : list bool :=
  duplicated_from [] labels.

(** Selection with the mask [~duplicated]. *)
Fixpoint drop_marked {A : Type} (dup : list bool) (l : list A) : list A :=
  match dup, l with
  | b :: dup', x :: l' =>
      if b then drop_marked dup' l' else x :: drop_marked dup' l'
  | _, _ => []
  end.

Definition error_frame (error_code : string) : outcome :=
  ReturnError (DataFrame [error_code] []).

(** [for dates in items.values(): all_dates.update(dates.keys())] *)
Definition collect_dates (items : list (string * list (string * Z))) : gset string :=
  fold_left (fun all_dates '(_, dates) => all_dates ∪ list_to_set (Dict.keys dates))
    items ∅.

(** [sorted(all_dates)]: the elements of the set in ascending order. *)
Definition sorted (all_dates : gset string) : list string :=
  merge_sort String.le (elements all_dates).

(** The part of the function after the items are extracted, from
    [all_dates] to the returned frame. The dictionary built for a field has
    the keys [sorted_dates], in that order: it is represented by the list of
    its values. *)
Definition build_frame (items : list (string * list (string * Z)))
    (quarter fallback : bool) : outcome :=
  let all_dates := collect_dates items in
  if decide (all_dates = ∅) then
    error_frame (if fallback then "EDGAR NO DATA FOUND FALLBACK" else "EDGAR NO DATA FOUND")
  else
    let sorted_dates := sorted all_dates in
    let data :=
      fold_left
        (fun data '(field_name, dates_values) =>
           Dict.set data field_name
             ((fun date => Dict.get dates_values date 0) <$> sorted_dates))
        items [] in
    (* pd.DataFrame(data).T: one row per field, one column per date *)
    let df := DataFrame sorted_dates data in
    match mapM (period_of quarter) (df_columns df) with
    | None => Raise PeriodParseError
    | Some columns =>
        let df := DataFrame columns (df_rows df) in
        let dup := duplicated (df_columns df) in
        let df :=
          if existsb id dup then
            DataFrame (drop_marked dup (df_columns df))
              ((fun '(f, cells) => (f, drop_marked dup cells)) <$> df_rows df)
          else df in
        (* no cell is NaN: fillna has nothing to fill *)
        ReturnTable df
    end.

Definition statement_concepts : list (string * list (string * list string)) :=
  [ ("income", INCOME_CONCEPTS);
    ("balance", BALANCE_CONCEPTS);
    ("cashflow", CASHFLOW_CONCEPTS) ].

Definition get_financial_statement (ticker statement : string)
    (quarter fallback : bool) : list event * outcome :=
  if negb (bool_decide (statement ∈ ["balance"; "income"; "cashflow"])) then
    ([], Raise (ValueError
      "Please choose either 'balance', 'income', or cashflow' for the statement parameter."))
  else
    match get_cik_for_ticker ticker with
    | None =>
        ([CikLookup ticker; LogWarning ticker],
         error_frame (if fallback then "EDGAR NO CIK FOUND FALLBACK" else "EDGAR NO CIK FOUND"))
    | Some cik =>
        match get_company_facts cik with
        | None =>
            ([CikLookup ticker; FactsFetch cik; LogWarning ticker],
             error_frame (if fallback then "EDGAR NO DATA FOUND FALLBACK" else "EDGAR NO DATA FOUND"))
        | Some f =>
            match Dict.lookup statement_concepts statement with
            | None => ([CikLookup ticker; FactsFetch cik], Raise (KeyError statement))
            | Some concept_mapping =>
                let items := _extract_financial_items f concept_mapping quarter in
                ([CikLookup ticker; FactsFetch cik],
                 build_frame items quarter fallback)
            end
        end
    end.
End Statement.

(** ** Period labels of ISO dates

    The labels [pandas] gives to a date written [YYYY-MM-DD]: its calendar
    year for the annual frequency, its calendar year and quarter for the
    quarterly one. Used for the concrete instances below; every other string
    is taken as rejected. *)

Inductive period :=
  | Year (y : Z)
  | Quarter (y q : Z).

Global Instance period_eq_dec : EqDecision period.
Proof. solve_decision. Defined.

Definition iso_period (quarter : bool) (date : string) : option period :=
  match Datetime.strptime date with
  | Some (y, m, _) => Some (if quarter then Quarter y ((m - 1) / 3 + 1) else Year y)
  | None => None
  end.

(** ** Notions used to state the properties *)

(** The three tests of the loop body over the entries, taken together. *)
Definition survives (quarter : bool) (e : entry) : bool :=
  String.eqb (default "" (e_form e)) (form_filter quarter)
  && truthy (default "" (e_end e))
  && negb (negb quarter && truthy (default "" (e_start e))
           && truthy (default "" (e_end e))
           && duration_below_350 (default "" (e_start e)) (default "" (e_end e))).

(** The pair an entry leaves in its group. *)
Definition filing (e : entry) : string * Z :=
  (default "" (e_filed e), default 0 (e_val e)).

(** The surviving observations of one period, in the order of the input. *)
Definition group (quarter : bool) (end_date : string) (entries : list entry)
    : list (string * Z) :=
  filing <$> filter (fun e => survives quarter e = true /\ default "" (e_end e) = end_date) entries.

(** The series resolved from the observations of one unit of one concept. *)
Definition resolve_entries (quarter : bool) (entries : list entry) : list (string * Z) :=
  deduplicate [] (fold_left (collect_entry quarter) entries []).

(** The observations of the unit selected for a concept, when there is one. *)
Definition selected_entries (us_gaap : gmap string concept_data)
    (concept_name : string) : option (list entry) :=
  match us_gaap !! concept_name with
  | None => None
  | Some concept =>
      let units := default ∅ (c_units concept) in
      match select_unit unit_priority units with
      | None => None
      | Some unit_key => Some (default [] (units !! unit_key))
      end
  end.

(** The series one concept yields on its own. *)
Definition concept_fragment (us_gaap : gmap string concept_data) (quarter : bool)
    (concept_name : string) : list (string * Z) :=
  match selected_entries us_gaap concept_name with
  | None => []
  | Some entries => resolve_entries quarter entries
  end.

(** [facts.get("facts", {}).get("us-gaap", {})] *)
Definition us_gaap_of (f : facts) : gmap string concept_data :=
  default ∅ (default ∅ (f_facts f) !! "us-gaap").

(** ** Sample company facts for the instances *)

Definition obs (start_date : option string) (end_date : string) (val : Z)
    (form filed : string) : entry :=
  Entry start_date (Some end_date) (Some val) (Some form) (Some filed).

Definition usd_only (entries : list entry) : concept_data :=
  ConceptData (Some {[ "USD" := entries ]}).

(** Revenue reported under three synonyms: the first only in a quarterly
    filing, the second and the third in annual filings of different years. *)
Definition revenue_facts : facts :=
  Facts (Some {[ "us-gaap" :=
    list_to_map
      [ ("Revenues",
         usd_only [ obs (Some "2020-03-29") "2020-06-27" 59685000000 "10-Q" "2020-07-31" ]);
        ("RevenueFromContractWithCustomerExcludingAssessedTax",
         usd_only [ obs (Some "2019-09-29") "2020-09-26" 274515000000 "10-K" "2020-10-30" ]);
        ("SalesRevenueNet",
         usd_only [ obs (Some "2018-09-30") "2019-09-28" 260174000000 "10-K" "2019-10-31";
                    obs (Some "2019-09-29") "2020-09-26" 1 "10-K" "2020-10-30" ]) ] ]}).

(** Two filings of total assets for one period, in both orders. *)
Definition assets_early : entry := obs None "2023-09-30" 999999999999 "10-K" "2023-10-01".
Definition assets_late : entry := obs None "2023-09-30" 352583000000 "10-K" "2023-11-03".

(** A concept reported in two units. *)
Definition two_unit_concept : concept_data :=
  ConceptData (Some (list_to_map
    [ ("shares", [ obs None "2022-12-31" 1000 "10-K" "2023-02-01" ]);
      ("USD", [ obs None "2022-12-31" 5000000 "10-K" "2023-02-01" ]) ])).

(** An annual filing covering half a year, and one without a start date. *)
Definition half_year : entry := obs (Some "2020-01-01") "2020-06-30" 100 "10-K" "2020-08-01".
Definition no_start : entry := obs None "2020-06-30" 100 "10-K" "2020-08-01".

(** An observation without end date, and one without value. *)
Definition no_end : entry := Entry None None (Some 42) (Some "10-K") (Some "2021-02-01").
Definition no_val : entry :=
  Entry None (Some "2021-12-31") None (Some "10-K") (Some "2022-02-01").

(** ** Facts with every missing value written as 0 *)

Definition fill_val (e : entry) : entry :=
  Entry (e_start e) (e_end e) (Some (default 0 (e_val e))) (e_form e) (e_filed e).

Definition fill_units (units : gmap string (list entry)) : gmap string (list entry) :=
  (fun entries : list entry => fill_val <$> entries) <$> units.

Definition fill_concept (concept : concept_data) : concept_data :=
  ConceptData (fill_units <$> c_units concept).

Definition fill_us_gaap (us_gaap : gmap string concept_data) : gmap string concept_data :=
  fill_concept <$> us_gaap.

Definition fill_facts (f : facts) : facts :=
  Facts ((fun namespaces : gmap string (gmap string concept_data) =>
            fill_us_gaap <$> namespaces) <$> f_facts f).

(** Total assets and total liabilities of a company whose fiscal year ends on
    the Saturday nearest to 31 December: the years 2015 and 2016 end on
    2016-01-02 and 2016-12-31, both in the calendar year 2016. *)
Definition week53_facts : facts :=
  Facts (Some {[ "us-gaap" :=
    list_to_map
      [ ("Assets", usd_only [ obs None "2016-01-02" 5 "10-K" "2016-02-26" ]);
        ("Liabilities", usd_only [ obs None "2016-12-31" 7 "10-K" "2017-02-24" ]) ] ]}).

Definition week53_items : list (string * list (string * Z)) :=
  [ ("TotalAssets", [("2016-01-02", 5)]);
    ("TotalLiabilities", [("2016-12-31", 7)]) ].

(** Total assets and total liabilities reported for different years. *)
Definition two_year_facts : facts :=
  Facts (Some {[ "us-gaap" :=
    list_to_map
      [ ("Assets", usd_only [ obs None "2015-12-31" 5 "10-K" "2016-02-26" ]);
        ("Liabilities", usd_only [ obs None "2016-12-31" 7 "10-K" "2017-02-24" ]) ] ]}).

(** A concept reported in shares and in USD, as the facts of a company. *)
Definition two_unit_facts : facts :=
  Facts (Some {[ "us-gaap" := {[ "Shares" := two_unit_concept ]} ]}).

(** ** The end dates of the resolved series

    [d] is an end date of the statement: some field has an entry for it. *)
Definition has_end_date (items : list (string * list (string * Z))) (d : string) : Prop :=
  exists field series, (field, series) ∈ items /\ d ∈ Dict.keys series.

(** ** The table with one zero-filled column per end date

    The property that every end date found in a series is a column of the
    table, under its period label, in which a field without entry for that
    date holds 0. *)
Definition every_date_column_zero_filled {Period : Type}
    (period_of : bool -> string -> option Period)
    (items : list (string * list (string * Z))) (quarter : bool)
    (df : dataframe Period) : Prop :=
  forall d, d ∈ collect_dates items ->
    exists (i : nat) (p : Period),
      period_of quarter d = Some p
      /\ df_columns df !! i = Some p
      /\ forall field series cells,
           (field, series) ∈ items -> (field, cells) ∈ df_rows df ->
           Dict.lookup series d = None -> cells !! i = Some 0.

(** ** The HTTP collaborator and the caches

    [_rate_limited_get(url)] waits for its turn and performs the request; its
    caller sees an exception of [requests], or a response with a status code
    whose [json()] is the decoded document or fails with a [ValueError]. The
    answer to the one request a function makes is given by an oracle from
    the URL. *)

Inductive response (A : Type) :=
  | RequestException
  | Response (status_code : Z) (json : option A).
Arguments RequestException {A}.
Arguments Response {A} _ _.

(** What a function does to the outside, in order. *)
Inductive io :=
  | HttpGet (url : string)
  | LoggerError
  | LoggerWarning.

(** An entry of [company_tickers.json]; ["cik_str"] is an integer or a
    string of the document. *)
Inductive cik_value :=
  | CikInt (n : Z)
  | CikStr (s : string).

Record ticker_entry := TickerEntry {
  t_ticker : option string;      (* "ticker" *)
  t_cik_str : option cik_value;  (* "cik_str" *)
}.

Module Str.

(** [str(v)] *)
Definition str (v : cik_value) : string :=
  match v with
  | CikInt n => pretty n
  | CikStr s => s
  end.

(** ["0" * n] *)
Fixpoint zeros (n : nat) : string :=
  match n with
  | O => EmptyString
  | S n' => String "0" (zeros n')
  end.

(** [s.zfill(width)]: zeros are added on the left up to [width], after a
    leading sign when there is one; a string of [width] characters or more is
    returned as it is. *)
Definition zfill (width : nat) (s : string) : string :=
  if decide (width <= String.length s)%nat then s
  else
    let fill := (width - String.length s)%nat in
    match s with
    | String c rest =>
        if Ascii.eqb c "+" || Ascii.eqb c "-"
        then String c (zeros fill +:+ rest)
        else zeros fill +:+ s
    | EmptyString => zeros fill
    end.

(** The first character of a string is not a sign. *)
Definition unsigned (s : string) : Prop :=
  match s with
  | String c _ => (Ascii.eqb c "+" || Ascii.eqb c "-") = false
  | EmptyString => True
  end.

(** The upper case of an ASCII character, for the instances. *)
Definition ascii_upper_char (c : ascii) : ascii :=
  let n := N_of_ascii c in
  if (97 <=? n)%N && (n <=? 122)%N then ascii_of_N (n - 32) else c.

Fixpoint ascii_upper (s : string) : string :=
  match s with
  | EmptyString => EmptyString
  | String c rest => String (ascii_upper_char c) (ascii_upper rest)
  end.

End Str.

(** The two module-level caches. *)
Record caches := Caches {
  _ticker_cik_cache : gmap string string;
  _company_facts_cache : gmap string facts;
}.

Module Cached.
Section Cached.
(** [str.upper] *)
Variable upper : string -> string.

Definition TICKERS_URL : string := "https://www.sec.gov/files/company_tickers.json".

(** Body of [for entry in data.values()] *)
Definition store_entry (cache : gmap string string) (entry : ticker_entry)
    : gmap string string :=
  let t := upper (default "" (t_ticker entry)) in
  let cik := Str.zfill 10 (Str.str (default (CikStr "") (t_cik_str entry))) in
  <[t := cik]> cache.

(** [get_cik_for_ticker(ticker)] on the cache [_ticker_cik_cache]; the
    document of a successful response is given by its values, in order. *)
Definition get_cik_for_ticker (http : string -> response (list ticker_entry))
    (ticker : string) (cache : gmap string string)
    : list io * gmap string string * option string :=
  let ticker_upper := upper ticker in
  match cache !! ticker_upper with
  | Some cik => ([], cache, Some cik)
  | None =>
      if decide (cache = ∅) then
        match http TICKERS_URL with
        | RequestException => ([HttpGet TICKERS_URL; LoggerError], cache, None)
        | Response status_code json =>
            if negb (status_code =? 200) then
              ([HttpGet TICKERS_URL; LoggerError], cache, None)
            else
              match json with
              | None => ([HttpGet TICKERS_URL; LoggerError], cache, None)
              | Some data =>
                  let cache := fold_left store_entry data cache in
                  ([HttpGet TICKERS_URL], cache, cache !! ticker_upper)
              end
        end
      else ([], cache, cache !! ticker_upper)
  end.

Definition facts_url (cik : string) : string :=
  "https://data.sec.gov/api/xbrl/companyfacts/CIK" +:+ cik +:+ ".json".

(** [get_company_facts(cik)] on the cache [_company_facts_cache]. *)
Definition get_company_facts (http : string -> response facts)
    (cik : string) (cache : gmap string facts)
    : list io * gmap string facts * option facts :=
  match cache !! cik with
  | Some f => ([], cache, Some f)
  | None =>
      let url := facts_url cik in
      match http url with
      | RequestException => ([HttpGet url; LoggerError], cache, None)
      | Response status_code json =>
          if negb (status_code =? 200) then ([HttpGet url; LoggerError], cache, None)
          else
            match json with
            | None => ([HttpGet url; LoggerError], cache, None)
            | Some f => ([HttpGet url], <[cik := f]> cache, Some f)
            end
      end
  end.

(** [clear_cache()] *)
Definition clear_cache (st : caches) : caches := Caches ∅ ∅.

(** [get_financial_statement] with its two collaborators run on the caches. *)
Definition get_financial_statement {Period : Type} `{EqDecision Period}
    (period_of : bool -> string -> option Period)
    (tickers_http : string -> response (list ticker_entry))
    (facts_http : string -> response facts)
    (ticker statement : string) (quarter fallback : bool) (st : caches)
    : list io * caches * outcome :=
  if negb (bool_decide (statement ∈ ["balance"; "income"; "cashflow"])) then
    ([], st, Raise (ValueError
      "Please choose either 'balance', 'income', or cashflow' for the statement parameter."))
  else
    let '(io1, cik_cache, cik) :=
      get_cik_for_ticker tickers_http ticker (_ticker_cik_cache st) in
    let st := Caches cik_cache (_company_facts_cache st) in
    match cik with
    | None =>
        (io1 ++ [LoggerWarning], st,
         error_frame (if fallback then "EDGAR NO CIK FOUND FALLBACK" else "EDGAR NO CIK FOUND"))
    | Some cik =>
        let '(io2, facts_cache, f) :=
          get_company_facts facts_http cik (_company_facts_cache st) in
        let st := Caches (_ticker_cik_cache st) facts_cache in
        match f with
        | None =>
            (io1 ++ io2 ++ [LoggerWarning], st,
             error_frame (if fallback then "EDGAR NO DATA FOUND FALLBACK" else "EDGAR NO DATA FOUND"))
        | Some f =>
            match Dict.lookup statement_concepts statement with
            | None => (io1 ++ io2, st, Raise (KeyError statement))
            | Some concept_mapping =>
                let items := _extract_financial_items f concept_mapping quarter in
                (io1 ++ io2, st, build_frame period_of items quarter fallback)
            end
        end
    end.
End Cached.
End Cached.

(** ** The download script: CIK pre-filter and batches *)

Module Script.

Definition BATCH_SIZE : nat := 50.

(** [range(start, stop, step)] for a positive step; [stop] steps are enough
    fuel when the range starts at 0. *)
Fixpoint range_from (fuel start stop step : nat) : list nat :=
  match fuel with
  | O => []
  | S fuel' =>
      if (start <? stop)%nat then start :: range_from fuel' (start + step) stop step
      else []
  end.

Definition range (stop step : nat) : list nat := range_from stop 0 stop step.

(** [[valid_tickers[i : i + BATCH_SIZE] for i in range(0, len(valid_tickers), BATCH_SIZE)]] *)
Definition batches {A : Type} (valid_tickers : list A) : list (list A) :=
  (fun i => take BATCH_SIZE (drop i valid_tickers))
    <$> range (length valid_tickers) BATCH_SIZE.

(** [for ticker in all_tickers: cik = get_cik_for_ticker(ticker) ...]: the
    lookup of the [i]-th ticker sees the network through [https i]. *)
Fixpoint check_ciks (upper : string -> string)
    (https : nat -> string -> response (list ticker_entry)) (i : nat)
    (all_tickers : list string) (cache : gmap string string)
    (valid_tickers no_cik_tickers : list string)
    : list io * gmap string string * list string * list string :=
  match all_tickers with
  | [] => ([], cache, valid_tickers, no_cik_tickers)
  | ticker :: rest =>
      let '(io1, cache, cik) := Cached.get_cik_for_ticker upper (https i) ticker cache in
      let '(io2, cache, valid_tickers, no_cik_tickers) :=
        match cik with
        | Some _ =>
            check_ciks upper https (S i) rest cache (valid_tickers ++ [ticker]) no_cik_tickers
        | None =>
            check_ciks upper https (S i) rest cache valid_tickers (no_cik_tickers ++ [ticker])
        end in
      (io1 ++ io2, cache, valid_tickers, no_cik_tickers)
  end.

End Script.

(** ** Sample documents for the instances on the caches *)

Definition sample_tickers : list ticker_entry :=
  [ TickerEntry (Some "aapl") (Some (CikInt 320193));
    TickerEntry (Some "MSFT") (Some (CikInt 789019));
    TickerEntry (Some "AAPL") (Some (CikStr "42")) ].

Definition tickers_ok : string -> response (list ticker_entry) :=
  fun _ => Response 200 (Some sample_tickers).

Definition server_down {A : Type} : string -> response A :=
  fun _ => Response 503 None.

Definition facts_ok : string -> response facts :=
  fun _ => Response 200 (Some revenue_facts).

(** ** The download script: the list of constituents

    [get_sp500_constituents] from the point where the page is parsed: a
    table is the list of its rows, a row the list of the texts of its cells
    ([get_text(strip=True)] of each [td]). *)

Module Constituents.

(** A row of the result, with the keys of the source. *)
Record constituent := Constituent {
  Ticker : string;
  Name : string;
  Sector : string;
  DateAdded : string;     (* "Date Added" *)
  DateRemoved : string;   (* "Date Removed" *)
  Status : string;
}.

(** What [pd.to_datetime(date_str)] and the comparison with [CUTOFF_DATE]
    make of the date of a change: the conversion fails and the row is
    skipped, or the date is before the cut-off, or it is not (the comparison
    itself is taken not to fail). *)
Inductive date_check :=
  | Unparseable
  | BeforeCutoff
  | SinceCutoff.

Inductive error :=
  | IndexError
  | KeyError (key : string).

(** [s.replace(".", "-")] *)
Fixpoint replace_dot (s : string) : string :=
  match s with
  | EmptyString => EmptyString
  | String c rest =>
      String (if Ascii.eqb c "." then "-"%char else c) (replace_dot rest)
  end.

(** [cols[i]], used where the length of [cols] was tested. *)
Definition cell (cols : list string) (i : nat) : string := default "" (cols !! i).

(** Body of the loop over the rows of the first table. *)
Definition current_row (cols : list string) : option constituent :=
  if (length cols <? 4)%nat then None
  else
    let ticker := replace_dot (cell cols 0) in
    let name := cell cols 1 in
    let sector := cell cols 3 in
    let date_added := if (6 <? length cols)%nat then cell cols 6 else "" in
    Some (Constituent ticker name sector date_added "" "Current").

Section Constituents.
Variable check_date : string -> date_check.

(** Body of the loop over the rows of the table of changes. *)
Definition removed_row (current_tickers : gset string) (cols : list string)
    : option constituent :=
  if (length cols <? 4)%nat then None
  else
    let date_str := cell cols 0 in
    match check_date date_str with
    | Unparseable => None
    | BeforeCutoff => None
    | SinceCutoff =>
        let removed_ticker := replace_dot (cell cols 3) in
        let removed_name := if (4 <? length cols)%nat then cell cols 4 else "" in
        if truthy removed_ticker && negb (bool_decide (removed_ticker ∈ current_tickers))
        then Some (Constituent removed_ticker removed_name "" "" date_str "Removed")
        else None
    end.

(** The loop that keeps the first row of each removed ticker. *)
Fixpoint unique_rows (seen : gset string) (removed : list constituent)
    : list constituent :=
  match removed with
  | [] => []
  | r :: rest =>
      if decide (Ticker r ∈ seen) then unique_rows seen rest
      else r :: unique_rows ({[Ticker r]} ∪ seen) rest
  end.

(** [unique()] of a column: the values in the order of their first
    appearance. *)
Fixpoint unique (seen : gset string) (values : list string) : list string :=
  match values with
  | [] => []
  | v :: rest =>
      if decide (v ∈ seen) then unique seen rest
      else v :: unique ({[v]} ∪ seen) rest
  end.

Definition get_sp500_constituents (tables : list (list (list string)))
    : error + (list string * list constituent) :=
  match tables with
  | [] => inl IndexError
  | current_table :: _ =>
      let rows := drop 1 current_table in
      let current := omap current_row rows in
      let current_tickers : gset string := list_to_set (Ticker <$> current) in
      match tables !! 1%nat with
      | None => inl IndexError
      | Some changes_table =>
          let change_rows := drop 1 changes_table in
          let removed := omap (removed_row current_tickers) change_rows in
          let unique_removed := unique_rows ∅ removed in
          let all_rows := current ++ unique_removed in
          match all_rows with
          | [] => inl (KeyError "Ticker")
          | _ =>
              let all_tickers := merge_sort String.le (unique ∅ (Ticker <$> all_rows)) in
              inr (all_tickers, all_rows)
          end
      end
  end.
End Constituents.

Definition sample_tables : list (list (list string)) :=
  [ [ ["Symbol"; "Security"; "GICS"; "Sector"];
      ["MMM"; "3M"; "x"; "Industrials"; "St. Paul"; "x"; "1957-03-04"];
      ["BRK.B"; "Berkshire Hathaway"; "x"; "Financials"];
      ["short"; "row"] ];
    [ ["Date"; "Added"; "Name"; "Removed"; "Name"; "Reason"];
      ["2024-01-02"; "NEW"; "New Co"; "OLD.A"; "Old Co"; "merger"];
      ["2023-05-01"; "NEW2"; "New Two"; "OLD.A"; "Old Co again"; "other"];
      ["2020-01-01"; "MMM"; "3M"; "MMM"; "3M"; "came back"];
      ["2010-01-01"; "X"; "X Co"; "ANCIENT"; "Ancient Co"; "old"];
      ["n/a"; "Y"; "Y Co"; "BAD"; "Bad date"; "bad"] ] ].

Definition sample_check_date (s : string) : date_check :=
  if String.eqb s "n/a" then Unparseable
  else if String.ltb s "2016-02-08" then BeforeCutoff
  else SinceCutoff.

End Constituents.

(** ** Requests and exact values *)

(** The URLs requested in a trace, in order. *)
Definition requests (trace : list io) : list string :=
  omap (fun x => match x with HttpGet url => Some url | _ => None end) trace.

(** The integers a 64-bit float holds exactly next to all smaller ones. *)
Definition float_exact (v : Z) : Prop := - 2 ^ 53 <= v <= 2 ^ 53.

(** Every value reported in the facts is such an integer. *)
Definition values_float_exact (f : facts) : Prop :=
  forall c concept unit_key entries e,
    us_gaap_of f !! c = Some concept ->
    default ∅ (c_units concept) !! unit_key = Some entries ->
    e ∈ entries ->
    float_exact (default 0 (e_val e)).

(** * Properties *)

(** ** The order of strings *)

Section StringOrder.
Implicit Types a b c : string.

Lemma ltb_false_leb a b : String.ltb a b = false -> String.leb b a = true.
Proof.
  unfold String.ltb, String.leb. rewrite (String.compare_antisym b a).
  destruct (String.compare a b); simpl; congruence.
Qed.

Lemma ltb_true_leb a b : String.ltb a b = true -> String.leb a b = true.
Proof.
  unfold String.ltb, String.leb. destruct (String.compare a b); congruence.
Qed.

Lemma ltb_leb_false a b : String.ltb a b = true -> String.leb b a = false.
Proof.
  unfold String.ltb, String.leb. rewrite (String.compare_antisym b a).
  destruct (String.compare a b); simpl; congruence.
Qed.

Lemma leb_refl a : String.leb a a = true.
Proof. apply Is_true_true. apply (reflexivity (R := String.le)). Qed.

Lemma leb_trans a b c :
  String.leb a b = true -> String.leb b c = true -> String.leb a c = true.
Proof.
  intros H1 H2. apply Is_true_true.
  apply (transitivity (R := String.le) (y := b)); apply Is_true_true; assumption.
Qed.

Lemma leb_antisym_eq a b :
  String.leb a b = true -> String.leb b a = true -> a = b.
Proof. apply String.leb_antisym. Qed.

End StringOrder.

(** ** Dictionaries *)

Section DictFacts.
Context {V : Type}.
Implicit Types (d : list (string * V)) (k : string) (v : V).

Lemma lookup_set_eq d k v : Dict.lookup (Dict.set d k v) k = Some v.
Proof.
  induction d as [|[k' v'] d IH]; simpl.
  - now rewrite String.eqb_refl.
  - destruct (String.eqb k' k) eqn:E; simpl; rewrite E; auto.
Qed.

Lemma lookup_set_ne d k k' v :
  k <> k' -> Dict.lookup (Dict.set d k v) k' = Dict.lookup d k'.
Proof.
  intros Hne. induction d as [|[k0 v0] d IH]; simpl.
  - apply String.eqb_neq in Hne. now rewrite Hne.
  - destruct (String.eqb k0 k) eqn:E; simpl.
    + apply String.eqb_eq in E. subst k0.
      apply String.eqb_neq in Hne. now rewrite Hne.
    + destruct (String.eqb k0 k'); auto.
Qed.

Lemma lookup_None_keys d k : Dict.lookup d k = None <-> k ∉ Dict.keys d.
Proof.
  unfold Dict.keys. induction d as [|[k' v'] d IH]; simpl.
  - split; [intros _; apply not_elem_of_nil | reflexivity].
  - rewrite not_elem_of_cons. destruct (String.eqb k' k) eqn:E.
    + apply String.eqb_eq in E. split; [discriminate | intros [? _]; congruence].
    + apply String.eqb_neq in E. rewrite IH. split; [intros H; split; [congruence | exact H] | intros [_ H]; exact H].
Qed.

Lemma lookup_Some_elem d k v : Dict.lookup d k = Some v -> (k, v) ∈ d.
Proof.
  induction d as [|[k' v'] d IH]; simpl; [discriminate|].
  destruct (String.eqb k' k) eqn:E.
  - apply String.eqb_eq in E. intros [= ->]. subst. apply elem_of_cons. now left.
  - intros H. apply elem_of_cons. right. auto.
Qed.

Lemma lookup_Some_keys d k v : Dict.lookup d k = Some v -> k ∈ Dict.keys d.
Proof.
  intros H. apply lookup_Some_elem in H. unfold Dict.keys.
  apply list_elem_of_fmap. now exists (k, v).
Qed.

Lemma keys_lookup d k : k ∈ Dict.keys d -> exists v, Dict.lookup d k = Some v.
Proof.
  intros H. destruct (Dict.lookup d k) eqn:E; [eauto|].
  apply lookup_None_keys in E. contradiction.
Qed.

Lemma elem_lookup d k v :
  NoDup (Dict.keys d) -> (k, v) ∈ d -> Dict.lookup d k = Some v.
Proof.
  unfold Dict.keys. induction d as [|[k' v'] d IH]; simpl.
  - intros _ H. now apply elem_of_nil in H.
  - intros Hnd Hin. apply NoDup_cons in Hnd as [Hk Hnd].
    apply elem_of_cons in Hin as [Heq | Hin].
    + injection Heq as -> ->. now rewrite String.eqb_refl.
    + destruct (String.eqb k' k) eqn:E; auto.
      apply String.eqb_eq in E. subst k'. exfalso. apply Hk.
      apply list_elem_of_fmap. now exists (k, v).
Qed.

Lemma set_fresh d k v : k ∉ Dict.keys d -> Dict.set d k v = d ++ [(k, v)].
Proof.
  unfold Dict.keys. induction d as [|[k' v'] d IH]; simpl; [reflexivity|].
  rewrite not_elem_of_cons. intros [Hne Hk]. destruct (String.eqb k' k) eqn:E.
  - apply String.eqb_eq in E. congruence.
  - f_equal. now apply IH.
Qed.

Lemma keys_set_present d k v :
  k ∈ Dict.keys d -> Dict.keys (Dict.set d k v) = Dict.keys d.
Proof.
  unfold Dict.keys. induction d as [|[k' v'] d IH]; simpl.
  - intros H. now apply elem_of_nil in H.
  - intros Hk. destruct (String.eqb k' k) eqn:E; simpl; [reflexivity|].
    f_equal. apply IH. apply elem_of_cons in Hk as [->|]; [|assumption].
    now rewrite String.eqb_refl in E.
Qed.

Lemma keys_set_NoDup d k v :
  NoDup (Dict.keys d) -> NoDup (Dict.keys (Dict.set d k v)).
Proof.
  intros Hnd. destruct (decide (k ∈ Dict.keys d)) as [Hin | Hout].
  - now rewrite keys_set_present.
  - rewrite set_fresh by assumption. unfold Dict.keys in *.
    rewrite fmap_app. simpl. apply NoDup_app. split; [assumption|]. split.
    + intros x Hx Hx'. apply list_elem_of_singleton in Hx'. now subst.
    + apply NoDup_singleton.
Qed.

Lemma set_not_nil d k v : Dict.set d k v <> [].
Proof.
  destruct d as [|[k' v'] d]; simpl; [|destruct (String.eqb k' k)]; discriminate.
Qed.

Lemma get_lookup d k dflt v : Dict.lookup d k = Some v -> Dict.get d k dflt = v.
Proof. unfold Dict.get. now intros ->. Qed.

Lemma get_absent d k dflt : k ∉ Dict.keys d -> Dict.get d k dflt = dflt.
Proof. intros H. apply lookup_None_keys in H. unfold Dict.get. now rewrite H. Qed.
End DictFacts.

(** A dictionary filled one key at a time out of a list without repeated
    keys lists the keys in the order of that list. *)
Lemma fold_set_fmap {A V : Type} (g : A -> V) (l : list (string * A)) acc :
  NoDup (l.*1) ->
  (forall k, k ∈ l.*1 -> k ∉ Dict.keys acc) ->
  fold_left (fun r '(k, x) => Dict.set r k (g x)) l acc
  = acc ++ ((fun '(k, x) => (k, g x)) <$> l).
Proof.
  revert acc. induction l as [|[k x] l IH]; intros acc Hnd Hdisj; simpl.
  - now rewrite app_nil_r.
  - apply NoDup_cons in Hnd as [Hk Hnd].
    rewrite set_fresh by (apply Hdisj; simpl; apply elem_of_cons; now left).
    rewrite IH; auto.
    + now rewrite <- app_assoc.
    + intros k' Hk'. unfold Dict.keys. rewrite fmap_app. simpl.
      rewrite elem_of_app, list_elem_of_singleton.
      intros [Hin | ->]; [|contradiction].
      apply (Hdisj k'); [simpl; apply elem_of_cons; now right | exact Hin].
Qed.

(** ** The loop over the entries *)

(** An entry either leaves the dictionary untouched or is appended to the
    group of its end date. *)
Lemma collect_entry_survives quarter fe e :
  collect_entry quarter fe e =
    if survives quarter e then
      let end_date := default "" (e_end e) in
      let fe' := if Dict.mem fe end_date then fe else Dict.set fe end_date [] in
      Dict.set fe' end_date (Dict.get fe' end_date [] ++ [filing e])
    else fe.
Proof.
  unfold collect_entry, survives, filing.
  destruct (String.eqb (default "" (e_form e)) (form_filter quarter)); simpl; [|reflexivity].
  destruct (truthy (default "" (e_end e))); simpl; [|reflexivity].
  destruct (negb quarter && truthy (default "" (e_start e)) && true
            && duration_below_350 (default "" (e_start e)) (default "" (e_end e)));
    reflexivity.
Qed.

Lemma get_after_touch {V} (fe : list (string * list V)) d :
  Dict.get (if Dict.mem fe d then fe else Dict.set fe d []) d [] = Dict.get fe d [].
Proof.
  unfold Dict.mem, Dict.get. destruct (Dict.lookup fe d) eqn:E.
  - now rewrite E.
  - now rewrite lookup_set_eq.
Qed.

Lemma lookup_collect_same quarter fe e :
  survives quarter e = true ->
  Dict.lookup (collect_entry quarter fe e) (default "" (e_end e))
  = Some (Dict.get fe (default "" (e_end e)) [] ++ [filing e]).
Proof.
  intros Hs. rewrite collect_entry_survives, Hs. cbv zeta.
  now rewrite lookup_set_eq, get_after_touch.
Qed.

Lemma lookup_collect_other quarter fe e d :
  default "" (e_end e) <> d ->
  Dict.lookup (collect_entry quarter fe e) d = Dict.lookup fe d.
Proof.
  intros Hne. rewrite collect_entry_survives.
  destruct (survives quarter e); [|reflexivity]. cbv zeta.
  rewrite lookup_set_ne by assumption.
  destruct (Dict.mem fe (default "" (e_end e))); [reflexivity|].
  now rewrite lookup_set_ne.
Qed.

Lemma collect_entry_NoDup quarter fe e :
  NoDup (Dict.keys fe) -> NoDup (Dict.keys (collect_entry quarter fe e)).
Proof.
  intros Hnd. rewrite collect_entry_survives.
  destruct (survives quarter e); [|assumption]. cbv zeta.
  apply keys_set_NoDup. destruct (Dict.mem fe (default "" (e_end e))); [assumption|].
  now apply keys_set_NoDup.
Qed.

Lemma collect_fold_NoDup quarter es fe :
  NoDup (Dict.keys fe) -> NoDup (Dict.keys (fold_left (collect_entry quarter) es fe)).
Proof.
  revert fe. induction es as [|e es IH]; intros fe Hnd; simpl; [assumption|].
  apply IH. now apply collect_entry_NoDup.
Qed.

Lemma group_cons quarter d e es :
  group quarter d (e :: es) =
    if decide (survives quarter e = true /\ default "" (e_end e) = d)
    then filing e :: group quarter d es else group quarter d es.
Proof. unfold group. rewrite filter_cons. now destruct (decide _). Qed.

(** After the loop, the group of an end date holds what it held before,
    followed by the pairs of the surviving entries of that date, in order. *)
Lemma lookup_collect_fold quarter es fe d :
  Dict.lookup (fold_left (collect_entry quarter) es fe) d =
    match group quarter d es with
    | [] => Dict.lookup fe d
    | g => Some (Dict.get fe d [] ++ g)
    end.
Proof.
  revert fe. induction es as [|e es IH]; intros fe; simpl; [reflexivity|].
  rewrite IH, group_cons. destruct (decide _) as [[Hs Hd] | Hno].
  - subst d. unfold Dict.get at 1. rewrite (lookup_collect_same _ _ _ Hs).
    destruct (group quarter _ es) as [|x g]; [reflexivity|].
    now rewrite <- app_assoc.
  - assert (Dict.lookup (collect_entry quarter fe e) d = Dict.lookup fe d) as Heq.
    { rewrite collect_entry_survives. destruct (survives quarter e) eqn:Hs; [|reflexivity].
      rewrite <- (lookup_collect_other quarter fe e d); [|intros ?; apply Hno; tauto].
      now rewrite collect_entry_survives, Hs. }
    unfold Dict.get. now rewrite Heq.
Qed.

(** ** The sort of a group *)

Lemma insert_desc_not_nil x l : insert_desc x l <> [].
Proof. destruct l; simpl; [|destruct (String.ltb _ _)]; discriminate. Qed.

Lemma sort_desc_nil_inv g : sort_desc g = [] -> g = [].
Proof. destruct g; simpl; [reflexivity|]. intros H. now apply insert_desc_not_nil in H. Qed.

(** The head of the sorted group is the first pair of the group, in the order
    of the group, among those with the greatest key. *)
Lemma sort_desc_head g x rest :
  sort_desc g = x :: rest ->
  exists g1 g2, g = g1 ++ x :: g2
    /\ (forall y, y ∈ g1 -> String.ltb (fst y) (fst x) = true)
    /\ (forall y, y ∈ g2 -> String.leb (fst y) (fst x) = true).
Proof.
  revert x rest. induction g as [|a g IH]; intros x rest; simpl; [discriminate|].
  destruct (sort_desc g) as [|y r] eqn:Hs; simpl.
  - intros [= <- <-]. apply sort_desc_nil_inv in Hs. subst g.
    exists [], []. repeat split; intros y Hy; now apply elem_of_nil in Hy.
  - destruct (IH y r eq_refl) as (g1 & g2 & -> & Hlt & Hle).
    destruct (String.ltb (fst a) (fst y)) eqn:Hay.
    + intros [= <- <-]. exists (a :: g1), g2. repeat split; [|assumption].
      intros z Hz. apply elem_of_cons in Hz as [-> | Hz]; auto.
    + intros [= <- <-]. exists [], (g1 ++ y :: g2). repeat split.
      * intros z Hz. now apply elem_of_nil in Hz.
      * apply ltb_false_leb in Hay.
        intros z Hz. apply elem_of_app in Hz as [Hz | Hz].
        -- apply leb_trans with (fst y); [|assumption]. apply ltb_true_leb. auto.
        -- apply elem_of_cons in Hz as [-> | Hz]; [assumption|].
           apply leb_trans with (fst y); auto.
Qed.

(** ** The deduplication *)

Lemma lookup_deduplicate fe fd d :
  NoDup (Dict.keys fe) ->
  Dict.lookup (deduplicate fd fe) d =
    match Dict.lookup fe d with
    | Some g =>
        match sort_desc g with
        | (_, v) :: _ => Some v
        | [] => Dict.lookup fd d
        end
    | None => Dict.lookup fd d
    end.
Proof.
  unfold deduplicate, Dict.keys.
  revert fd. induction fe as [|[d0 g0] fe IH]; intros fd Hnd; simpl; [reflexivity|].
  apply NoDup_cons in Hnd as [Hd0 Hnd]. simpl in Hd0. rewrite IH by assumption.
  destruct (String.eqb d0 d) eqn:E.
  - apply String.eqb_eq in E. subst d0.
    apply lookup_None_keys in Hd0. rewrite Hd0.
    destruct (sort_desc g0) as [|[k v] r]; [reflexivity|]. apply lookup_set_eq.
  - apply String.eqb_neq in E.
    assert (Dict.lookup
              (match sort_desc g0 with
               | [] => fd
               | (_, v) :: _ => Dict.set fd d0 v
               end) d = Dict.lookup fd d) as ->.
    { destruct (sort_desc g0) as [|[k v] r]; [reflexivity|]. now apply lookup_set_ne. }
    reflexivity.
Qed.

Lemma deduplicate_NoDup fe fd :
  NoDup (Dict.keys fd) -> NoDup (Dict.keys (deduplicate fd fe)).
Proof.
  unfold deduplicate. revert fd. induction fe as [|[d0 g0] fe IH]; intros fd Hnd; simpl.
  - assumption.
  - apply IH. destruct (sort_desc g0) as [|[k v] r]; [assumption|].
    now apply keys_set_NoDup.
Qed.

(** The value resolved for a period is the value of the head of the sorted
    group of that period; a period without surviving entry has no value. *)
Lemma lookup_resolve_entries quarter es d :
  Dict.lookup (resolve_entries quarter es) d = snd <$> head (sort_desc (group quarter d es)).
Proof.
  unfold resolve_entries. rewrite lookup_deduplicate.
  2:{ apply collect_fold_NoDup. apply NoDup_nil_2. }
  rewrite lookup_collect_fold. simpl.
  destruct (group quarter d es) as [|x g] eqn:Hg; [reflexivity|].
  destruct (sort_desc (x :: g)) as [|[k v] r] eqn:Hs; [|reflexivity].
  now apply sort_desc_nil_inv in Hs.
Qed.

Lemma resolve_entries_NoDup quarter es : NoDup (Dict.keys (resolve_entries quarter es)).
Proof. apply deduplicate_NoDup. apply NoDup_nil_2. Qed.

Lemma group_elem quarter d es x :
  x ∈ group quarter d es <->
  exists e, e ∈ es /\ survives quarter e = true /\ default "" (e_end e) = d /\ x = filing e.
Proof.
  unfold group. rewrite list_elem_of_fmap. split.
  - intros (e & -> & He). apply list_elem_of_filter in He as [[Hs Hd] He]. eauto.
  - intros (e & He & Hs & Hd & ->). exists e. split; [reflexivity|].
    apply list_elem_of_filter. auto.
Qed.

(** The keys of the resolved series are the end dates of the surviving
    entries. *)
Lemma resolve_entries_keys quarter es d :
  d ∈ Dict.keys (resolve_entries quarter es) <->
  exists e, e ∈ es /\ survives quarter e = true /\ default "" (e_end e) = d.
Proof.
  split.
  - intros H. apply keys_lookup in H as [v Hv].
    rewrite lookup_resolve_entries in Hv.
    destruct (sort_desc (group quarter d es)) as [|x r] eqn:Hs; [discriminate|].
    apply sort_desc_head in Hs as (g1 & g2 & Hg & _).
    assert (x ∈ group quarter d es) as Hx.
    { rewrite Hg. apply elem_of_app. right. apply elem_of_cons. now left. }
    apply group_elem in Hx as (e & ? & ? & ? & _). eauto.
  - intros (e & He & Hs & Hd).
    assert (filing e ∈ group quarter d es) as Hx by (apply group_elem; eauto).
    destruct (Dict.lookup (resolve_entries quarter es) d) as [v|] eqn:Hv.
    + eapply lookup_Some_keys; eauto.
    + rewrite lookup_resolve_entries in Hv.
      destruct (sort_desc (group quarter d es)) as [|x r] eqn:Hsd; [|discriminate].
      apply sort_desc_nil_inv in Hsd. rewrite Hsd in Hx. now apply elem_of_nil in Hx.
Qed.

(** A series is determined by its lookups when keys are not repeated; in
    particular it is empty when no date has a value. *)
Lemma dict_nil_lookup {V} (d : list (string * V)) :
  (forall k, Dict.lookup d k = None) -> d = [].
Proof.
  destruct d as [|[k v] d]; [reflexivity|]. intros H. specialize (H k).
  simpl in H. now rewrite String.eqb_refl in H.
Qed.

Lemma resolve_entries_nil quarter es :
  resolve_entries quarter es = [] <-> forall e, e ∈ es -> survives quarter e = false.
Proof.
  split.
  - intros Hnil e He. destruct (survives quarter e) eqn:Hs; [|reflexivity].
    assert (default "" (e_end e) ∈ Dict.keys (resolve_entries quarter es)) as Hk.
    { apply resolve_entries_keys. eauto. }
    rewrite Hnil in Hk. now apply elem_of_nil in Hk.
  - intros Hall. apply dict_nil_lookup. intros k.
    destruct (Dict.lookup (resolve_entries quarter es) k) eqn:E; [|reflexivity].
    apply lookup_Some_keys, resolve_entries_keys in E as (e & He & Hs & _).
    rewrite (Hall e He) in Hs. discriminate.
Qed.

(** ** The loop over the synonyms of a field *)

Lemma try_concepts_cons us_gaap quarter c rest :
  try_concepts us_gaap quarter (c :: rest) [] =
    match concept_fragment us_gaap quarter c with
    | [] => try_concepts us_gaap quarter rest []
    | fd => fd
    end.
Proof.
  unfold concept_fragment, selected_entries, resolve_entries. cbn [try_concepts].
  destruct (us_gaap !! c) as [cd|]; [|reflexivity]. cbv zeta.
  destruct (select_unit unit_priority (default ∅ (c_units cd))) as [k|]; [|reflexivity].
  destruct (deduplicate [] _); reflexivity.
Qed.

Lemma try_concepts_skip us_gaap quarter pre rest :
  (forall c, c ∈ pre -> concept_fragment us_gaap quarter c = []) ->
  try_concepts us_gaap quarter (pre ++ rest) [] = try_concepts us_gaap quarter rest [].
Proof.
  induction pre as [|c pre IH]; intros Hpre; [reflexivity|].
  rewrite <- app_comm_cons, try_concepts_cons.
  rewrite (Hpre c) by (apply elem_of_cons; now left).
  apply IH. intros c' Hc'. apply Hpre. apply elem_of_cons. now right.
Qed.

Lemma try_concepts_all_empty us_gaap quarter names :
  (forall c, c ∈ names -> concept_fragment us_gaap quarter c = []) ->
  try_concepts us_gaap quarter names [] = [].
Proof.
  intros H. rewrite <- (app_nil_r names). now rewrite try_concepts_skip.
Qed.

(** The series of a field is empty or is the fragment of one synonym. *)
Lemma try_concepts_cases us_gaap quarter names :
  try_concepts us_gaap quarter names [] = [] \/
  exists c, c ∈ names /\ concept_fragment us_gaap quarter c <> []
    /\ try_concepts us_gaap quarter names [] = concept_fragment us_gaap quarter c.
Proof.
  induction names as [|c names IH]; [now left|].
  rewrite try_concepts_cons.
  destruct (concept_fragment us_gaap quarter c) as [|x fd] eqn:E.
  - destruct IH as [IH | (c' & Hc' & Hne & IH)]; [now left|].
    right. exists c'. split; [apply elem_of_cons; now right|]. auto.
  - right. exists c. split; [apply elem_of_cons; now left|].
    rewrite E. split; [discriminate | reflexivity].
Qed.

(** ** The loop over the fields *)

Lemma extract_items_fmap f mapping quarter :
  NoDup (mapping.*1) ->
  _extract_financial_items f mapping quarter =
    (fun '(field_name, concept_names) =>
       (field_name, try_concepts (us_gaap_of f) quarter concept_names [])) <$> mapping.
Proof.
  intros Hnd. unfold _extract_financial_items.
  change (default ∅ (default ∅ (f_facts f) !! "us-gaap")) with (us_gaap_of f).
  rewrite (fold_set_fmap (fun names => try_concepts (us_gaap_of f) quarter names [])
             mapping [] Hnd).
  - reflexivity.
  - intros k _. apply not_elem_of_nil.
Qed.

Lemma extract_items_keys f mapping quarter :
  NoDup (mapping.*1) ->
  Dict.keys (_extract_financial_items f mapping quarter) = mapping.*1.
Proof.
  intros Hnd. rewrite extract_items_fmap by assumption.
  unfold Dict.keys. rewrite <- list_fmap_compose.
  apply list_fmap_ext. now intros i [k x].
Qed.

Lemma extract_items_lookup f mapping quarter field names :
  NoDup (mapping.*1) -> (field, names) ∈ mapping ->
  Dict.lookup (_extract_financial_items f mapping quarter) field
  = Some (try_concepts (us_gaap_of f) quarter names []).
Proof.
  intros Hnd Hin. apply elem_lookup.
  - now rewrite extract_items_keys.
  - rewrite extract_items_fmap by assumption.
    apply list_elem_of_fmap. now exists (field, names).
Qed.

Lemma fold_set_lookup_inv {A V : Type} (g : A -> V) (l : list (string * A)) acc k v :
  Dict.lookup (fold_left (fun r '(k, x) => Dict.set r k (g x)) l acc) k = Some v ->
  Dict.lookup acc k = Some v \/ exists x, (k, x) ∈ l /\ v = g x.
Proof.
  revert acc. induction l as [|[k0 x0] l IH]; intros acc; simpl; [now left|].
  intros H. apply IH in H as [H | (x & Hx & ->)].
  - destruct (decide (k0 = k)) as [-> | Hne].
    + rewrite lookup_set_eq in H. injection H as <-.
      right. exists x0. split; [apply elem_of_cons; now left | reflexivity].
    + rewrite lookup_set_ne in H by assumption. now left.
  - right. exists x. split; [apply elem_of_cons; now right | reflexivity].
Qed.

(** Whatever the mapping, the series of a field is the outcome of the loop over
    one of the synonym lists declared for it. *)
Lemma extract_items_lookup_inv f mapping quarter field series :
  Dict.lookup (_extract_financial_items f mapping quarter) field = Some series ->
  exists names, (field, names) ∈ mapping
    /\ series = try_concepts (us_gaap_of f) quarter names [].
Proof.
  unfold _extract_financial_items.
  change (default ∅ (default ∅ (f_facts f) !! "us-gaap")) with (us_gaap_of f).
  intros H.
  apply (fold_set_lookup_inv (fun names => try_concepts (us_gaap_of f) quarter names []))
    in H as [H | H]; [discriminate | exact H].
Qed.

(** ** The unit of a concept *)

Lemma select_unit_spec keys (units : gmap string (list entry)) :
  match select_unit keys units with
  | Some k =>
      exists pre post, keys = pre ++ k :: post
        /\ (forall k', k' ∈ pre -> units !! k' = None)
        /\ is_Some (units !! k)
  | None => forall k, k ∈ keys -> units !! k = None
  end.
Proof.
  induction keys as [|key keys IH]; simpl.
  - intros k Hk. now apply elem_of_nil in Hk.
  - destruct (units !! key) as [es|] eqn:E.
    + exists [], keys. split; [reflexivity|]. split; [|rewrite E; eauto].
      intros k' Hk'. now apply elem_of_nil in Hk'.
    + destruct (select_unit keys units) as [k|].
      * destruct IH as (pre & post & -> & Hpre & Hk).
        exists (key :: pre), post. split; [reflexivity|]. split; [|assumption].
        intros k' Hk'. apply elem_of_cons in Hk' as [-> | Hk']; auto.
      * intros k Hk. apply elem_of_cons in Hk as [-> | Hk]; auto.
Qed.

(** ** Claims on the resolution of a field *)

(** C1. The synonyms of a field are tried in declaration order. A synonym that
    is absent from the facts, or whose fragment is empty, is passed over; the
    first synonym with a non-empty fragment gives the whole series of the
    field, whatever the later synonyms hold. *)
Theorem first_synonym_wins (f : facts) (mapping : list (string * list string))
    (quarter : bool) (field : string) (pre : list string) (c : string)
    (post : list string) :
  NoDup (mapping.*1) ->
  (field, pre ++ c :: post) ∈ mapping ->
  (forall c', c' ∈ pre ->
     us_gaap_of f !! c' = None \/ concept_fragment (us_gaap_of f) quarter c' = []) ->
  concept_fragment (us_gaap_of f) quarter c <> [] ->
  Dict.lookup (_extract_financial_items f mapping quarter) field
  = Some (concept_fragment (us_gaap_of f) quarter c).
Proof.
  intros Hnd Hin Hpre Hc.
  rewrite (extract_items_lookup _ _ _ _ _ Hnd Hin). f_equal.
  rewrite try_concepts_skip.
  - rewrite try_concepts_cons.
    destruct (concept_fragment (us_gaap_of f) quarter c); [contradiction | reflexivity].
  - intros c' Hc'. destruct (Hpre c' Hc') as [Habs | Hnil]; [|assumption].
    unfold concept_fragment, selected_entries. now rewrite Habs.
Qed.

Lemma first_synonym_wins_witness :
  Dict.lookup (_extract_financial_items revenue_facts INCOME_CONCEPTS false) "Revenues"
  = Some [("2020-09-26", 274515000000)].
Proof.
  apply (first_synonym_wins revenue_facts INCOME_CONCEPTS false "Revenues"
           ["Revenues"] "RevenueFromContractWithCustomerExcludingAssessedTax"
           [ "RevenueFromContractWithCustomerIncludingAssessedTax";
             "SalesRevenueNet"; "SalesRevenueGoodsNet"; "SalesRevenueServicesNet";
             "RevenueNet" ]).
  - apply (bool_decide_unpack _). vm_compute. reflexivity.
  - apply (bool_decide_unpack _). vm_compute. reflexivity.
  - intros c' Hc'. apply list_elem_of_singleton in Hc'. subst c'. right.
    vm_compute. reflexivity.
  - vm_compute. discriminate.
Defined.

(** C2. Among the surviving observations of one end date, the one filed last
    (greatest [filed] string) gives the value of the period: the winner has
    the greatest date of its group and, among equal dates, is the first of
    the input. The value does not depend on the order of the input as soon as
    the observations filed last agree on it, as when only one was filed
    last. *)
Theorem latest_filing_wins (quarter : bool) (entries : list entry) (end_date : string) :
  group quarter end_date entries <> [] ->
  exists w g1 g2,
    group quarter end_date entries = g1 ++ w :: g2
    /\ (forall o, o ∈ g1 -> String.ltb (fst o) (fst w) = true)
    /\ (forall o, o ∈ g2 -> String.leb (fst o) (fst w) = true)
    /\ Dict.lookup (resolve_entries quarter entries) end_date = Some (snd w)
    /\ forall entries',
         entries' ≡ₚ entries ->
         (forall o, o ∈ group quarter end_date entries -> fst o = fst w -> snd o = snd w) ->
         Dict.lookup (resolve_entries quarter entries') end_date = Some (snd w).
Proof.
  intros Hne.
  destruct (sort_desc (group quarter end_date entries)) as [|w r] eqn:Hs.
  { now apply sort_desc_nil_inv in Hs. }
  destruct (sort_desc_head _ _ _ Hs) as (g1 & g2 & Hg & Hlt & Hle).
  exists w, g1, g2. split; [assumption|]. split; [assumption|]. split; [assumption|].
  split.
  { rewrite lookup_resolve_entries, Hs. reflexivity. }
  intros entries' Hperm Hties.
  assert (group quarter end_date entries' ≡ₚ group quarter end_date entries) as Hgperm.
  { unfold group. now rewrite Hperm. }
  rewrite lookup_resolve_entries.
  destruct (sort_desc (group quarter end_date entries')) as [|w' r'] eqn:Hs'.
  { apply sort_desc_nil_inv in Hs'. rewrite Hs' in Hgperm.
    symmetry in Hgperm. apply Permutation_nil_r in Hgperm. contradiction. }
  simpl. f_equal.
  destruct (sort_desc_head _ _ _ Hs') as (h1 & h2 & Hg' & Hlt' & Hle').
  assert (forall o, o ∈ group quarter end_date entries ->
            String.leb (fst o) (fst w) = true) as Hmax.
  { intros o Ho. rewrite Hg in Ho.
    apply elem_of_app in Ho as [Ho | Ho]; [apply ltb_true_leb; auto|].
    apply elem_of_cons in Ho as [-> | Ho]; [apply leb_refl | auto]. }
  assert (forall o, o ∈ group quarter end_date entries' ->
            String.leb (fst o) (fst w') = true) as Hmax'.
  { intros o Ho. rewrite Hg' in Ho.
    apply elem_of_app in Ho as [Ho | Ho]; [apply ltb_true_leb; auto|].
    apply elem_of_cons in Ho as [-> | Ho]; [apply leb_refl | auto]. }
  assert (w' ∈ group quarter end_date entries) as Hw'.
  { rewrite <- Hgperm, Hg'. apply elem_of_app. right. apply elem_of_cons. now left. }
  assert (w ∈ group quarter end_date entries') as Hw.
  { rewrite Hgperm, Hg. apply elem_of_app. right. apply elem_of_cons. now left. }
  apply Hties; [assumption|].
  apply leb_antisym_eq; auto.
Qed.

Lemma latest_filing_wins_witness :
  Dict.lookup (resolve_entries false [assets_early; assets_late]) "2023-09-30"
    = Some 352583000000
  /\ Dict.lookup (resolve_entries false [assets_late; assets_early]) "2023-09-30"
    = Some 352583000000.
Proof.
  assert (group false "2023-09-30" [assets_late; assets_early] <> []) as Hne.
  { vm_compute. discriminate. }
  destruct (latest_filing_wins false [assets_late; assets_early] "2023-09-30" Hne)
    as (w & g1 & g2 & Hg & Hlt & Hle & Hval & Hperm).
  assert (w = ("2023-11-03", 352583000000)) as ->.
  { vm_compute in Hval. injection Hval as Hv.
    vm_compute in Hg. destruct g1 as [|x [|y g1]].
    - injection Hg as <- _. reflexivity.
    - injection Hg as <- <- _.
      specialize (Hlt _ (list_elem_of_here _ _)). vm_compute in Hlt. discriminate.
    - destruct g1; discriminate. }
  split; [|exact Hval].
  apply Hperm.
  - apply Permutation_swap.
  - intros o Ho Hfst. vm_compute in Ho.
    apply elem_of_cons in Ho as [-> | Ho]; [reflexivity|].
    apply list_elem_of_singleton in Ho. subst o. discriminate.
Defined.

(** The loop over the synonyms reads the facts through the fragments of the
    concepts only. *)
Lemma try_concepts_fragments us_gaap us_gaap' quarter names :
  (forall c, c ∈ names ->
     concept_fragment us_gaap' quarter c = concept_fragment us_gaap quarter c) ->
  try_concepts us_gaap' quarter names [] = try_concepts us_gaap quarter names [].
Proof.
  induction names as [|c names IH]; intros Hfrag; [reflexivity|].
  rewrite (try_concepts_cons us_gaap'), (try_concepts_cons us_gaap).
  rewrite (Hfrag c) by (apply elem_of_cons; now left).
  rewrite IH; [reflexivity|].
  intros c' Hc'. apply Hfrag. apply elem_of_cons. now right.
Qed.

Lemma extract_items_fragments f f' mapping quarter :
  (forall c, concept_fragment (us_gaap_of f') quarter c
             = concept_fragment (us_gaap_of f) quarter c) ->
  _extract_financial_items f' mapping quarter = _extract_financial_items f mapping quarter.
Proof.
  intros Hfrag. unfold _extract_financial_items.
  change (default ∅ (default ∅ (f_facts f) !! "us-gaap")) with (us_gaap_of f).
  change (default ∅ (default ∅ (f_facts f') !! "us-gaap")) with (us_gaap_of f').
  generalize (@nil (string * list (string * Z))).
  induction mapping as [|[field names] mapping IH]; intros acc; [reflexivity|].
  cbn [fold_left].
  rewrite (try_concepts_fragments (us_gaap_of f) (us_gaap_of f') quarter names)
    by (intros c _; apply Hfrag).
  apply IH.
Qed.

Lemma select_unit_first pre k post (units : gmap string (list entry)) :
  (forall k', k' ∈ pre -> units !! k' = None) -> is_Some (units !! k) ->
  select_unit (pre ++ k :: post) units = Some k.
Proof.
  intros Hpre [es Hk]. induction pre as [|k0 pre IH]; simpl.
  - now rewrite Hk.
  - rewrite (Hpre k0) by (apply elem_of_cons; now left).
    apply IH. intros k' Hk'. apply Hpre. apply elem_of_cons. now right.
Qed.

(** C5. For a concept, the first label of the priority list that the units
    hold is selected. The loop over the synonyms takes the series of the
    concept from the observations of that unit alone: when the series is not
    empty it is the series of the field, and the extraction is the same for
    the facts in which the concept has any other units beside, as long as
    none of them has a label of higher priority. When none of the four
    labels is held the loop goes to the next synonym. *)
Theorem unit_priority_selection (us_gaap : gmap string concept_data) (quarter : bool)
    (c : string) (concept : concept_data) :
  us_gaap !! c = Some concept ->
  match select_unit ["USD"; "USD/shares"; "shares"; "pure"] (default ∅ (c_units concept)) with
  | Some unit_key =>
      exists pre post entries,
        ["USD"; "USD/shares"; "shares"; "pure"] = pre ++ unit_key :: post
        /\ (forall k, k ∈ pre -> default ∅ (c_units concept) !! k = None)
        /\ default ∅ (c_units concept) !! unit_key = Some entries
        /\ (forall rest,
              try_concepts us_gaap quarter (c :: rest) [] =
                match deduplicate [] (fold_left (collect_entry quarter) entries []) with
                | [] => try_concepts us_gaap quarter rest []
                | field_data => field_data
                end)
        /\ (forall f mapping field rest,
              us_gaap_of f = us_gaap ->
              NoDup (mapping.*1) -> (field, c :: rest) ∈ mapping ->
              Dict.lookup (_extract_financial_items f mapping quarter) field =
                Some match deduplicate [] (fold_left (collect_entry quarter) entries []) with
                     | [] => try_concepts us_gaap quarter rest []
                     | field_data => field_data
                     end)
        /\ (forall f f' mapping (units' : gmap string (list entry)),
              us_gaap_of f = us_gaap ->
              us_gaap_of f' = <[c := ConceptData (Some units')]> us_gaap ->
              units' !! unit_key = Some entries ->
              (forall k, k ∈ pre -> units' !! k = None) ->
              _extract_financial_items f' mapping quarter
              = _extract_financial_items f mapping quarter)
  | None =>
      (forall k, k ∈ ["USD"; "USD/shares"; "shares"; "pure"] ->
         default ∅ (c_units concept) !! k = None)
      /\ (forall rest,
            try_concepts us_gaap quarter (c :: rest) []
            = try_concepts us_gaap quarter rest [])
      /\ (forall f mapping field rest,
            us_gaap_of f = us_gaap ->
            NoDup (mapping.*1) -> (field, c :: rest) ∈ mapping ->
            Dict.lookup (_extract_financial_items f mapping quarter) field
            = Some (try_concepts us_gaap quarter rest []))
  end.
Proof.
  intros Hc.
  pose proof (select_unit_spec unit_priority (default ∅ (c_units concept))) as Hspec.
  assert (concept_fragment us_gaap quarter c =
          match select_unit unit_priority (default ∅ (c_units concept)) with
          | Some k => resolve_entries quarter (default [] (default ∅ (c_units concept) !! k))
          | None => []
          end) as Hfrag.
  { unfold concept_fragment, selected_entries. rewrite Hc. cbv zeta.
    now destruct (select_unit unit_priority _). }
  change ["USD"; "USD/shares"; "shares"; "pure"] with unit_priority.
  destruct (select_unit unit_priority (default ∅ (c_units concept))) as [k|].
  - destruct Hspec as (pre & post & Hsplit & Hpre & [entries Hk]).
    rewrite Hk in Hfrag. cbn [default from_option id] in Hfrag.
    assert (forall rest,
              try_concepts us_gaap quarter (c :: rest) [] =
                match deduplicate [] (fold_left (collect_entry quarter) entries []) with
                | [] => try_concepts us_gaap quarter rest []
                | field_data => field_data
                end) as Htry.
    { intros rest. rewrite try_concepts_cons, Hfrag. reflexivity. }
    exists pre, post, entries.
    split; [assumption|]. split; [assumption|]. split; [assumption|].
    split; [assumption|]. split.
    + intros f mapping field rest Hf Hnd Hin.
      rewrite (extract_items_lookup _ _ _ _ _ Hnd Hin), Hf. f_equal. apply Htry.
    + intros f f' mapping units' Hf Hf' Hk' Hpre'.
      apply extract_items_fragments. intros c'. rewrite Hf, Hf'.
      destruct (decide (c' = c)) as [-> | Hne].
      * rewrite Hfrag. unfold concept_fragment, selected_entries.
        rewrite lookup_insert_eq. cbn [c_units default from_option id].
        rewrite Hsplit, (select_unit_first pre k post units' Hpre') by (rewrite Hk'; eauto).
        now rewrite Hk'.
      * unfold concept_fragment, selected_entries.
        now rewrite lookup_insert_ne by congruence.
  - assert (forall rest,
              try_concepts us_gaap quarter (c :: rest) []
              = try_concepts us_gaap quarter rest []) as Htry.
    { intros rest. rewrite try_concepts_cons, Hfrag. reflexivity. }
    split; [assumption|]. split; [assumption|].
    intros f mapping field rest Hf Hnd Hin.
    rewrite (extract_items_lookup _ _ _ _ _ Hnd Hin), Hf. f_equal. apply Htry.
Qed.

Lemma unit_priority_selection_witness :
  Dict.lookup
    (_extract_financial_items two_unit_facts [("SharesOutstanding", ["Shares"])] false)
    "SharesOutstanding"
  = Some [("2022-12-31", 5000000)].
Proof.
  pose proof (unit_priority_selection {[ "Shares" := two_unit_concept ]} false
                "Shares" two_unit_concept (lookup_singleton_eq _ _)) as H.
  destruct (select_unit _ _) as [k|] eqn:Hsel; [|vm_compute in Hsel; discriminate].
  destruct H as (pre & post & entries & _ & _ & Hk & _ & Hitems & _).
  vm_compute in Hsel. injection Hsel as <-.
  vm_compute in Hk. injection Hk as <-.
  rewrite (Hitems two_unit_facts [("SharesOutstanding", ["Shares"])]
             "SharesOutstanding" []).
  - vm_compute. reflexivity.
  - vm_compute. reflexivity.
  - apply (bool_decide_unpack _). vm_compute. reflexivity.
  - apply list_elem_of_singleton. reflexivity.
Defined.

(** ** Claims on the filters of the entry loop *)

Lemma collect_entry_dropped quarter fe e :
  survives quarter e = false -> collect_entry quarter fe e = fe.
Proof. intros H. now rewrite collect_entry_survives, H. Qed.

Lemma resolve_entries_drop quarter es1 e es2 :
  survives quarter e = false ->
  resolve_entries quarter (es1 ++ e :: es2) = resolve_entries quarter (es1 ++ es2).
Proof.
  intros H. unfold resolve_entries. rewrite !fold_left_app. simpl.
  now rewrite (collect_entry_dropped _ _ _ H).
Qed.

Lemma resolve_entries_kept quarter es1 e es2 :
  survives quarter e = true ->
  default "" (e_end e) ∈ Dict.keys (resolve_entries quarter (es1 ++ e :: es2)).
Proof.
  intros H. apply resolve_entries_keys. exists e. split; [|auto].
  apply elem_of_app. right. apply elem_of_cons. now left.
Qed.

Lemma truthy_ne s : s <> "" -> truthy s = true.
Proof. intros H. unfold truthy. apply String.eqb_neq in H. now rewrite H. Qed.

Lemma truthy_empty : truthy "" = false.
Proof. reflexivity. Qed.

Lemma survives_end quarter e :
  survives quarter e = true -> exists d, e_end e = Some d /\ d <> "".
Proof.
  unfold survives. intros Hs.
  apply andb_true_iff in Hs as [Hs _]. apply andb_true_iff in Hs as [_ Hs].
  destruct (e_end e) as [d|]; simpl in Hs; [|discriminate].
  exists d. split; [reflexivity|]. intros ->. discriminate.
Qed.

(** Every date of every resolved series is the end date of a surviving entry
    of the unit selected for one synonym of the field. *)
Lemma series_key_origin f mapping quarter field series d :
  Dict.lookup (_extract_financial_items f mapping quarter) field = Some series ->
  d ∈ Dict.keys series ->
  exists names c entries e,
    (field, names) ∈ mapping /\ c ∈ names
    /\ selected_entries (us_gaap_of f) c = Some entries
    /\ e ∈ entries /\ survives quarter e = true /\ default "" (e_end e) = d.
Proof.
  intros Hl Hd. apply extract_items_lookup_inv in Hl as (names & Hin & ->).
  destruct (try_concepts_cases (us_gaap_of f) quarter names) as [Hnil | (c & Hc & _ & Heq)].
  - rewrite Hnil in Hd. now apply elem_of_nil in Hd.
  - rewrite Heq in Hd. unfold concept_fragment in Hd.
    destruct (selected_entries (us_gaap_of f) c) as [entries|] eqn:Hsel.
    + apply resolve_entries_keys in Hd as (e & He & Hs & Hend).
      exists names, c, entries, e. auto 10.
    + now apply elem_of_nil in Hd.
Qed.

(** C3. In annual mode an observation that passed the form filter and whose
    start and end dates both parse is discarded when end minus start is below
    350 days, also when it is alone in its period; it is kept when the
    duration is 350 days or more, when the start date is missing, and when a
    date does not parse. In quarterly mode the duration is not looked at. *)
Theorem duration_reclassification (quarter : bool) (e : entry) :
  default "" (e_form e) = form_filter quarter ->
  default "" (e_end e) <> "" ->
  let start_date := default "" (e_start e) in
  let end_date := default "" (e_end e) in
  let discarded :=
    (forall fe, collect_entry quarter fe e = fe)
    /\ (forall es1 es2,
          resolve_entries quarter (es1 ++ e :: es2) = resolve_entries quarter (es1 ++ es2))
    /\ (forall es1 es2,
          (forall e', e' ∈ es1 ++ es2 -> default "" (e_end e') <> end_date) ->
          end_date ∉ Dict.keys (resolve_entries quarter (es1 ++ e :: es2))) in
  let kept :=
    (forall fe,
        Dict.lookup (collect_entry quarter fe e) end_date
        = Some (Dict.get fe end_date [] ++ [filing e]))
    /\ (forall es1 es2, end_date ∈ Dict.keys (resolve_entries quarter (es1 ++ e :: es2))) in
  (quarter = false ->
     forall start_dt end_dt,
       Datetime.strptime start_date = Some start_dt ->
       Datetime.strptime end_date = Some end_dt ->
       (Datetime.days_between end_dt start_dt < 350 -> discarded)
       /\ (350 <= Datetime.days_between end_dt start_dt -> kept))
  /\ (quarter = false ->
        e_start e = None \/ Datetime.strptime start_date = None
          \/ Datetime.strptime end_date = None ->
        kept)
  /\ (quarter = true -> kept).
Proof.
  intros Hform Hend start_date end_date discarded kept.
  assert (survives quarter e = true -> kept) as Hkept.
  { intros Hs. split.
    - intros fe. now apply lookup_collect_same.
    - intros es1 es2. now apply resolve_entries_kept. }
  assert (survives quarter e = false -> discarded) as Hdisc.
  { intros Hs. split; [|split].
    - intros fe. now apply collect_entry_dropped.
    - intros es1 es2. now apply resolve_entries_drop.
    - intros es1 es2 Hother. rewrite resolve_entries_drop by assumption.
      intros Hk. apply resolve_entries_keys in Hk as (e' & He' & _ & Heq).
      now apply (Hother e'). }
  assert (survives quarter e =
          negb (negb quarter && truthy start_date && duration_below_350 start_date end_date))
    as Hsurv.
  { unfold survives. fold start_date end_date. rewrite Hform, String.eqb_refl.
    rewrite (truthy_ne end_date Hend). simpl. now rewrite andb_true_r. }
  split; [|split].
  - intros -> start_dt end_dt Hsd Hed.
    assert (truthy start_date = true) as Hts.
    { apply truthy_ne. intros Hemp. rewrite Hemp in Hsd. discriminate. }
    assert (duration_below_350 start_date end_date
            = (Datetime.days_between end_dt start_dt <? 350)) as Hdur.
    { unfold duration_below_350. now rewrite Hsd, Hed. }
    rewrite Hts, Hdur in Hsurv. simpl in Hsurv. split; intros Hlt.
    + apply Hdisc. rewrite Hsurv. apply negb_false_iff. now apply Z.ltb_lt.
    + apply Hkept. rewrite Hsurv. apply negb_true_iff. apply Z.ltb_ge. lia.
  - intros -> Hcase. apply Hkept. rewrite Hsurv. simpl.
    destruct Hcase as [Hnone | [Hs | He]].
    + unfold start_date. rewrite Hnone. reflexivity.
    + unfold duration_below_350. rewrite Hs. now rewrite andb_false_r.
    + unfold duration_below_350. rewrite He.
      destruct (Datetime.strptime start_date); now rewrite andb_false_r.
  - intros ->. apply Hkept. rewrite Hsurv. reflexivity.
Qed.

Lemma duration_reclassification_witness :
  resolve_entries false [half_year] = [] /\
  "2020-06-30" ∈ Dict.keys (resolve_entries false [no_start]).
Proof.
  split.
  - pose proof (duration_reclassification false half_year) as H.
    destruct H as (Hshort & _ & _); [reflexivity | discriminate |].
    destruct (Hshort eq_refl (2020, 1, 1) (2020, 6, 30) eq_refl eq_refl) as [Hd _].
    destruct Hd as (_ & Hdrop & _); [vm_compute; reflexivity|].
    exact (Hdrop [] []).
  - pose proof (duration_reclassification false no_start) as H.
    destruct H as (_ & Hlenient & _); [reflexivity | discriminate |].
    destruct (Hlenient eq_refl) as [_ Hk]; [left; reflexivity|].
    exact (Hk [] []).
Defined.

(** C4. An observation whose form is not exactly ["10-Q"] in quarterly mode,
    ["10-K"] in annual mode, is dropped; one with that form, an end date and
    no annual duration below 350 days is kept; so every date of a resolved
    series is the end date of an observation with exactly the requested
    form: a quarterly series only has dates of ["10-Q"] entries. *)
Theorem filing_type_filter (quarter : bool) :
  (forall e, e_form e <> Some (if quarter then "10-Q" else "10-K") ->
     (forall fe, collect_entry quarter fe e = fe)
     /\ (forall es1 es2,
           resolve_entries quarter (es1 ++ e :: es2) = resolve_entries quarter (es1 ++ es2)))
  /\ (forall e, e_form e = Some (if quarter then "10-Q" else "10-K") ->
        default "" (e_end e) <> "" ->
        quarter = true
          \/ duration_below_350 (default "" (e_start e)) (default "" (e_end e)) = false ->
        (forall fe,
            Dict.lookup (collect_entry quarter fe e) (default "" (e_end e))
            = Some (Dict.get fe (default "" (e_end e)) [] ++ [filing e]))
        /\ (forall es1 es2,
              default "" (e_end e) ∈ Dict.keys (resolve_entries quarter (es1 ++ e :: es2))))
  /\ (forall f mapping field series d,
        Dict.lookup (_extract_financial_items f mapping quarter) field = Some series ->
        d ∈ Dict.keys series ->
        exists names c entries e,
          (field, names) ∈ mapping /\ c ∈ names
          /\ selected_entries (us_gaap_of f) c = Some entries
          /\ e ∈ entries
          /\ e_form e = Some (if quarter then "10-Q" else "10-K")
          /\ e_end e = Some d).
Proof.
  change (if quarter then "10-Q" else "10-K") with (form_filter quarter).
  assert (forall e, survives quarter e = true -> e_form e = Some (form_filter quarter))
    as Hform.
  { intros e Hs. unfold survives in Hs.
    apply andb_true_iff in Hs as [Hs _]. apply andb_true_iff in Hs as [Hs _].
    apply String.eqb_eq in Hs. destruct (e_form e) as [form|]; simpl in Hs.
    - now subst.
    - destruct quarter; discriminate. }
  split; [|split].
  - intros e Hne.
    assert (survives quarter e = false) as Hs.
    { destruct (survives quarter e) eqn:Hs; [|reflexivity]. now apply Hform in Hs. }
    split.
    + intros fe. now apply collect_entry_dropped.
    + intros es1 es2. now apply resolve_entries_drop.
  - intros e He Hend Hdur.
    assert (survives quarter e = true) as Hs.
    { unfold survives. rewrite He. simpl. rewrite String.eqb_refl.
      rewrite (truthy_ne _ Hend). simpl.
      destruct Hdur as [-> | ->]; [reflexivity|]. now rewrite !andb_false_r. }
    split.
    + intros fe. now apply lookup_collect_same.
    + intros es1 es2. now apply resolve_entries_kept.
  - intros f mapping field series d Hl Hd.
    destruct (series_key_origin _ _ _ _ _ _ Hl Hd)
      as (names & c & entries & e & H1 & H2 & H3 & H4 & Hs & Hend).
    exists names, c, entries, e. repeat split; try assumption; [now apply Hform|].
    destruct (survives_end _ _ Hs) as (x & Hx & _). rewrite Hx in Hend |- *.
    simpl in Hend. now subst.
Qed.

Lemma filing_type_filter_witness :
  resolve_entries true
    [ obs None "2021-03-27" 1 "10-Q" "2021-04-29";
      obs None "2020-09-26" 2 "10-K" "2020-10-30";
      obs None "2020-12-26" 3 "10-q" "2021-01-28";
      obs None "2020-06-27" 4 "10-Q/A" "2020-08-15" ]
  = resolve_entries true [ obs None "2021-03-27" 1 "10-Q" "2021-04-29" ].
Proof.
  destruct (filing_type_filter true) as (Hdrop & _ & _).
  assert (forall (a b : string), String.eqb a b = false -> Some a <> Some b) as Hne.
  { intros a b E [= ->]. now rewrite String.eqb_refl in E. }
  destruct (Hdrop (obs None "2020-09-26" 2 "10-K" "2020-10-30")) as [_ H1];
    [now apply Hne|].
  destruct (Hdrop (obs None "2020-12-26" 3 "10-q" "2021-01-28")) as [_ H2];
    [now apply Hne|].
  destruct (Hdrop (obs None "2020-06-27" 4 "10-Q/A" "2020-08-15")) as [_ H3];
    [now apply Hne|].
  etransitivity;
    [exact (H1 [obs None "2021-03-27" 1 "10-Q" "2021-04-29"]
               [obs None "2020-12-26" 3 "10-q" "2021-01-28";
                obs None "2020-06-27" 4 "10-Q/A" "2020-08-15"])|].
  etransitivity;
    [exact (H2 [obs None "2021-03-27" 1 "10-Q" "2021-04-29"]
               [obs None "2020-06-27" 4 "10-Q/A" "2020-08-15"])|].
  exact (H3 [obs None "2021-03-27" 1 "10-Q" "2021-04-29"] []).
Defined.

(** C9. An observation whose end date is missing or empty is dropped in both
    modes, whatever its other fields; removing it from the input changes no
    resolved series, and no resolved series has the empty string as a
    date. *)
Theorem missing_end_date_dropped (quarter : bool) (e : entry) :
  e_end e = None \/ e_end e = Some "" ->
  (forall fe, collect_entry quarter fe e = fe)
  /\ (forall es1 es2,
        resolve_entries quarter (es1 ++ e :: es2) = resolve_entries quarter (es1 ++ es2))
  /\ (forall f mapping field series,
        Dict.lookup (_extract_financial_items f mapping quarter) field = Some series ->
        "" ∉ Dict.keys series).
Proof.
  intros Hend.
  assert (default "" (e_end e) = "") as Hemp by (destruct Hend as [-> | ->]; reflexivity).
  assert (survives quarter e = false) as Hs.
  { unfold survives. rewrite Hemp, truthy_empty. now rewrite andb_false_r. }
  split; [|split].
  - intros fe. now apply collect_entry_dropped.
  - intros es1 es2. now apply resolve_entries_drop.
  - intros f mapping field series Hl Hk.
    destruct (series_key_origin _ _ _ _ _ _ Hl Hk)
      as (_ & _ & _ & e' & _ & _ & _ & _ & Hs' & Hend').
    destruct (survives_end _ _ Hs') as (x & Hx & Hne). rewrite Hx in Hend'.
    simpl in Hend'. contradiction.
Qed.

Lemma missing_end_date_dropped_witness :
  resolve_entries false [no_end; no_start] = resolve_entries false [no_start]
  /\ resolve_entries true [no_end] = [].
Proof.
  split.
  - destruct (missing_end_date_dropped false no_end) as (_ & H & _); [now left|].
    exact (H [] [no_start]).
  - destruct (missing_end_date_dropped true no_end) as (_ & H & _); [now left|].
    exact (H [] []).
Defined.

(** ** The statement table *)

Lemma collect_dates_fold items (acc : gset string) d :
  d ∈ fold_left (fun all_dates '(_, dates) => all_dates ∪ list_to_set (Dict.keys dates))
        items acc
  <-> d ∈ acc \/ exists (field : string) (series : list (string * Z)),
                   (field, series) ∈ items /\ d ∈ Dict.keys series.
Proof.
  revert acc. induction items as [|[f s] items IH]; intros acc; simpl.
  - split; [now left|]. intros [H | (f & s & H & _)]; [assumption|].
    now apply elem_of_nil in H.
  - rewrite IH, elem_of_union, elem_of_list_to_set. split.
    + intros [[H | H] | (f' & s' & H & Hd)]; [now left | | ].
      * right. exists f, s. split; [apply elem_of_cons; now left | assumption].
      * right. exists f', s'. split; [apply elem_of_cons; now right | assumption].
    + intros [H | (f' & s' & H & Hd)]; [now left; left|].
      apply elem_of_cons in H as [[= -> ->] | H]; [now left; right|].
      right. eauto.
Qed.

(** The dates of the table are the dates of the series of the fields. *)
Lemma elem_of_collect_dates items d :
  d ∈ collect_dates items
  <-> exists field series, (field, series) ∈ items /\ d ∈ Dict.keys series.
Proof.
  unfold collect_dates. rewrite collect_dates_fold. split; [|now right].
  intros [H | H]; [|assumption]. now apply not_elem_of_empty in H.
Qed.

Lemma elem_of_sorted (dates : gset string) d : d ∈ sorted dates <-> d ∈ dates.
Proof. unfold sorted. now rewrite merge_sort_Permutation, elem_of_elements. Qed.

Lemma sorted_StronglySorted (dates : gset string) : StronglySorted String.le (sorted dates).
Proof. apply StronglySorted_merge_sort; apply _. Qed.

Lemma sorted_NoDup (dates : gset string) : NoDup (sorted dates).
Proof. unfold sorted. rewrite merge_sort_Permutation. apply NoDup_elements. Qed.

Lemma drop_marked_fmap {A B} (g : A -> B) dup (l : list A) :
  drop_marked dup (g <$> l) = g <$> drop_marked dup l.
Proof.
  revert l. induction dup as [|b dup IH]; intros [|x l]; simpl; try reflexivity.
  destruct b; simpl; now rewrite IH.
Qed.

Lemma drop_marked_none {A} dup (l : list A) :
  existsb id dup = false -> length dup = length l -> drop_marked dup l = l.
Proof.
  revert l. induction dup as [|b dup IH]; intros [|x l]; simpl; try easy.
  destruct b; simpl; [discriminate|]. intros He [= Hl]. now rewrite IH.
Qed.

Lemma duplicated_from_length {P} `{EqDecision P} (seen labels : list P) :
  length (duplicated_from seen labels) = length labels.
Proof.
  revert seen. induction labels as [|p labels IH]; intros seen; simpl; [reflexivity|].
  now rewrite IH.
Qed.

Section FirstOccurrences.
Context {Period : Type} `{EqDecision Period}.
Variable label : string -> option Period.

(** The columns kept by [~duplicated]: no label twice, every label not
    seen before once, and each one at the first date carrying it. *)
Lemma first_occurrences seen dates cols :
  Forall2 (fun d p => label d = Some p) dates cols ->
  StronglySorted String.le dates ->
  let dup := duplicated_from seen cols in
  Forall2 (fun d p => label d = Some p) (drop_marked dup dates) (drop_marked dup cols)
  /\ NoDup (drop_marked dup cols)
  /\ (forall p, p ∈ drop_marked dup cols <-> p ∈ cols /\ p ∉ seen)
  /\ drop_marked dup dates `sublist_of` dates
  /\ StronglySorted String.le (drop_marked dup dates)
  /\ (forall d0 d p, d0 ∈ drop_marked dup dates -> d ∈ dates ->
        label d0 = Some p -> label d = Some p -> String.le d0 d).
Proof.
  intros HF. revert seen. induction HF as [|d p ds ps Hdp HF IH]; intros seen Hsorted dup.
  - subst dup. simpl.
    split; [constructor|]. split; [constructor|]. split; [|split; [|split]].
    + intros p. split; [intros H0 | intros [H0 _]]; now apply elem_of_nil in H0.
    + constructor.
    + constructor.
    + intros d0 d p H0. now apply elem_of_nil in H0.
  - apply StronglySorted_inv in Hsorted as [Hsorted Hhd].
    destruct (IH (p :: seen) Hsorted) as (IHF & IHnd & IHmem & IHsub & IHss & IHfirst).
    assert (forall d0 p0, d0 ∈ drop_marked (duplicated_from (p :: seen) ps) ds ->
              label d0 = Some p0 -> p0 <> p) as Hfresh.
    { intros d0 p0 Hd0 Hl0 ->.
      destruct (proj1 (list_elem_of_lookup _ _) Hd0) as [i Hi].
      destruct (Forall2_lookup_l _ _ _ _ _ IHF Hi) as (p' & Hp' & Hl').
      assert (p' = p) as -> by congruence.
      apply list_elem_of_lookup_2, IHmem in Hp' as [_ Hp'].
      apply Hp'. apply elem_of_cons. now left. }
    assert (forall d0 d' p0,
              d0 ∈ drop_marked (duplicated_from (p :: seen) ps) ds ->
              d' ∈ d :: ds -> label d0 = Some p0 -> label d' = Some p0 ->
              String.le d0 d') as Hrest.
    { intros d0 d' p0 Hd0 Hd' Hl0 Hl'.
      apply elem_of_cons in Hd' as [-> | Hd']; [|eauto].
      exfalso. apply (Hfresh d0 p0 Hd0 Hl0). congruence. }
    subst dup. simpl. destruct (bool_decide (p ∈ seen)) eqn:Hseen.
    + apply bool_decide_eq_true in Hseen.
      split; [assumption|]. split; [assumption|]. split; [|split; [|split]].
      * intros q. rewrite IHmem, !elem_of_cons. split.
        -- intros [Hq Hn]. split; [now right|]. intros Hs. apply Hn. now right.
        -- intros [[-> | Hq] Hn]; [contradiction|].
           split; [assumption|]. intros [-> | Hs]; contradiction.
      * now apply sublist_cons.
      * assumption.
      * assumption.
    + apply bool_decide_eq_false in Hseen.
      split; [now constructor|]. split; [|split; [|split; [|split]]].
      * apply NoDup_cons. split; [|assumption].
        intros Hin. apply IHmem in Hin as [_ Hin]. apply Hin. apply elem_of_cons. now left.
      * intros q. rewrite elem_of_cons, IHmem, !elem_of_cons. split.
        -- intros [-> | [Hq Hn]]; [split; [now left | assumption]|].
           split; [now right|]. intros Hs. apply Hn. now right.
        -- intros [[-> | Hq] Hn]; [now left|].
           destruct (decide (q = p)) as [-> | Hne]; [now left|]. right.
           split; [assumption|]. intros [-> | Hs]; contradiction.
      * now apply sublist_skip.
      * apply SSorted_cons; [assumption|].
        apply Forall_forall. intros x Hx.
        rewrite Forall_forall in Hhd. apply Hhd.
        now apply (sublist_subseteq _ _ IHsub).
      * intros d0 d' p0 Hd0 Hd' Hl0 Hl'.
        apply elem_of_cons in Hd0 as [-> | Hd0]; [|eauto].
        apply elem_of_cons in Hd' as [-> | Hd']; [reflexivity|].
        rewrite Forall_forall in Hhd. now apply Hhd.
Qed.
End FirstOccurrences.

Section FrameFacts.
Context {Period : Type} `{EqDecision Period}.
Variable period_of : bool -> string -> option Period.

Lemma build_frame_no_dates items quarter fallback :
  collect_dates items = ∅ ->
  build_frame period_of items quarter fallback
  = error_frame (if fallback then "EDGAR NO DATA FOUND FALLBACK" else "EDGAR NO DATA FOUND").
Proof.
  intros Hnone. unfold build_frame. cbv zeta.
  destruct (decide (collect_dates items = ∅)); [reflexivity | contradiction].
Qed.

Lemma build_frame_unlabelled items quarter fallback d :
  d ∈ collect_dates items -> period_of quarter d = None ->
  build_frame period_of items quarter fallback = Raise PeriodParseError.
Proof.
  intros Hd Hnone. unfold build_frame. cbv zeta.
  destruct (decide (collect_dates items = ∅)) as [Hemp | _].
  { rewrite Hemp in Hd. now apply not_elem_of_empty in Hd. }
  simpl df_columns.
  destruct (mapM (period_of quarter) (sorted (collect_dates items))) as [cols|] eqn:Hm;
    [|reflexivity].
  apply mapM_Some_1 in Hm. apply elem_of_sorted in Hd.
  destruct (proj1 (list_elem_of_lookup _ _) Hd) as [i Hi].
  destruct (Forall2_lookup_l _ _ _ _ _ Hm Hi) as (p & _ & Hp). congruence.
Qed.

(** The table, when one is built: its columns are the labels of the dates
    that are the first, in ascending order, to carry their label; its rows
    are the fields, with the value of the field at each of these dates, 0
    where the field has none. *)
Lemma build_frame_table items quarter fallback :
  NoDup (Dict.keys items) ->
  collect_dates items <> ∅ ->
  (forall d, d ∈ collect_dates items -> is_Some (period_of quarter d)) ->
  exists kept columns,
    build_frame period_of items quarter fallback
    = ReturnTable
        (DataFrame columns
           ((fun '(field, series) =>
               (field, (fun d => Dict.get series d 0) <$> kept)) <$> items))
    /\ Forall2 (fun d p => period_of quarter d = Some p) kept columns
    /\ NoDup columns
    /\ StronglySorted String.le kept
    /\ NoDup kept
    /\ (forall d, d ∈ kept <->
          d ∈ collect_dates items
          /\ forall d', d' ∈ collect_dates items ->
               period_of quarter d' = period_of quarter d -> String.le d d')
    /\ (forall d, d ∈ collect_dates items ->
          exists d0, d0 ∈ kept /\ period_of quarter d0 = period_of quarter d).
Proof.
  intros Hnd Hne Hlab. unfold build_frame. cbv zeta.
  destruct (decide (collect_dates items = ∅)) as [|_]; [contradiction|].
  set (dates := sorted (collect_dates items)).
  rewrite (fold_set_fmap (fun series => (fun d => Dict.get series d 0) <$> dates)
             items [] Hnd) by (intros k _; apply not_elem_of_nil).
  simpl app. simpl df_columns. simpl df_rows.
  destruct (mapM (period_of quarter) dates) as [cols|] eqn:Hm.
  2:{ apply mapM_None_1, Exists_exists in Hm as (d & Hd & Hnone).
      apply elem_of_sorted, Hlab in Hd as [p Hp]. congruence. }
  apply mapM_Some_1 in Hm.
  destruct (first_occurrences (period_of quarter) [] dates cols Hm
              (sorted_StronglySorted _))
    as (HF & Hnd' & Hmem & Hsub & Hss & Hfirst).
  fold (duplicated cols) in HF, Hnd', Hmem, Hsub, Hss, Hfirst.
  exists (drop_marked (duplicated cols) dates), (drop_marked (duplicated cols) cols).
  split.
  { destruct (existsb id (duplicated cols)) eqn:Hex.
    - simpl. f_equal. f_equal. rewrite <- list_fmap_compose.
      apply list_fmap_ext. intros i [field series] _. simpl.
      now rewrite drop_marked_fmap.
    - assert (length (duplicated cols) = length cols) as Hlen
        by apply duplicated_from_length.
      rewrite !drop_marked_none; try assumption.
      + reflexivity.
      + rewrite Hlen. symmetry. now apply Forall2_length in Hm. }
  split; [assumption|]. split; [assumption|]. split; [assumption|].
  split; [apply (sublist_NoDup _ dates); [apply sorted_NoDup | exact Hsub]|].
  assert (forall d, d ∈ collect_dates items ->
            exists d0, d0 ∈ drop_marked (duplicated cols) dates
                       /\ period_of quarter d0 = period_of quarter d) as Hcover.
  { intros d Hd. apply elem_of_sorted in Hd. fold dates in Hd.
    destruct (proj1 (list_elem_of_lookup _ _) Hd) as [i Hi].
    destruct (Forall2_lookup_l _ _ _ _ _ Hm Hi) as (p & Hp & Hdp).
    assert (p ∈ drop_marked (duplicated cols) cols) as Hk.
    { apply Hmem. split; [eapply list_elem_of_lookup_2; eauto | apply not_elem_of_nil]. }
    destruct (proj1 (list_elem_of_lookup _ _) Hk) as [j Hj].
    destruct (Forall2_lookup_r _ _ _ _ _ HF Hj) as (d0 & Hd0 & Hd0p).
    exists d0. split; [eapply list_elem_of_lookup_2; eauto | congruence]. }
  split; [|assumption].
  intros d. split.
  - intros Hd. split.
    + apply elem_of_sorted. now apply (sublist_subseteq _ _ Hsub).
    + intros d' Hd' Heq.
      destruct (proj1 (list_elem_of_lookup _ _) Hd) as [i Hi].
      destruct (Forall2_lookup_l _ _ _ _ _ HF Hi) as (p & _ & Hp).
      apply (Hfirst d d' p); [assumption | now apply elem_of_sorted | assumption | congruence].
  - intros [Hd Hleast].
    destruct (Hcover d Hd) as (d0 & Hd0 & Heq).
    assert (d0 ∈ collect_dates items) as Hd0'.
    { apply elem_of_sorted. now apply (sublist_subseteq _ _ Hsub). }
    destruct (Hlab d Hd) as [p Hp].
    assert (String.le d0 d) as H1.
    { apply (Hfirst d0 d p); [assumption | now apply elem_of_sorted | congruence | assumption]. }
    assert (String.le d d0) as H2 by (apply Hleast; assumption).
    assert (d = d0) as -> by (apply (anti_symm String.le); assumption).
    assumption.
Qed.
End FrameFacts.

(** ** Claims on the statement table *)

Lemma statement_concepts_cases statement mapping :
  Dict.lookup statement_concepts statement = Some mapping ->
  statement ∈ ["balance"; "income"; "cashflow"] /\ NoDup (mapping.*1).
Proof.
  unfold statement_concepts. cbn [Dict.lookup].
  destruct (String.eqb "income" statement) eqn:E1.
  { apply String.eqb_eq in E1. subst. intros [= <-]. split.
    - apply (bool_decide_unpack _). vm_compute. reflexivity.
    - apply (bool_decide_unpack _). vm_compute. reflexivity. }
  destruct (String.eqb "balance" statement) eqn:E2.
  { apply String.eqb_eq in E2. subst. intros [= <-]. split.
    - apply (bool_decide_unpack _). vm_compute. reflexivity.
    - apply (bool_decide_unpack _). vm_compute. reflexivity. }
  destruct (String.eqb "cashflow" statement) eqn:E3; [|discriminate].
  apply String.eqb_eq in E3. subst. intros [= <-]. split.
  - apply (bool_decide_unpack _). vm_compute. reflexivity.
  - apply (bool_decide_unpack _). vm_compute. reflexivity.
Qed.

Lemma statement_concepts_valid statement :
  statement ∈ ["balance"; "income"; "cashflow"] ->
  is_Some (Dict.lookup statement_concepts statement).
Proof.
  rewrite !elem_of_cons. intros [-> | [-> | [-> | H]]]; [eexists; reflexivity..|].
  now apply elem_of_nil in H.
Qed.

Lemma extract_items_NoDup f mapping quarter :
  NoDup (Dict.keys (_extract_financial_items f mapping quarter)).
Proof.
  unfold _extract_financial_items.
  assert (NoDup (Dict.keys (@nil (string * list (string * Z))))) as Hacc
    by apply NoDup_nil_2.
  revert Hacc. generalize (@nil (string * list (string * Z))).
  induction mapping as [|[k names] mapping IH]; intros acc Hacc; simpl; [assumption|].
  apply IH. now apply keys_set_NoDup.
Qed.

Section StatementClaims.
Context {Period : Type} `{EqDecision Period}.
Variable period_of : bool -> string -> option Period.
Variable get_cik_for_ticker : string -> option string.
Variable get_company_facts : string -> option facts.


(** C7. A statement type other than "balance", "income" and "cashflow" makes
    the function raise the [ValueError] with its message before any
    collaborator is called, and nothing is returned; with one of the three
    types neither that error nor a [KeyError] is raised. *)
Theorem invalid_statement_raises (ticker statement : string) (quarter fallback : bool) :
  (statement ∉ ["income"; "balance"; "cashflow"] ->
     get_financial_statement period_of get_cik_for_ticker get_company_facts
       ticker statement quarter fallback
     = ([], Raise (ValueError
         "Please choose either 'balance', 'income', or cashflow' for the statement parameter.")))
  /\ (statement ∈ ["income"; "balance"; "cashflow"] ->
      forall s,
        (get_financial_statement period_of get_cik_for_ticker get_company_facts
           ticker statement quarter fallback).2 <> Raise (ValueError s)
        /\ (get_financial_statement period_of get_cik_for_ticker get_company_facts
              ticker statement quarter fallback).2 <> Raise (KeyError s)).
Proof.
  split.
  - intros Hinv. unfold get_financial_statement.
    rewrite bool_decide_eq_false_2; [reflexivity|].
    intros Hin. apply Hinv. revert Hin. rewrite !elem_of_cons. tauto.
  - intros Hval s.
    assert (statement ∈ ["balance"; "income"; "cashflow"]) as Hval'.
    { revert Hval. rewrite !elem_of_cons. tauto. }
    unfold get_financial_statement.
    rewrite (bool_decide_eq_true_2 _ Hval'). simpl negb. cbv iota.
    destruct (get_cik_for_ticker ticker) as [cik|]; [|split; discriminate].
    destruct (get_company_facts cik) as [f|]; [|split; discriminate].
    destruct (statement_concepts_valid _ Hval') as [mapping ->].
    unfold build_frame. cbv zeta. simpl snd.
    destruct (decide _); [split; discriminate|].
    destruct (mapM _ _); split; discriminate.
Qed.

(** C8. When two different end dates have the same period label, the table
    has that label once: the column comes from the first of the dates
    carrying the label in ascending order, the later date gives no column,
    and the table is returned without any error. *)
Theorem duplicate_periods_keep_first (items : list (string * list (string * Z)))
    (quarter fallback : bool) (d1 d2 : string) (p : Period) :
  NoDup (Dict.keys items) ->
  (forall d, d ∈ collect_dates items -> is_Some (period_of quarter d)) ->
  d1 ∈ collect_dates items -> d2 ∈ collect_dates items ->
  d1 <> d2 -> String.le d1 d2 ->
  period_of quarter d1 = Some p -> period_of quarter d2 = Some p ->
  exists kept columns,
    build_frame period_of items quarter fallback
    = ReturnTable
        (DataFrame columns
           ((fun '(field, series) =>
               (field, (fun d => Dict.get series d 0) <$> kept)) <$> items))
    /\ Forall2 (fun d p => period_of quarter d = Some p) kept columns
    /\ StronglySorted String.le kept
    /\ NoDup columns
    /\ (d2 ∉ kept)
    /\ (exists d0, d0 ∈ kept /\ period_of quarter d0 = Some p /\ String.le d0 d1
          /\ forall d, d ∈ kept -> period_of quarter d = Some p -> d = d0)
    /\ (forall d, d ∈ kept <->
          d ∈ collect_dates items
          /\ forall d', d' ∈ collect_dates items ->
               period_of quarter d' = period_of quarter d -> String.le d d').
Proof.
  intros Hnd Hlab Hd1 Hd2 Hne Hle Hp1 Hp2.
  assert (collect_dates items <> ∅) as Hsome.
  { intros Hemp. rewrite Hemp in Hd1. now apply not_elem_of_empty in Hd1. }
  destruct (build_frame_table period_of items quarter fallback Hnd Hsome Hlab)
    as (kept & columns & Hbf & HF & Hndc & Hss & Hndk & Hkept & Hcover).
  exists kept, columns.
  split; [assumption|]. split; [assumption|]. split; [assumption|].
  split; [assumption|]. split; [|split; [|assumption]].
  - intros Hin. apply Hkept in Hin as [_ Hleast].
    apply Hne. apply (anti_symm String.le); [assumption|].
    apply Hleast; [assumption | congruence].
  - destruct (Hcover d1 Hd1) as (d0 & Hd0 & Heq).
    exists d0. split; [assumption|]. split; [congruence|]. split.
    + apply Hkept in Hd0 as [_ Hleast]. apply Hleast; [assumption | congruence].
    + intros d Hd Hdp.
      apply Hkept in Hd as [Hd Hleast]. pose proof Hd0 as Hd0'.
      apply Hkept in Hd0' as [Hd0' Hleast0].
      apply (anti_symm String.le).
      * apply Hleast; [assumption | congruence].
      * apply Hleast0; [assumption | congruence].
Qed.
End StatementClaims.

(** Instances of the claims on the statement table. *)


Lemma invalid_statement_raises_witness :
  get_financial_statement iso_period (fun _ => None) (fun _ => None)
    "AAPL" "invalid" false false
  = ([], Raise (ValueError
      "Please choose either 'balance', 'income', or cashflow' for the statement parameter.")).
Proof.
  apply (proj1 (invalid_statement_raises iso_period (fun _ => None) (fun _ => None)
                  "AAPL" "invalid" false false)).
  apply (bool_decide_unpack _). vm_compute. reflexivity.
Defined.

Lemma duplicate_periods_keep_first_witness :
  exists kept : list string,
    build_frame iso_period week53_items false false
    = ReturnTable
        (DataFrame [Year 2016]
           ((fun '(field, series) =>
               (field, (fun d => Dict.get series d 0) <$> kept)) <$> week53_items))
    /\ "2016-12-31" ∉ kept.
Proof.
  destruct (duplicate_periods_keep_first iso_period week53_items false false
              "2016-01-02" "2016-12-31" (Year 2016))
    as (kept & columns & Hbf & _ & _ & _ & Hout & _).
  - apply (bool_decide_unpack _). vm_compute. reflexivity.
  - apply (bool_decide_unpack _). vm_compute. reflexivity.
  - apply (bool_decide_unpack _). vm_compute. reflexivity.
  - apply (bool_decide_unpack _). vm_compute. reflexivity.
  - discriminate.
  - apply (bool_decide_unpack _). vm_compute. reflexivity.
  - reflexivity.
  - reflexivity.
  - exists kept. split; [|assumption].
    rewrite Hbf. assert (columns = [Year 2016]) as ->; [|reflexivity].
    vm_compute in Hbf. now injection Hbf as ->.
Defined.

Example week53_series :
  Dict.lookup (_extract_financial_items week53_facts BALANCE_CONCEPTS false) "TotalAssets"
    = Some [("2016-01-02", 5)]
  /\ Dict.lookup (_extract_financial_items week53_facts BALANCE_CONCEPTS false)
       "TotalLiabilities"
    = Some [("2016-12-31", 7)].
Proof. split; vm_compute; reflexivity. Qed.

Example week53_table :
  build_frame iso_period week53_items false false
  = ReturnTable (DataFrame [Year 2016] [("TotalAssets", [5]); ("TotalLiabilities", [0])]).
Proof. vm_compute. reflexivity. Qed.


(** ** Missing values *)

Lemma collect_entry_fill quarter fe e :
  collect_entry quarter fe (fill_val e) = collect_entry quarter fe e.
Proof. reflexivity. Qed.

Lemma collect_fold_fill quarter es fe :
  fold_left (collect_entry quarter) (fill_val <$> es) fe
  = fold_left (collect_entry quarter) es fe.
Proof.
  revert fe. induction es as [|e es IH]; intros fe; simpl; [reflexivity|].
  now rewrite collect_entry_fill, IH.
Qed.

Lemma resolve_entries_fill quarter es :
  resolve_entries quarter (fill_val <$> es) = resolve_entries quarter es.
Proof. unfold resolve_entries. now rewrite collect_fold_fill. Qed.

Lemma select_unit_fill keys units :
  select_unit keys (fill_units units) = select_unit keys units.
Proof.
  induction keys as [|key keys IH]; simpl; [reflexivity|].
  unfold fill_units at 1. rewrite lookup_fmap.
  destruct (units !! key); simpl; [reflexivity | exact IH].
Qed.

Lemma selected_entries_fill us_gaap c :
  selected_entries (fill_us_gaap us_gaap) c
  = (fun entries : list entry => fill_val <$> entries) <$> selected_entries us_gaap c.
Proof.
  unfold selected_entries, fill_us_gaap. rewrite lookup_fmap.
  destruct (us_gaap !! c) as [[units]|]; [|reflexivity].
  cbn -[select_unit unit_priority].
  assert (default ∅ (fill_units <$> units) = fill_units (default ∅ units)) as ->.
  { destruct units; [reflexivity|]. unfold fill_units. cbn. now rewrite fmap_empty. }
  rewrite select_unit_fill.
  destruct (select_unit unit_priority (default ∅ units)) as [k|]; [|reflexivity].
  cbn. unfold fill_units. rewrite lookup_fmap.
  now destruct (default ∅ units !! k).
Qed.

Lemma concept_fragment_fill us_gaap quarter c :
  concept_fragment (fill_us_gaap us_gaap) quarter c = concept_fragment us_gaap quarter c.
Proof.
  unfold concept_fragment. rewrite selected_entries_fill.
  destruct (selected_entries us_gaap c); simpl; [apply resolve_entries_fill | reflexivity].
Qed.

Lemma try_concepts_fill us_gaap quarter names :
  try_concepts (fill_us_gaap us_gaap) quarter names []
  = try_concepts us_gaap quarter names [].
Proof.
  induction names as [|c names IH]; [reflexivity|].
  now rewrite !try_concepts_cons, concept_fragment_fill, IH.
Qed.

Lemma us_gaap_of_fill f : us_gaap_of (fill_facts f) = fill_us_gaap (us_gaap_of f).
Proof.
  unfold us_gaap_of, fill_facts. destruct f as [[namespaces|]]; simpl.
  - rewrite lookup_fmap. destruct (namespaces !! "us-gaap"); simpl; [reflexivity|].
    unfold fill_us_gaap. now rewrite fmap_empty.
  - rewrite lookup_empty. simpl. unfold fill_us_gaap. now rewrite fmap_empty.
Qed.

Lemma extract_items_fill f mapping quarter :
  _extract_financial_items (fill_facts f) mapping quarter
  = _extract_financial_items f mapping quarter.
Proof.
  unfold _extract_financial_items.
  change (default ∅ (default ∅ (f_facts (fill_facts f)) !! "us-gaap"))
    with (us_gaap_of (fill_facts f)).
  change (default ∅ (default ∅ (f_facts f) !! "us-gaap")) with (us_gaap_of f).
  rewrite us_gaap_of_fill.
  generalize (@nil (string * list (string * Z))).
  induction mapping as [|[field names] mapping IH]; intros acc; simpl; [reflexivity|].
  now rewrite try_concepts_fill, IH.
Qed.

Lemma group_insert quarter d es1 e es2 x :
  x ∈ group quarter d (es1 ++ e :: es2) ->
  x = filing e \/ x ∈ group quarter d (es1 ++ es2).
Proof.
  rewrite !group_elem. intros (e' & He' & Hs & Hd & ->).
  apply elem_of_app in He' as [He' | He'].
  - right. exists e'. split; [apply elem_of_app; now left | auto].
  - apply elem_of_cons in He' as [-> | He']; [now left|].
    right. exists e'. split; [apply elem_of_app; now right | auto].
Qed.

(** C10. An observation without value is handled as the same observation
    with the value 0: it contributes 0 to its period, wins the period when it
    was filed after every other surviving observation of the period, and the
    resolved series and the statement are those of the facts in which every
    missing value is written as 0. *)
Theorem missing_value_counts_as_zero (quarter : bool) (e : entry) :
  e_val e = None ->
  let zero := Entry (e_start e) (e_end e) (Some 0) (e_form e) (e_filed e) in
  filing e = (default "" (e_filed e), 0)
  /\ (forall fe, collect_entry quarter fe e = collect_entry quarter fe zero)
  /\ (forall es1 es2,
        resolve_entries quarter (es1 ++ e :: es2)
        = resolve_entries quarter (es1 ++ zero :: es2))
  /\ (survives quarter e = true ->
      forall es1 es2,
        (forall o, o ∈ group quarter (default "" (e_end e)) (es1 ++ es2) ->
           String.ltb (fst o) (default "" (e_filed e)) = true) ->
        Dict.lookup (resolve_entries quarter (es1 ++ e :: es2)) (default "" (e_end e))
        = Some 0)
  /\ (forall f mapping,
        _extract_financial_items (fill_facts f) mapping quarter
        = _extract_financial_items f mapping quarter)
  /\ (forall (Period : Type) (Heq : EqDecision Period)
        (period_of : bool -> string -> option Period)
        (get_cik_for_ticker : string -> option string)
        (get_company_facts : string -> option facts)
        (ticker statement : string) (fallback : bool),
        get_financial_statement period_of get_cik_for_ticker
          (fun cik => fill_facts <$> get_company_facts cik)
          ticker statement quarter fallback
        = get_financial_statement period_of get_cik_for_ticker get_company_facts
            ticker statement quarter fallback).
Proof.
  intros Hval zero.
  assert (fill_val e = zero) as Hfill by (unfold fill_val, zero; now rewrite Hval).
  split; [unfold filing; now rewrite Hval|].
  split; [intros fe; now rewrite <- Hfill, collect_entry_fill|].
  split.
  { intros es1 es2. unfold resolve_entries. rewrite !fold_left_app. simpl.
    now rewrite <- Hfill, collect_entry_fill. }
  split.
  { intros Hs es1 es2 Hlate. rewrite lookup_resolve_entries.
    set (d := default "" (e_end e)) in *.
    assert (filing e ∈ group quarter d (es1 ++ e :: es2)) as Hin.
    { apply group_elem. exists e. split; [|auto].
      apply elem_of_app. right. apply elem_of_cons. now left. }
    destruct (sort_desc (group quarter d (es1 ++ e :: es2))) as [|w r] eqn:Hsort.
    { apply sort_desc_nil_inv in Hsort. rewrite Hsort in Hin. now apply elem_of_nil in Hin. }
    simpl. f_equal.
    destruct (sort_desc_head _ _ _ Hsort) as (g1 & g2 & Hg & Hlt & Hle).
    assert (w ∈ group quarter d (es1 ++ e :: es2)) as Hw.
    { rewrite Hg. apply elem_of_app. right. apply elem_of_cons. now left. }
    apply group_insert in Hw as [-> | Hw].
    { unfold filing. now rewrite Hval. }
    exfalso. apply Hlate in Hw. apply ltb_leb_false in Hw.
    assert (String.leb (fst (filing e)) (fst w) = true) as Hmax.
    { rewrite Hg in Hin. apply elem_of_app in Hin as [Hin | Hin].
      - apply ltb_true_leb. auto.
      - apply elem_of_cons in Hin as [-> | Hin]; [apply leb_refl | auto]. }
    simpl in Hmax. congruence. }
  split; [intros f mapping; apply extract_items_fill|].
  intros Period Heq period_of get_cik get_facts ticker statement fallback.
  unfold get_financial_statement.
  destruct (negb _); [reflexivity|].
  destruct (get_cik ticker) as [cik|]; [|reflexivity].
  destruct (get_facts cik) as [f|]; [|reflexivity].
  cbn [fmap option_fmap option_map].
  destruct (Dict.lookup statement_concepts statement); [|reflexivity].
  now rewrite extract_items_fill.
Qed.

Lemma missing_value_counts_as_zero_witness :
  Dict.lookup (resolve_entries false
                 [obs None "2021-12-31" 77 "10-K" "2022-01-15"; no_val]) "2021-12-31"
  = Some 0.
Proof.
  destruct (missing_value_counts_as_zero false no_val eq_refl) as (_ & _ & _ & H & _).
  apply (H eq_refl [obs None "2021-12-31" 77 "10-K" "2022-01-15"] []).
  intros o Ho. vm_compute in Ho. apply list_elem_of_singleton in Ho. subst o. reflexivity.
Defined.

(** ** Instances of the date parser *)

Example strptime_iso : Datetime.strptime "2023-09-30" = Some (2023, 9, 30).
Proof. reflexivity. Qed.

Example toordinal_iso : Datetime.toordinal (2023, 9, 30) = 738793.
Proof. reflexivity. Qed.

Example strptime_short_fields : Datetime.strptime "2023-9-3" = Some (2023, 9, 3).
Proof. reflexivity. Qed.

Example strptime_bad_day : Datetime.strptime "2023-02-29" = None.
Proof. reflexivity. Qed.

Example strptime_trailing : Datetime.strptime "2023-09-301" = None.
Proof. reflexivity. Qed.

Example strptime_year_zero : Datetime.strptime "0000-01-01" = None.
Proof. reflexivity. Qed.

Example strptime_empty : Datetime.strptime "" = None.
Proof. reflexivity. Qed.

Example half_year_days :
  Datetime.days_between (2020, 6, 30) (2020, 1, 1) = 181.
Proof. reflexivity. Qed.

(** * Further properties: the caches *)

(** ** Zero padding *)

Lemma string_app_cons c (s1 s2 : string) : String c s1 +:+ s2 = String c (s1 +:+ s2).
Proof. reflexivity. Qed.

Lemma string_length_app (s1 s2 : string) :
  String.length (s1 +:+ s2) = (String.length s1 + String.length s2)%nat.
Proof.
  induction s1 as [|c s1 IH]; [reflexivity|].
  rewrite string_app_cons. simpl. now rewrite IH.
Qed.

Lemma string_app_nil_r (s : string) : s +:+ "" = s.
Proof.
  induction s as [|c s IH]; [reflexivity|]. now rewrite string_app_cons, IH.
Qed.

Lemma zeros_length n : String.length (Str.zeros n) = n.
Proof. induction n as [|n IH]; simpl; [reflexivity | now rewrite IH]. Qed.

Lemma zfill_length width s :
  String.length (Str.zfill width s) = (width `max` String.length s)%nat.
Proof.
  unfold Str.zfill. destruct (decide (width <= String.length s)%nat) as [Hle | Hlt].
  - lia.
  - destruct s as [|c rest].
    + rewrite zeros_length. simpl. lia.
    + destruct (Ascii.eqb c "+" || Ascii.eqb c "-"); simpl in *;
        rewrite string_length_app, zeros_length; simpl; lia.
Qed.

Lemma zfill_unsigned width s :
  Str.unsigned s ->
  Str.zfill width s = Str.zeros (width - String.length s) +:+ s.
Proof.
  intros Hs. unfold Str.zfill.
  destruct (decide (width <= String.length s)%nat) as [Hle | Hlt].
  - replace (width - String.length s)%nat with 0%nat by lia. reflexivity.
  - destruct s as [|c rest]; simpl in *.
    + now rewrite string_app_nil_r.
    + now rewrite Hs.
Qed.

Lemma pretty_N_char_unsigned x s : Str.unsigned (String (pretty_N_char x) s).
Proof.
  unfold Str.unsigned, pretty_N_char. repeat case_match; reflexivity.
Qed.

Lemma pretty_N_go_unsigned x s : Str.unsigned s -> Str.unsigned (pretty_N_go x s).
Proof.
  revert s. induction (N.lt_wf_0 x) as [x _ IH]; intros s Hs.
  destruct (decide (x = 0)%N) as [-> | Hx].
  - now rewrite pretty_N_go_0.
  - rewrite pretty_N_go_step by lia. apply IH.
    + apply N.div_lt; lia.
    + apply pretty_N_char_unsigned.
Qed.

Lemma pretty_nonneg_unsigned (n : Z) : 0 <= n -> Str.unsigned (pretty n).
Proof.
  intros Hn. destruct n as [|p|p]; [reflexivity | | lia].
  unfold pretty, pretty_Z, pretty, pretty_positive, pretty, pretty_N.
  destruct (decide (N.pos p = 0)%N); [reflexivity|].
  now apply pretty_N_go_unsigned.
Qed.

(** ** The ticker cache *)

Section TickerCache.
Variable upper : string -> string.

Lemma store_fold_not_empty data (cache : gmap string string) :
  cache <> ∅ -> fold_left (Cached.store_entry upper) data cache <> ∅.
Proof.
  revert cache. induction data as [|e data IH]; intros cache Hne; simpl; [assumption|].
  apply IH. unfold Cached.store_entry. apply insert_non_empty.
Qed.

Lemma store_fold_skip data (cache : gmap string string) k :
  (forall e, e ∈ data -> upper (default "" (t_ticker e)) <> k) ->
  fold_left (Cached.store_entry upper) data cache !! k = cache !! k.
Proof.
  revert cache. induction data as [|e data IH]; intros cache Hskip; simpl; [reflexivity|].
  rewrite IH.
  - unfold Cached.store_entry. apply lookup_insert_ne. apply Hskip. apply elem_of_cons. now left.
  - intros e' He'. apply Hskip. apply elem_of_cons. now right.
Qed.

Lemma store_fold_origin data (cache : gmap string string) k v :
  fold_left (Cached.store_entry upper) data cache !! k = Some v ->
  cache !! k = Some v
  \/ exists e, e ∈ data /\ k = upper (default "" (t_ticker e))
       /\ v = Str.zfill 10 (Str.str (default (CikStr "") (t_cik_str e))).
Proof.
  revert cache. induction data as [|e data IH]; intros cache; simpl; [now left|].
  intros H. apply IH in H as [H | (e' & He' & Hk & Hv)].
  - unfold Cached.store_entry in H.
    destruct (decide (upper (default "" (t_ticker e)) = k)) as [Heq | Hne].
    + rewrite <- Heq, lookup_insert_eq in H. injection H as <-.
      right. exists e. split; [apply elem_of_cons; now left | auto].
    + rewrite lookup_insert_ne in H by assumption. now left.
  - right. exists e'. split; [apply elem_of_cons; now right | auto].
Qed.

(** X1. Once the ticker cache holds anything, a lookup never goes to the
    network and never changes the cache: a ticker that is not in the cache is
    answered [None], also when the server would know it. *)
Theorem cik_cache_never_refreshed (http : string -> response (list ticker_entry))
    (ticker : string) (cache : gmap string string) :
  cache <> ∅ ->
  Cached.get_cik_for_ticker upper http ticker cache = ([], cache, cache !! upper ticker).
Proof.
  intros Hne. unfold Cached.get_cik_for_ticker. cbv zeta.
  destruct (cache !! upper ticker) as [cik|] eqn:Hl; [reflexivity|].
  destruct (decide (cache = ∅)); [contradiction | reflexivity].
Qed.

(** X2. With an empty cache, a request that raises, a status other than 200
    and a body that is not JSON all give [None] after one request and one
    error log, and leave the cache empty: the failure is not remembered. *)
Theorem cik_fetch_failure_caches_nothing (http : string -> response (list ticker_entry))
    (ticker : string) :
  (http Cached.TICKERS_URL = RequestException
   \/ exists status_code json,
        http Cached.TICKERS_URL = Response status_code json
        /\ (status_code <> 200 \/ json = None)) ->
  Cached.get_cik_for_ticker upper http ticker ∅
  = ([HttpGet Cached.TICKERS_URL; LoggerError], ∅, None).
Proof.
  intros Hfail. unfold Cached.get_cik_for_ticker. cbv zeta.
  rewrite lookup_empty. destruct (decide (∅ = ∅)) as [_|]; [|contradiction].
  destruct Hfail as [-> | (status_code & json & -> & Hbad)]; [reflexivity|].
  destruct (status_code =? 200) eqn:Hs; simpl; [|reflexivity].
  apply Z.eqb_eq in Hs. destruct Hbad as [Hbad | ->]; [contradiction | reflexivity].
Qed.

(** X3. With an empty cache and a good response, the whole document is
    stored after one request; the answer for a ticker is the padded CIK of
    the last entry of the document with that ticker in upper case, and
    [None] when the document has no such entry. *)
Theorem cik_fetch_last_entry_wins (http : string -> response (list ticker_entry))
    (ticker : string) (data : list ticker_entry) :
  http Cached.TICKERS_URL = Response 200 (Some data) ->
  let cache := fold_left (Cached.store_entry upper) data ∅ in
  Cached.get_cik_for_ticker upper http ticker ∅
  = ([HttpGet Cached.TICKERS_URL], cache, cache !! upper ticker)
  /\ (forall pre e post,
        data = pre ++ e :: post ->
        upper (default "" (t_ticker e)) = upper ticker ->
        (forall e', e' ∈ post -> upper (default "" (t_ticker e')) <> upper ticker) ->
        cache !! upper ticker
        = Some (Str.zfill 10 (Str.str (default (CikStr "") (t_cik_str e)))))
  /\ ((forall e, e ∈ data -> upper (default "" (t_ticker e)) <> upper ticker) ->
      cache !! upper ticker = None).
Proof.
  intros Hhttp cache. split; [|split].
  - unfold Cached.get_cik_for_ticker. cbv zeta.
    rewrite lookup_empty. destruct (decide (∅ = ∅)) as [_|]; [|contradiction].
    rewrite Hhttp. reflexivity.
  - intros pre e post -> He Hpost. subst cache.
    rewrite fold_left_app. simpl. rewrite store_fold_skip by assumption.
    unfold Cached.store_entry at 1. rewrite He. apply lookup_insert_eq.
  - intros Hnone. subst cache. rewrite store_fold_skip by assumption. apply lookup_empty.
Qed.

(** X4. The lookup does not depend on the case of the ticker: a ticker and
    its upper case get the same answer, the same requests and the same
    cache. *)
Theorem cik_lookup_ignores_case (http : string -> response (list ticker_entry))
    (ticker : string) (cache : gmap string string) :
  upper (upper ticker) = upper ticker ->
  Cached.get_cik_for_ticker upper http (upper ticker) cache
  = Cached.get_cik_for_ticker upper http ticker cache.
Proof. intros Hidem. unfold Cached.get_cik_for_ticker. now rewrite Hidem. Qed.

(** X5. After a download of a document with at least one entry, no later
    lookup, for any ticker and whatever the network answers, makes a request
    or changes the cache; after a download of an empty document the cache is
    still empty. *)
Theorem cik_download_happens_once (http : string -> response (list ticker_entry))
    (ticker : string) (data : list ticker_entry) :
  http Cached.TICKERS_URL = Response 200 (Some data) ->
  let cache := (Cached.get_cik_for_ticker upper http ticker ∅).1.2 in
  (data <> [] ->
     forall http' ticker',
       Cached.get_cik_for_ticker upper http' ticker' cache
       = ([], cache, cache !! upper ticker'))
  /\ (data = [] -> cache = ∅).
Proof.
  intros Hhttp cache.
  assert (cache = fold_left (Cached.store_entry upper) data ∅) as Hcache.
  { subst cache. unfold Cached.get_cik_for_ticker. cbv zeta.
    rewrite lookup_empty. destruct (decide (∅ = ∅)) as [_|]; [|contradiction].
    now rewrite Hhttp. }
  split.
  - intros Hdata http' ticker'.
    assert (cache <> ∅) as Hne.
    { rewrite Hcache. destruct data as [|e data]; [contradiction|]. simpl.
      apply store_fold_not_empty. unfold Cached.store_entry. apply insert_non_empty. }
    unfold Cached.get_cik_for_ticker. cbv zeta.
    destruct (cache !! upper ticker') as [cik|] eqn:Hl; [reflexivity|].
    destruct (decide (cache = ∅)); [contradiction | reflexivity].
  - intros ->. exact Hcache.
Qed.

(** X6. A CIK answered from a freshly downloaded document has at least ten
    characters; when the entry gives the CIK as a non-negative integer, the
    answer is its decimal writing preceded by zeros. *)
Theorem cik_is_zero_padded (http : string -> response (list ticker_entry))
    (ticker : string) (data : list ticker_entry) (cik : string) :
  http Cached.TICKERS_URL = Response 200 (Some data) ->
  (Cached.get_cik_for_ticker upper http ticker ∅).2 = Some cik ->
  (10 <= String.length cik)%nat
  /\ exists e,
       e ∈ data /\ upper (default "" (t_ticker e)) = upper ticker
       /\ cik = Str.zfill 10 (Str.str (default (CikStr "") (t_cik_str e)))
       /\ forall n, t_cik_str e = Some (CikInt n) -> 0 <= n ->
            cik = Str.zeros (10 - String.length (pretty n)) +:+ pretty n.
Proof.
  intros Hhttp Hres.
  unfold Cached.get_cik_for_ticker in Hres. cbv zeta in Hres.
  rewrite lookup_empty in Hres. destruct (decide (∅ = ∅)) as [_|]; [|contradiction].
  rewrite Hhttp in Hres. simpl in Hres.
  apply store_fold_origin in Hres as [Hres | (e & He & Hk & Hv)].
  { rewrite lookup_empty in Hres. discriminate. }
  split.
  - rewrite Hv, zfill_length. lia.
  - exists e. split; [assumption|]. split; [now symmetry|]. split; [assumption|].
    intros n Hn Hpos. rewrite Hv, Hn. simpl.
    apply zfill_unsigned. now apply pretty_nonneg_unsigned.
Qed.
End TickerCache.

Lemma ascii_upper_idempotent s : Str.ascii_upper (Str.ascii_upper s) = Str.ascii_upper s.
Proof.
  induction s as [|c s IH]; simpl; [reflexivity|]. rewrite IH. f_equal.
  destruct c as [[] [] [] [] [] [] [] []]; reflexivity.
Qed.

Lemma cik_cache_never_refreshed_witness :
  Cached.get_cik_for_ticker Str.ascii_upper server_down "tsla" {[ "AAPL" := "0000320193" ]}
  = ([], {[ "AAPL" := "0000320193" ]}, None).
Proof.
  rewrite (cik_cache_never_refreshed Str.ascii_upper server_down "tsla"
             {[ "AAPL" := "0000320193" ]}) by apply insert_non_empty.
  f_equal.
Defined.

Lemma cik_fetch_failure_caches_nothing_witness :
  Cached.get_cik_for_ticker Str.ascii_upper server_down "AAPL" ∅
  = ([HttpGet Cached.TICKERS_URL; LoggerError], ∅, None).
Proof.
  apply (cik_fetch_failure_caches_nothing Str.ascii_upper server_down "AAPL").
  right. exists 503, None. split; [reflexivity|]. left. discriminate.
Defined.

Lemma cik_fetch_last_entry_wins_witness :
  (Cached.get_cik_for_ticker Str.ascii_upper tickers_ok "Aapl" ∅).2 = Some "0000000042".
Proof.
  destruct (cik_fetch_last_entry_wins Str.ascii_upper tickers_ok "Aapl" sample_tickers
              eq_refl) as (Hres & Hlast & _).
  rewrite Hres. cbn [snd].
  apply (Hlast [TickerEntry (Some "aapl") (Some (CikInt 320193));
                TickerEntry (Some "MSFT") (Some (CikInt 789019))]
               (TickerEntry (Some "AAPL") (Some (CikStr "42"))) []).
  - reflexivity.
  - reflexivity.
  - intros e' He'. now apply elem_of_nil in He'.
Defined.

Lemma cik_lookup_ignores_case_witness :
  Cached.get_cik_for_ticker Str.ascii_upper tickers_ok "MSFT" ∅
  = Cached.get_cik_for_ticker Str.ascii_upper tickers_ok "msft" ∅.
Proof.
  apply (cik_lookup_ignores_case Str.ascii_upper tickers_ok "msft" ∅).
  apply ascii_upper_idempotent.
Defined.

Lemma cik_download_happens_once_witness :
  Cached.get_cik_for_ticker Str.ascii_upper server_down "NOPE"
    (Cached.get_cik_for_ticker Str.ascii_upper tickers_ok "MSFT" ∅).1.2
  = ([], (Cached.get_cik_for_ticker Str.ascii_upper tickers_ok "MSFT" ∅).1.2, None).
Proof.
  destruct (cik_download_happens_once Str.ascii_upper tickers_ok "MSFT" sample_tickers
              eq_refl) as [H _].
  rewrite (H ltac:(discriminate) server_down "NOPE"). f_equal.
Defined.

Lemma cik_is_zero_padded_witness :
  (10 <= String.length "0000789019")%nat
  /\ "0000789019" = Str.zeros (10 - String.length (pretty 789019)) +:+ pretty 789019.
Proof.
  destruct (cik_is_zero_padded Str.ascii_upper tickers_ok "msft" sample_tickers
              "0000789019" eq_refl) as (Hlen & e & He & Hk & Hv & Hint).
  { vm_compute. reflexivity. }
  split; [exact Hlen|].
  assert (e = TickerEntry (Some "MSFT") (Some (CikInt 789019))) as ->.
  { unfold sample_tickers in He.
    repeat (apply elem_of_cons in He as [-> | He]); try (vm_compute in Hk; discriminate).
    - reflexivity.
    - now apply elem_of_nil in He. }
  apply (Hint 789019); [reflexivity | lia].
Defined.

(** ** The facts cache and [clear_cache] *)

(** X7. A successful download of the facts of a CIK returns them and stores
    them under that CIK only; from then on the same CIK is answered from the
    cache, without request, whatever the network answers. *)
Theorem facts_cached_after_download (http : string -> response facts) (cik : string)
    (cache : gmap string facts) (f : facts) :
  cache !! cik = None ->
  http (Cached.facts_url cik) = Response 200 (Some f) ->
  Cached.get_company_facts http cik cache
  = ([HttpGet (Cached.facts_url cik)], <[cik := f]> cache, Some f)
  /\ (forall http',
        Cached.get_company_facts http' cik (<[cik := f]> cache)
        = ([], <[cik := f]> cache, Some f))
  /\ (forall cik', cik' <> cik -> (<[cik := f]> cache) !! cik' = cache !! cik').
Proof.
  intros Hmiss Hhttp. split; [|split].
  - unfold Cached.get_company_facts. rewrite Hmiss. cbv zeta. now rewrite Hhttp.
  - intros http'. unfold Cached.get_company_facts. now rewrite lookup_insert_eq.
  - intros cik' Hne. now apply lookup_insert_ne.
Qed.

(** X8. When the facts of a CIK are not cached and the download fails (the
    request raises, the status is not 200, the body is not JSON), the answer
    is [None] after one request and one error log, and the cache is
    unchanged: the next call for that CIK asks the network again. *)
Theorem facts_failure_not_cached (http : string -> response facts) (cik : string)
    (cache : gmap string facts) :
  cache !! cik = None ->
  (http (Cached.facts_url cik) = RequestException
   \/ exists status_code json,
        http (Cached.facts_url cik) = Response status_code json
        /\ (status_code <> 200 \/ json = None)) ->
  Cached.get_company_facts http cik cache
  = ([HttpGet (Cached.facts_url cik); LoggerError], cache, None)
  /\ forall http' f,
       http' (Cached.facts_url cik) = Response 200 (Some f) ->
       (Cached.get_company_facts http' cik
          (Cached.get_company_facts http cik cache).1.2).1.1
       = [HttpGet (Cached.facts_url cik)].
Proof.
  intros Hmiss Hfail.
  assert (Cached.get_company_facts http cik cache
          = ([HttpGet (Cached.facts_url cik); LoggerError], cache, None)) as Hres.
  { unfold Cached.get_company_facts. rewrite Hmiss. cbv zeta.
    destruct Hfail as [-> | (status_code & json & -> & Hbad)]; [reflexivity|].
    destruct (status_code =? 200) eqn:Hs; simpl; [|reflexivity].
    apply Z.eqb_eq in Hs. destruct Hbad as [Hbad | ->]; [contradiction | reflexivity]. }
  split; [exact Hres|].
  intros http' f Hhttp'. rewrite Hres. cbn [fst snd].
  unfold Cached.get_company_facts. rewrite Hmiss. cbv zeta. now rewrite Hhttp'.
Qed.

Lemma cik_lookup_empty_requests upper (http : string -> response (list ticker_entry))
    ticker :
  exists rest,
    (Cached.get_cik_for_ticker upper http ticker ∅).1.1 = HttpGet Cached.TICKERS_URL :: rest.
Proof.
  unfold Cached.get_cik_for_ticker. cbv zeta. rewrite lookup_empty.
  destruct (decide (∅ = ∅)) as [_|]; [|contradiction].
  destruct (http Cached.TICKERS_URL) as [|status_code [data|]];
    [eauto | destruct (negb _); eauto ..].
Qed.

Lemma facts_lookup_empty_requests (http : string -> response facts) cik :
  exists rest,
    (Cached.get_company_facts http cik ∅).1.1 = HttpGet (Cached.facts_url cik) :: rest.
Proof.
  unfold Cached.get_company_facts. rewrite lookup_empty. cbv zeta.
  destruct (http (Cached.facts_url cik)) as [|status_code [f|]];
    [eauto | destruct (negb _); eauto ..].
Qed.

(** X9. [clear_cache] empties both caches whatever they held, so the next
    lookup of a ticker and the next lookup of the facts of a CIK each start
    with a request to the network. *)
Theorem clear_cache_forgets (upper : string -> string) (st : caches)
    (tickers_http : string -> response (list ticker_entry))
    (facts_http : string -> response facts) (ticker cik : string) :
  (forall k, _ticker_cik_cache (Cached.clear_cache st) !! k = None)
  /\ (forall k, _company_facts_cache (Cached.clear_cache st) !! k = None)
  /\ (exists rest,
        (Cached.get_cik_for_ticker upper tickers_http ticker
           (_ticker_cik_cache (Cached.clear_cache st))).1.1
        = HttpGet Cached.TICKERS_URL :: rest)
  /\ (exists rest,
        (Cached.get_company_facts facts_http cik
           (_company_facts_cache (Cached.clear_cache st))).1.1
        = HttpGet (Cached.facts_url cik) :: rest).
Proof.
  split; [intros k; apply lookup_empty|]. split; [intros k; apply lookup_empty|].
  split; [apply cik_lookup_empty_requests | apply facts_lookup_empty_requests].
Qed.

Lemma facts_cached_after_download_witness :
  Cached.get_company_facts server_down "0000320193"
    (Cached.get_company_facts facts_ok "0000320193" ∅).1.2
  = ([], <[ "0000320193" := revenue_facts ]> ∅, Some revenue_facts).
Proof.
  destruct (facts_cached_after_download facts_ok "0000320193" ∅ revenue_facts
              (lookup_empty _) eq_refl) as (Hfirst & Hsecond & _).
  rewrite Hfirst. cbn [fst snd]. apply Hsecond.
Defined.

Lemma facts_failure_not_cached_witness :
  Cached.get_company_facts server_down "0000320193" ∅
  = ([HttpGet (Cached.facts_url "0000320193"); LoggerError], ∅, None).
Proof.
  apply (facts_failure_not_cached server_down "0000320193" ∅ (lookup_empty _)).
  right. exists 503, None. split; [reflexivity|]. left. discriminate.
Defined.

(** ** The statement on the caches *)

Section CachedStatement.
Context {Period : Type} `{EqDecision Period}.
Variable period_of : bool -> string -> option Period.
Variable upper : string -> string.

Lemma cik_answer_is_cached (http : string -> response (list ticker_entry)) ticker
    (cache : gmap string string) cik :
  (Cached.get_cik_for_ticker upper http ticker cache).2 = Some cik ->
  (Cached.get_cik_for_ticker upper http ticker cache).1.2 !! upper ticker = Some cik.
Proof.
  unfold Cached.get_cik_for_ticker. cbv zeta.
  destruct (cache !! upper ticker) as [c|] eqn:Hl.
  { simpl. now intros [= <-]. }
  destruct (decide (cache = ∅)); [|simpl; congruence].
  destruct (http Cached.TICKERS_URL) as [|status_code [data|]]; simpl;
    [discriminate | destruct (negb _); simpl; [discriminate | tauto]
    | destruct (negb _); simpl; discriminate].
Qed.

Lemma facts_answer_is_cached (http : string -> response facts) cik
    (cache : gmap string facts) f :
  (Cached.get_company_facts http cik cache).2 = Some f ->
  (Cached.get_company_facts http cik cache).1.2 !! cik = Some f.
Proof.
  unfold Cached.get_company_facts.
  destruct (cache !! cik) as [f0|] eqn:Hl.
  { simpl. now intros [= <-]. }
  cbv zeta.
  destruct (http (Cached.facts_url cik)) as [|status_code [f1|]]; simpl;
    [discriminate | destruct (negb _); simpl; [discriminate|]
    | destruct (negb _); simpl; discriminate].
  intros [= <-]. apply lookup_insert_eq.
Qed.

Lemma cik_cache_hit (http : string -> response (list ticker_entry)) ticker
    (cache : gmap string string) cik :
  cache !! upper ticker = Some cik ->
  Cached.get_cik_for_ticker upper http ticker cache = ([], cache, Some cik).
Proof. intros Hl. unfold Cached.get_cik_for_ticker. cbv zeta. now rewrite Hl. Qed.

Lemma facts_cache_hit (http : string -> response facts) cik
    (cache : gmap string facts) f :
  cache !! cik = Some f ->
  Cached.get_company_facts http cik cache = ([], cache, Some f).
Proof. intros Hl. unfold Cached.get_company_facts. now rewrite Hl. Qed.

Lemma cik_requests_only_tickers (http : string -> response (list ticker_entry)) ticker
    (cache : gmap string string) url :
  HttpGet url ∈ (Cached.get_cik_for_ticker upper http ticker cache).1.1 ->
  url = Cached.TICKERS_URL.
Proof.
  unfold Cached.get_cik_for_ticker. cbv zeta.
  assert (forall l, HttpGet url ∈ HttpGet Cached.TICKERS_URL :: l ->
                    (forall x, x ∈ l -> x = LoggerError) -> url = Cached.TICKERS_URL) as Haux.
  { intros l Hin Hl. apply elem_of_cons in Hin as [[= ->] | Hin]; [reflexivity|].
    apply Hl in Hin. discriminate. }
  assert (forall x : io, x ∈ [LoggerError] -> x = LoggerError) as Hone.
  { intros x Hx. now apply list_elem_of_singleton in Hx. }
  assert (forall x : io, x ∈ [] -> x = LoggerError) as Hnil.
  { intros x Hx. now apply elem_of_nil in Hx. }
  destruct (cache !! upper ticker) as [c|]; simpl.
  { intros Hin. now apply elem_of_nil in Hin. }
  destruct (decide (cache = ∅)); simpl.
  2:{ intros Hin. now apply elem_of_nil in Hin. }
  destruct (http Cached.TICKERS_URL) as [|status_code [data|]]; simpl;
    [| destruct (negb _); simpl | destruct (negb _); simpl];
    intros Hin; eauto.
Qed.

Lemma cik_lookup_requests (http : string -> response (list ticker_entry)) ticker
    (cache : gmap string string) :
  requests (Cached.get_cik_for_ticker upper http ticker cache).1.1 = []
  \/ (cache = ∅
      /\ requests (Cached.get_cik_for_ticker upper http ticker cache).1.1
         = [Cached.TICKERS_URL]).
Proof.
  unfold Cached.get_cik_for_ticker. cbv zeta.
  destruct (cache !! upper ticker) as [c|]; [now left|].
  destruct (decide (cache = ∅)) as [Hemp|]; [|now left].
  right. split; [assumption|].
  destruct (http Cached.TICKERS_URL) as [|status_code [data|]];
    [| destruct (negb _) | destruct (negb _)]; reflexivity.
Qed.

Lemma facts_lookup_requests (http : string -> response facts) cik
    (cache : gmap string facts) :
  requests (Cached.get_company_facts http cik cache).1.1 = []
  \/ (cache !! cik = None
      /\ requests (Cached.get_company_facts http cik cache).1.1
         = [Cached.facts_url cik]).
Proof.
  unfold Cached.get_company_facts.
  destruct (cache !! cik) as [f|]; [now left|].
  right. split; [reflexivity|]. cbv zeta.
  destruct (http (Cached.facts_url cik)) as [|status_code [f|]];
    [| destruct (negb _) | destruct (negb _)]; reflexivity.
Qed.

Lemma facts_url_not_tickers cik : Cached.facts_url cik <> Cached.TICKERS_URL.
Proof. unfold Cached.facts_url, Cached.TICKERS_URL. cbv. discriminate. Qed.

Lemma cached_statement_invalid
    (tickers_http : string -> response (list ticker_entry))
    (facts_http : string -> response facts)
    (ticker statement : string) (quarter fallback : bool) (st : caches) :
  statement ∉ ["balance"; "income"; "cashflow"] ->
  Cached.get_financial_statement upper period_of tickers_http facts_http
    ticker statement quarter fallback st
  = ([], st, Raise (ValueError
      "Please choose either 'balance', 'income', or cashflow' for the statement parameter.")).
Proof.
  intros Hinv. unfold Cached.get_financial_statement.
  now rewrite (bool_decide_eq_false_2 _ Hinv).
Qed.

Lemma cached_statement_requests
    (tickers_http : string -> response (list ticker_entry))
    (facts_http : string -> response facts)
    (ticker statement : string) (quarter fallback : bool) (st : caches) :
  statement ∈ ["balance"; "income"; "cashflow"] ->
  requests (Cached.get_financial_statement upper period_of tickers_http facts_http
              ticker statement quarter fallback st).1.1
  = requests (Cached.get_cik_for_ticker upper tickers_http ticker (_ticker_cik_cache st)).1.1
    ++ match (Cached.get_cik_for_ticker upper tickers_http ticker
                (_ticker_cik_cache st)).2 with
       | Some cik =>
           requests (Cached.get_company_facts facts_http cik (_company_facts_cache st)).1.1
       | None => []
       end.
Proof.
  intros Hvalid. unfold Cached.get_financial_statement.
  rewrite (bool_decide_eq_true_2 _ Hvalid). cbn [negb].
  destruct (Cached.get_cik_for_ticker upper tickers_http ticker (_ticker_cik_cache st))
    as [[io1 cik_cache] [cik|]]; cbn [fst snd].
  - cbn [_company_facts_cache _ticker_cik_cache].
    destruct (Cached.get_company_facts facts_http cik (_company_facts_cache st))
      as [[io2 facts_cache] [f|]]; cbn [fst snd].
    + destruct (Dict.lookup statement_concepts statement); cbn [fst snd];
        unfold requests; now rewrite omap_app.
    + unfold requests. rewrite !omap_app. cbn [omap]. now rewrite app_nil_r.
  - unfold requests. rewrite omap_app. cbn [omap]. reflexivity.
Qed.

(** X10. A statement costs at most two requests, and only on cache misses:
    first the ticker document, when the ticker cache is empty, then the
    facts of the CIK found for the ticker, when they are not cached. Without
    a CIK the facts are not requested, and an invalid statement type is
    refused before any request, log or change of the caches. *)
Theorem statement_requests_on_cache_misses
    (tickers_http : string -> response (list ticker_entry))
    (facts_http : string -> response facts)
    (ticker statement : string) (quarter fallback : bool) (st : caches) :
  let result :=
    Cached.get_financial_statement upper period_of tickers_http facts_http
      ticker statement quarter fallback st in
  let urls := requests result.1.1 in
  (statement ∉ ["balance"; "income"; "cashflow"] ->
     result.1.1 = [] /\ result.1.2 = st)
  /\ match (Cached.get_cik_for_ticker upper tickers_http ticker (_ticker_cik_cache st)).2 with
     | None => urls `sublist_of` [Cached.TICKERS_URL]
     | Some cik =>
         urls `sublist_of` [Cached.TICKERS_URL; Cached.facts_url cik]
         /\ (Cached.facts_url cik ∈ urls -> _company_facts_cache st !! cik = None)
     end
  /\ (Cached.TICKERS_URL ∈ urls -> _ticker_cik_cache st = ∅).
Proof.
  intros result urls. subst urls result.
  destruct (decide (statement ∈ ["balance"; "income"; "cashflow"])) as [Hvalid | Hinv].
  2:{ rewrite (cached_statement_invalid _ _ _ _ _ _ _ Hinv). cbn [fst snd].
      split; [auto|]. split.
      - destruct (Cached.get_cik_for_ticker _ _ _ _).2; [split|].
        + apply sublist_nil_l.
        + intros Hin. now apply elem_of_nil in Hin.
        + apply sublist_nil_l.
      - intros Hin. now apply elem_of_nil in Hin. }
  split; [intros Hinv; contradiction|].
  rewrite (cached_statement_requests _ _ _ _ _ _ _ Hvalid).
  destruct (cik_lookup_requests tickers_http ticker (_ticker_cik_cache st))
    as [-> | [Hemp ->]];
    destruct (Cached.get_cik_for_ticker upper tickers_http ticker (_ticker_cik_cache st)).2
      as [cik|].
  - destruct (facts_lookup_requests facts_http cik (_company_facts_cache st))
      as [-> | [Hnone ->]]; cbn [app].
    + split; [split|].
      * apply sublist_nil_l.
      * intros Hin. now apply elem_of_nil in Hin.
      * intros Hin. now apply elem_of_nil in Hin.
    + split; [split|].
      * apply sublist_cons. apply sublist_skip. apply sublist_nil_l.
      * intros _. assumption.
      * intros Hin. apply list_elem_of_singleton in Hin.
        symmetry in Hin. now apply facts_url_not_tickers in Hin.
  - cbn [app]. split; [apply sublist_nil_l|].
    intros Hin. now apply elem_of_nil in Hin.
  - destruct (facts_lookup_requests facts_http cik (_company_facts_cache st))
      as [-> | [Hnone ->]]; cbn [app].
    + split; [split|].
      * apply sublist_skip. apply sublist_nil_l.
      * intros Hin. apply list_elem_of_singleton in Hin.
        now apply facts_url_not_tickers in Hin.
      * intros _. assumption.
    + split; [split|].
      * reflexivity.
      * intros _. assumption.
      * intros _. assumption.
  - cbn [app]. split; [reflexivity|]. intros _. assumption.
Qed.

(** X11. When a call found the CIK of the ticker and the facts of the
    company, the same call made again on the caches it left gives the same
    outcome without any request or log, and leaves the caches as they are,
    whatever the network answers then. *)
Theorem cached_statement_repeats_offline
    (tickers_http tickers_http' : string -> response (list ticker_entry))
    (facts_http facts_http' : string -> response facts)
    (ticker statement cik : string) (f : facts) (quarter fallback : bool) (st : caches) :
  (Cached.get_cik_for_ticker upper tickers_http ticker (_ticker_cik_cache st)).2 = Some cik ->
  (Cached.get_company_facts facts_http cik (_company_facts_cache st)).2 = Some f ->
  let first :=
    Cached.get_financial_statement upper period_of tickers_http facts_http
      ticker statement quarter fallback st in
  Cached.get_financial_statement upper period_of tickers_http' facts_http'
    ticker statement quarter fallback first.1.2
  = ([], first.1.2, first.2).
Proof.
  intros Hcik Hfacts first. subst first.
  pose proof (cik_answer_is_cached _ _ _ _ Hcik) as Hc1.
  pose proof (facts_answer_is_cached _ _ _ _ Hfacts) as Hc2.
  unfold Cached.get_financial_statement.
  destruct (negb _); [reflexivity|].
  destruct (Cached.get_cik_for_ticker upper tickers_http ticker (_ticker_cik_cache st))
    as [[io1 cik_cache] r1]. cbn [fst snd] in Hcik, Hc1. subst r1.
  cbn [_company_facts_cache _ticker_cik_cache].
  destruct (Cached.get_company_facts facts_http cik (_company_facts_cache st))
    as [[io2 facts_cache] r2]. cbn [fst snd] in Hfacts, Hc2. subst r2.
  destruct (Dict.lookup statement_concepts statement) as [concept_mapping|];
    cbn [fst snd _company_facts_cache _ticker_cik_cache];
    rewrite (cik_cache_hit _ _ _ _ Hc1), (facts_cache_hit _ _ _ _ Hc2);
    reflexivity.
Qed.

(** X12. When the ticker has no CIK, the statement is the frame of the code
    [EDGAR NO CIK FOUND] ([... FALLBACK] for a fallback source); the facts
    cache is untouched and every request made went to the ticker document,
    none to the facts of a company. *)
Theorem unknown_ticker_skips_facts
    (tickers_http : string -> response (list ticker_entry))
    (facts_http : string -> response facts)
    (ticker statement : string) (quarter fallback : bool) (st : caches) :
  statement ∈ ["balance"; "income"; "cashflow"] ->
  (Cached.get_cik_for_ticker upper tickers_http ticker (_ticker_cik_cache st)).2 = None ->
  let result :=
    Cached.get_financial_statement upper period_of tickers_http facts_http
      ticker statement quarter fallback st in
  result.2 = ReturnError
               (DataFrame [if fallback then "EDGAR NO CIK FOUND FALLBACK"
                           else "EDGAR NO CIK FOUND"] [])
  /\ _company_facts_cache result.1.2 = _company_facts_cache st
  /\ forall url, HttpGet url ∈ result.1.1 -> url = Cached.TICKERS_URL.
Proof.
  intros Hvalid Hnone result. subst result.
  pose proof (cik_requests_only_tickers tickers_http ticker (_ticker_cik_cache st)) as Hreq.
  unfold Cached.get_financial_statement.
  rewrite (bool_decide_eq_true_2 _ Hvalid). cbn [negb].
  destruct (Cached.get_cik_for_ticker upper tickers_http ticker (_ticker_cik_cache st))
    as [[io1 cik_cache] r1]. cbn [fst snd] in Hnone, Hreq. subst r1. cbn [fst snd].
  split; [reflexivity|]. split; [reflexivity|].
  intros url Hin. apply elem_of_app in Hin as [Hin | Hin]; [now apply Hreq|].
  apply list_elem_of_singleton in Hin. discriminate.
Qed.
End CachedStatement.

Lemma statement_requests_on_cache_misses_witness :
  requests (Cached.get_financial_statement Str.ascii_upper iso_period tickers_ok facts_ok
              "msft" "income" false false (Caches ∅ ∅)).1.1
    `sublist_of` [Cached.TICKERS_URL; Cached.facts_url "0000789019"]
  /\ (Cached.get_financial_statement Str.ascii_upper iso_period tickers_ok facts_ok
        "msft" "dividends" false false (Caches ∅ ∅)).1.1 = [].
Proof.
  split.
  - destruct (statement_requests_on_cache_misses iso_period Str.ascii_upper
                tickers_ok facts_ok "msft" "income" false false (Caches ∅ ∅))
      as (_ & H & _).
    assert ((Cached.get_cik_for_ticker Str.ascii_upper tickers_ok "msft"
               (_ticker_cik_cache (Caches ∅ ∅))).2 = Some "0000789019") as Hcik.
    { vm_compute. reflexivity. }
    rewrite Hcik in H. exact (proj1 H).
  - apply (statement_requests_on_cache_misses iso_period Str.ascii_upper
             tickers_ok facts_ok "msft" "dividends" false false (Caches ∅ ∅)).
    apply (bool_decide_unpack _). vm_compute. reflexivity.
Defined.

Lemma cached_statement_repeats_offline_witness :
  let first :=
    Cached.get_financial_statement Str.ascii_upper iso_period tickers_ok facts_ok
      "msft" "income" false false (Caches ∅ ∅) in
  Cached.get_financial_statement Str.ascii_upper iso_period server_down server_down
    "msft" "income" false false first.1.2
  = ([], first.1.2, first.2).
Proof.
  apply (cached_statement_repeats_offline iso_period Str.ascii_upper
           tickers_ok server_down facts_ok server_down
           "msft" "income" "0000789019" revenue_facts false false (Caches ∅ ∅)).
  - vm_compute. reflexivity.
  - vm_compute. reflexivity.
Defined.

Lemma unknown_ticker_skips_facts_witness :
  (Cached.get_financial_statement Str.ascii_upper iso_period tickers_ok facts_ok
     "nope" "balance" false true (Caches ∅ ∅)).2
  = ReturnError (DataFrame ["EDGAR NO CIK FOUND FALLBACK"] []).
Proof.
  apply (unknown_ticker_skips_facts iso_period Str.ascii_upper tickers_ok facts_ok
           "nope" "balance" false true (Caches ∅ ∅)).
  - apply (bool_decide_unpack _). vm_compute. reflexivity.
  - vm_compute. reflexivity.
Defined.

(** * Further properties: extraction and table *)

Section TableExtras.
Context {Period : Type} `{EqDecision Period}.
Variable period_of : bool -> string -> option Period.

(** X13. When no synonym of any field has a surviving observation, as when
    the facts have no [us-gaap] namespace, every field resolves to the empty
    series and, instead of a table, the frame of the code
    [EDGAR NO DATA FOUND] ([... FALLBACK] for a fallback source) is built. *)
Theorem statement_without_data (f : facts) (mapping : list (string * list string))
    (quarter fallback : bool) :
  (forall field names c,
     (field, names) ∈ mapping -> c ∈ names ->
     concept_fragment (us_gaap_of f) quarter c = []) ->
  (forall field series,
     (field, series) ∈ _extract_financial_items f mapping quarter -> series = [])
  /\ build_frame period_of (_extract_financial_items f mapping quarter) quarter fallback
     = ReturnError
         (DataFrame [if fallback then "EDGAR NO DATA FOUND FALLBACK"
                     else "EDGAR NO DATA FOUND"] []).
Proof.
  intros Hempty.
  assert (forall field series,
            (field, series) ∈ _extract_financial_items f mapping quarter -> series = [])
    as Hseries.
  { intros field series Hin.
    apply (elem_lookup _ _ _ (extract_items_NoDup f mapping quarter)) in Hin.
    apply extract_items_lookup_inv in Hin as (names & Hnames & ->).
    apply try_concepts_all_empty. intros c Hc. eapply Hempty; eauto. }
  split; [exact Hseries|].
  apply build_frame_no_dates. apply elem_of_equiv_empty_L. intros d Hd.
  apply elem_of_collect_dates in Hd as (field & series & Hin & Hk).
  rewrite (Hseries _ _ Hin) in Hk. now apply elem_of_nil in Hk.
Qed.

(** X16. When every value reported in the facts is an integer of magnitude
    at most 2^53, a table never holds a value that was not reported: each of
    its cells is 0 or the value of an observation that survived the filters,
    in the unit selected for a synonym of the field of the row, and is
    itself such an integer, which the frame holds exactly. *)
Theorem cells_are_reported_values (f : facts) (mapping : list (string * list string))
    (quarter fallback : bool) (df : dataframe Period)
    (field : string) (cells : list Z) (v : Z) :
  values_float_exact f ->
  build_frame period_of (_extract_financial_items f mapping quarter) quarter fallback
  = ReturnTable df ->
  (field, cells) ∈ df_rows df ->
  v ∈ cells ->
  (v = 0
   \/ exists names c entries e,
        (field, names) ∈ mapping /\ c ∈ names
        /\ selected_entries (us_gaap_of f) c = Some entries
        /\ e ∈ entries /\ survives quarter e = true /\ default 0 (e_val e) = v)
  /\ float_exact v.
Proof.
  intros Hexact Hbf Hrow Hv.
  set (items := _extract_financial_items f mapping quarter) in *.
  assert (collect_dates items <> ∅) as Hsome.
  { intros Hnone.
    rewrite (build_frame_no_dates period_of items quarter fallback Hnone) in Hbf.
    discriminate. }
  assert (forall d, d ∈ collect_dates items -> is_Some (period_of quarter d)) as Hlab.
  { intros d Hd. destruct (period_of quarter d) as [p|] eqn:Hp; [eauto|].
    rewrite (build_frame_unlabelled period_of items quarter fallback d Hd Hp) in Hbf.
    discriminate. }
  destruct (build_frame_table period_of items quarter fallback
              (extract_items_NoDup _ _ _) Hsome Hlab)
    as (kept & columns & Hbf' & _).
  rewrite Hbf' in Hbf. injection Hbf as <-. cbn [df_rows] in Hrow.
  apply list_elem_of_fmap in Hrow as ([field' series] & [= -> ->] & Hin).
  apply list_elem_of_fmap in Hv as (d & -> & _).
  unfold Dict.get. destruct (Dict.lookup series d) as [v|] eqn:Hl.
  2:{ split; [now left|]. unfold float_exact. cbn [default from_option]. lia. }
  apply (elem_lookup _ _ _ (extract_items_NoDup f mapping quarter)) in Hin.
  apply extract_items_lookup_inv in Hin as (names & Hnames & ->).
  destruct (try_concepts_cases (us_gaap_of f) quarter names) as [Hnil | (c & Hc & _ & Heq)].
  { rewrite Hnil in Hl. discriminate. }
  rewrite Heq in Hl. unfold concept_fragment in Hl.
  destruct (selected_entries (us_gaap_of f) c) as [entries|] eqn:Hsel; [|discriminate].
  rewrite lookup_resolve_entries in Hl.
  destruct (sort_desc (group quarter d entries)) as [|w r] eqn:Hsort; [discriminate|].
  injection Hl as <-.
  destruct (sort_desc_head _ _ _ Hsort) as (g1 & g2 & Hg & _).
  assert (w ∈ group quarter d entries) as Hw.
  { rewrite Hg. apply elem_of_app. right. apply elem_of_cons. now left. }
  apply group_elem in Hw as (e & He & Hs & _ & ->).
  cbn [default from_option id]. split.
  - right. exists names, c, entries, e. auto 10.
  - unfold selected_entries in Hsel.
    destruct (us_gaap_of f !! c) as [concept|] eqn:Hconcept; [|discriminate].
    cbv zeta in Hsel.
    destruct (select_unit unit_priority (default ∅ (c_units concept))) as [unit_key|] eqn:Hu;
      [|discriminate].
    injection Hsel as <-.
    pose proof (select_unit_spec unit_priority (default ∅ (c_units concept))) as Hspec.
    rewrite Hu in Hspec. destruct Hspec as (_ & _ & _ & _ & [es Hes]).
    rewrite Hes in He. cbn [default from_option id] in He.
    exact (Hexact c concept unit_key es e Hconcept Hes He).
Qed.
End TableExtras.

(** X14. The result of the extraction has exactly the fields of the mapping,
    each once and in the order of their declaration; a field none of whose
    synonyms is in the facts is present with the empty series. *)
Theorem extract_fields_declaration_order (f : facts)
    (mapping : list (string * list string)) (quarter : bool) :
  NoDup (mapping.*1) ->
  Dict.keys (_extract_financial_items f mapping quarter) = mapping.*1
  /\ length (_extract_financial_items f mapping quarter) = length mapping
  /\ forall field names,
       (field, names) ∈ mapping ->
       (forall c, c ∈ names -> us_gaap_of f !! c = None) ->
       Dict.lookup (_extract_financial_items f mapping quarter) field = Some [].
Proof.
  intros Hnd. split; [now apply extract_items_keys|]. split.
  - rewrite extract_items_fmap by assumption. apply length_fmap.
  - intros field names Hin Habsent.
    rewrite (extract_items_lookup _ _ _ _ _ Hnd Hin). f_equal.
    apply try_concepts_all_empty. intros c Hc.
    unfold concept_fragment, selected_entries. now rewrite (Habsent c Hc).
Qed.

Lemma collect_fold_filter_form quarter es fe :
  fold_left (collect_entry quarter)
    (filter (fun e => e_form e = Some (form_filter quarter)) es) fe
  = fold_left (collect_entry quarter) es fe.
Proof.
  revert fe. induction es as [|e es IH]; intros fe; [reflexivity|].
  rewrite filter_cons. destruct (decide (e_form e = Some (form_filter quarter))) as [He | He].
  - simpl. apply IH.
  - simpl. rewrite IH. f_equal. symmetry.
    apply collect_entry_dropped.
    destruct (survives quarter e) eqn:Hs; [|reflexivity].
    exfalso. apply He. unfold survives in Hs.
    apply andb_true_iff in Hs as [Hs _]. apply andb_true_iff in Hs as [Hs _].
    apply String.eqb_eq in Hs. destruct (e_form e) as [form|]; simpl in Hs.
    + now subst.
    + destruct quarter; discriminate.
Qed.

(** X15. No observation serves both frequencies: one that survives in
    quarterly mode is dropped in annual mode; and the series of a mode is
    the same when the observations of every other form are removed from the
    input first. *)
Theorem frequencies_use_disjoint_observations (quarter : bool) (entries : list entry) :
  (forall e, survives quarter e = true -> survives (negb quarter) e = false)
  /\ resolve_entries quarter entries
     = resolve_entries quarter
         (filter (fun e => e_form e = Some (form_filter quarter)) entries).
Proof.
  split.
  - intros e Hs. unfold survives in *.
    apply andb_true_iff in Hs as [Hs _]. apply andb_true_iff in Hs as [Hs _].
    apply String.eqb_eq in Hs. rewrite Hs.
    destruct quarter; reflexivity.
  - unfold resolve_entries. now rewrite collect_fold_filter_form.
Qed.

Lemma statement_without_data_witness :
  build_frame iso_period (_extract_financial_items (Facts None) INCOME_CONCEPTS true) true true
  = ReturnError (DataFrame ["EDGAR NO DATA FOUND FALLBACK"] []).
Proof.
  apply (statement_without_data iso_period (Facts None) INCOME_CONCEPTS true true).
  intros field names c _ _. reflexivity.
Defined.

Lemma cells_are_reported_values_witness :
  (5 = 0
   \/ exists names c entries e,
        ("TotalAssets", names) ∈ BALANCE_CONCEPTS /\ c ∈ names
        /\ selected_entries (us_gaap_of week53_facts) c = Some entries
        /\ e ∈ entries /\ survives false e = true /\ default 0 (e_val e) = 5)
  /\ float_exact 5.
Proof.
  apply (cells_are_reported_values iso_period week53_facts BALANCE_CONCEPTS false false
           (DataFrame [Year 2016]
              ((fun '(field, series) => (field, (fun d => Dict.get series d 0) <$> ["2016-01-02"]))
                 <$> _extract_financial_items week53_facts BALANCE_CONCEPTS false))
           "TotalAssets" [5] 5).
  - assert (map_Forall
              (fun _ concept =>
                 map_Forall
                   (fun _ entries =>
                      Forall (fun e => - 2 ^ 53 <= default 0 (e_val e) <= 2 ^ 53) entries)
                   (default ∅ (c_units concept)))
              (us_gaap_of week53_facts)) as Hall.
    { apply (bool_decide_unpack _). vm_compute. reflexivity. }
    intros c concept unit_key entries e Hc Hu He.
    apply (map_Forall_lookup_1 _ _ _ _ Hall) in Hc.
    apply (map_Forall_lookup_1 _ _ _ _ Hc) in Hu.
    rewrite Forall_forall in Hu. exact (Hu e He).
  - vm_compute. reflexivity.
  - apply (bool_decide_unpack _). vm_compute. reflexivity.
  - apply list_elem_of_singleton. reflexivity.
Defined.

Lemma extract_fields_declaration_order_witness :
  Dict.keys (_extract_financial_items revenue_facts CASHFLOW_CONCEPTS false)
  = CASHFLOW_CONCEPTS.*1.
Proof.
  apply (extract_fields_declaration_order revenue_facts CASHFLOW_CONCEPTS false).
  apply (bool_decide_unpack _). vm_compute. reflexivity.
Defined.

Lemma frequencies_use_disjoint_observations_witness :
  survives false assets_late = true /\ survives true assets_late = false.
Proof.
  split; [reflexivity|].
  apply (proj1 (frequencies_use_disjoint_observations false [assets_late]) assets_late).
  reflexivity.
Defined.

(** * Further properties: durations *)

Lemma strptime_valid s y m d :
  Datetime.strptime s = Some (y, m, d) -> Datetime.valid_date y m d = true.
Proof.
  unfold Datetime.strptime.
  destruct (Datetime.format_regex_match s) as [[[[y' m'] d'] rest]|]; [|discriminate].
  destruct rest; [|discriminate].
  destruct (Datetime.valid_date y' m' d') eqn:Hv; [|discriminate].
  now intros [= <- <- <-].
Qed.

Lemma is_leap_spec y :
  Datetime.is_leap y = true <-> y mod 4 = 0 /\ (y mod 100 <> 0 \/ y mod 400 = 0).
Proof.
  unfold Datetime.is_leap.
  rewrite andb_true_iff, orb_true_iff, negb_true_iff, !Z.eqb_eq, Z.eqb_neq. tauto.
Qed.

Lemma days_before_year_succ y :
  Datetime.days_before_year (y + 1)
  = Datetime.days_before_year y + 365 + (if Datetime.is_leap y then 1 else 0).
Proof.
  unfold Datetime.days_before_year. cbv zeta.
  replace (y + 1 - 1) with y by lia.
  destruct (Datetime.is_leap y) eqn:Hl.
  - apply is_leap_spec in Hl. Z.to_euclidean_division_equations. lia.
  - assert (~ (y mod 4 = 0 /\ (y mod 100 <> 0 \/ y mod 400 = 0))) as Hn.
    { intros H. apply is_leap_spec in H. congruence. }
    Z.to_euclidean_division_equations. lia.
Qed.

Lemma days_between_same_day_next_year y m d :
  1 <= m <= 12 ->
  Datetime.days_between (y + 1, m, d) (y, m, d) = 365
  \/ Datetime.days_between (y + 1, m, d) (y, m, d) = 366.
Proof.
  intros Hm. unfold Datetime.days_between, Datetime.toordinal, Datetime.ymd2ord,
    Datetime.days_before_month.
  rewrite days_before_year_succ.
  assert (Datetime.is_leap y = true -> Datetime.is_leap (y + 1) = false) as Hexcl.
  { intros H. apply is_leap_spec in H.
    destruct (Datetime.is_leap (y + 1)) eqn:H'; [|reflexivity].
    apply is_leap_spec in H'. Z.to_euclidean_division_equations. lia. }
  destruct (2 <? m) eqn:H2; simpl;
    destruct (Datetime.is_leap y) eqn:Hl; destruct (Datetime.is_leap (y + 1)) eqn:Hl';
    try (specialize (Hexcl eq_refl); discriminate); lia.
Qed.

Lemma days_between_calendar_year y :
  Datetime.days_between (y, 12, 31) (y, 1, 1) = 364
  \/ Datetime.days_between (y, 12, 31) (y, 1, 1) = 365.
Proof.
  unfold Datetime.days_between, Datetime.toordinal, Datetime.ymd2ord,
    Datetime.days_before_month. simpl.
  destruct (Datetime.is_leap y); lia.
Qed.

(** X17. The duration rule keeps what is annual: an observation tagged
    ["10-K"] whose period runs from a date to the same date of the next year
    (365 or 366 days), or from 1 January to 31 December of one year (364 or
    365 days), is never discarded in annual mode. *)
Theorem full_year_is_kept (e : entry) (y m d : Z) :
  e_form e = Some "10-K" ->
  Datetime.strptime (default "" (e_start e)) = Some (y, m, d) ->
  Datetime.strptime (default "" (e_end e)) = Some (y + 1, m, d)
  \/ (m = 1 /\ d = 1 /\ Datetime.strptime (default "" (e_end e)) = Some (y, 12, 31)) ->
  survives false e = true
  /\ forall es1 es2,
       default "" (e_end e) ∈ Dict.keys (resolve_entries false (es1 ++ e :: es2)).
Proof.
  intros Hform Hstart Hend.
  assert (survives false e = true) as Hs.
  { unfold survives. rewrite Hform. simpl.
    assert (default "" (e_end e) <> "") as Hne.
    { intros Hemp. rewrite Hemp in Hend.
      destruct Hend as [Hend | (_ & _ & Hend)]; discriminate. }
    rewrite (truthy_ne _ Hne). simpl.
    unfold duration_below_350. rewrite Hstart.
    apply strptime_valid in Hstart. unfold Datetime.valid_date in Hstart.
    repeat (apply andb_true_iff in Hstart as [Hstart ?]).
    assert (1 <= m <= 12) as Hm by lia.
    destruct Hend as [-> | (-> & -> & ->)]; cbv zeta.
    - destruct (days_between_same_day_next_year y m d Hm) as [-> | ->];
        now rewrite andb_false_r.
    - destruct (days_between_calendar_year y) as [-> | ->]; now rewrite andb_false_r. }
  split; [exact Hs|]. intros es1 es2. now apply resolve_entries_kept.
Qed.

Lemma full_year_is_kept_witness :
  "2020-12-31" ∈ Dict.keys
    (resolve_entries false [obs (Some "2020-01-01") "2020-12-31" 9 "10-K" "2021-02-01"]).
Proof.
  destruct (full_year_is_kept (obs (Some "2020-01-01") "2020-12-31" 9 "10-K" "2021-02-01")
              2020 1 1 eq_refl eq_refl) as [_ H].
  - right. repeat split.
  - exact (H [] []).
Defined.

(** * Further properties: the download script *)

Section Batches.
Context {A : Type}.
Implicit Types l : list A.

Lemma batches_from_concat fuel i l :
  (length l <= fuel + i)%nat ->
  concat ((fun j => take Script.BATCH_SIZE (drop j l))
            <$> Script.range_from fuel i (length l) Script.BATCH_SIZE)
  = drop i l.
Proof.
  revert i. induction fuel as [|fuel IH]; intros i Hfuel; simpl.
  - symmetry. apply drop_ge. lia.
  - destruct (i <? length l)%nat eqn:Hi.
    + simpl. rewrite IH by (unfold Script.BATCH_SIZE; lia).
      rewrite <- (drop_drop l Script.BATCH_SIZE i). apply take_drop.
    + apply Nat.ltb_ge in Hi. symmetry. apply drop_ge. lia.
Qed.

Lemma batches_from_bounds fuel i l :
  Forall (fun b : list A => (0 < length b <= Script.BATCH_SIZE)%nat)
    ((fun j => take Script.BATCH_SIZE (drop j l))
       <$> Script.range_from fuel i (length l) Script.BATCH_SIZE).
Proof.
  revert i. induction fuel as [|fuel IH]; intros i; simpl; [constructor|].
  destruct (i <? length l)%nat eqn:Hi; [|constructor].
  apply Nat.ltb_lt in Hi. simpl. constructor; [|apply IH].
  rewrite length_take, length_drop. unfold Script.BATCH_SIZE. lia.
Qed.

Lemma range_from_count fuel i stop :
  (stop <= fuel + i)%nat ->
  let k := length (Script.range_from fuel i stop Script.BATCH_SIZE) in
  (stop <= i + k * 50 /\ (0 < k -> i + (k - 1) * 50 < stop))%nat.
Proof.
  revert i. induction fuel as [|fuel IH]; intros i Hfuel; simpl.
  - lia.
  - destruct (i <? stop)%nat eqn:Hi.
    + apply Nat.ltb_lt in Hi. simpl.
      specialize (IH (i + Script.BATCH_SIZE)%nat). unfold Script.BATCH_SIZE in *.
      cbv zeta in IH. destruct IH as [IH1 IH2]; [lia|].
      destruct (length (Script.range_from fuel (i + 50) stop 50)) as [|k]; lia.
    + apply Nat.ltb_ge in Hi. simpl. lia.
Qed.

(** X18. The batches cut the list of tickers without loss: put end to end
    they give the list back, in order; no batch is empty or has more than 50
    tickers; and their number is the least that 50 per batch allows. *)
Theorem batches_partition l :
  concat (Script.batches l) = l
  /\ Forall (fun b : list A => (0 < length b <= 50)%nat) (Script.batches l)
  /\ (length l <= length (Script.batches l) * 50)%nat
  /\ (0 < length (Script.batches l) ->
      (length (Script.batches l) - 1) * 50 < length l)%nat.
Proof.
  unfold Script.batches, Script.range. split; [|split].
  - rewrite batches_from_concat by lia. reflexivity.
  - apply batches_from_bounds.
  - rewrite length_fmap.
    pose proof (range_from_count (length l) 0 (length l)) as H.
    cbv zeta in H. lia.
Qed.
End Batches.

Section CikCheck.
Variable upper : string -> string.

Lemma cik_lookup_nonempty (http : string -> response (list ticker_entry)) ticker
    (cache : gmap string string) :
  cache <> ∅ ->
  Cached.get_cik_for_ticker upper http ticker cache = ([], cache, cache !! upper ticker).
Proof.
  intros Hne. unfold Cached.get_cik_for_ticker. cbv zeta.
  destruct (cache !! upper ticker) as [cik|] eqn:Hl; [reflexivity|].
  destruct (decide (cache = ∅)); [contradiction | reflexivity].
Qed.

Lemma check_ciks_split https i all cache valid no_cik :
  exists valid' no_cik',
    (Script.check_ciks upper https i all cache valid no_cik).1.2 = valid ++ valid'
    /\ (Script.check_ciks upper https i all cache valid no_cik).2 = no_cik ++ no_cik'
    /\ valid' ++ no_cik' ≡ₚ all
    /\ valid' `sublist_of` all /\ no_cik' `sublist_of` all.
Proof.
  revert i cache valid no_cik.
  induction all as [|ticker rest IH]; intros i cache valid no_cik; simpl.
  - exists [], []. rewrite !app_nil_r. repeat split; constructor.
  - destruct (Cached.get_cik_for_ticker upper (https i) ticker cache)
      as [[io1 cache1] [cik|]].
    + destruct (IH (S i) cache1 (valid ++ [ticker]) no_cik)
        as (v & n & Hv & Hn & Hperm & Hsv & Hsn).
      destruct (Script.check_ciks upper https (S i) rest cache1 (valid ++ [ticker]) no_cik)
        as [[[io2 cache2] valid2] no_cik2]. cbn [fst snd] in *.
      exists (ticker :: v), n. split; [now rewrite Hv, <- app_assoc|].
      split; [assumption|]. split; [simpl; now rewrite Hperm|].
      split; [now apply sublist_skip | now apply sublist_cons].
    + destruct (IH (S i) cache1 valid (no_cik ++ [ticker]))
        as (v & n & Hv & Hn & Hperm & Hsv & Hsn).
      destruct (Script.check_ciks upper https (S i) rest cache1 valid (no_cik ++ [ticker]))
        as [[[io2 cache2] valid2] no_cik2]. cbn [fst snd] in *.
      exists v, (ticker :: n). split; [assumption|].
      split; [now rewrite Hn, <- app_assoc|].
      split; [rewrite <- Hperm; symmetry; apply Permutation_middle|].
      split; [now apply sublist_cons | now apply sublist_skip].
Qed.

Lemma check_ciks_cached https i all (cache : gmap string string) valid no_cik :
  cache <> ∅ ->
  Script.check_ciks upper https i all cache valid no_cik
  = ([], cache,
     valid ++ filter (fun t => is_Some (cache !! upper t)) all,
     no_cik ++ filter (fun t => cache !! upper t = None) all).
Proof.
  intros Hne. revert i valid no_cik.
  induction all as [|ticker rest IH]; intros i valid no_cik; simpl.
  - now rewrite !app_nil_r.
  - rewrite (cik_lookup_nonempty _ _ _ Hne). rewrite !filter_cons.
    destruct (cache !! upper ticker) as [cik|] eqn:Hl.
    + rewrite IH. destruct (decide (is_Some (Some cik))) as [_ | Hno];
        [|exfalso; apply Hno; eauto].
      destruct (decide (Some cik = None)); [discriminate|].
      now rewrite <- app_assoc.
    + rewrite IH. destruct (decide (is_Some (@None string))) as [Hyes | _];
        [now apply is_Some_None in Hyes|].
      destruct (decide (@None string = None)); [|contradiction].
      now rewrite <- app_assoc.
Qed.

(** X19. Whatever the network answers, the pre-filter loses and repeats no
    ticker: the tickers with a CIK and the tickers without one are two
    sub-lists of the input, in its order, that together hold each ticker of
    the input once. *)
Theorem cik_prefilter_partitions
    (https : nat -> string -> response (list ticker_entry))
    (all_tickers : list string) (cache : gmap string string) :
  let result := Script.check_ciks upper https 0 all_tickers cache [] [] in
  result.1.2 ++ result.2 ≡ₚ all_tickers
  /\ result.1.2 `sublist_of` all_tickers
  /\ result.2 `sublist_of` all_tickers.
Proof.
  intros result. subst result.
  destruct (check_ciks_split https 0 all_tickers cache [] [])
    as (v & n & Hv & Hn & Hperm & Hsv & Hsn).
  rewrite Hv, Hn. simpl. auto.
Qed.

(** X20. When the lookup of the first ticker downloads a document with at
    least one entry, the whole pre-filter makes that one request: the later
    lookups are answered from the cache, and the tickers kept are exactly
    those whose upper case is a ticker of the document. *)
Theorem cik_prefilter_downloads_once
    (https : nat -> string -> response (list ticker_entry))
    (ticker : string) (rest : list string) (data : list ticker_entry) :
  https 0%nat Cached.TICKERS_URL = Response 200 (Some data) ->
  data <> [] ->
  let cache := fold_left (Cached.store_entry upper) data ∅ in
  Script.check_ciks upper https 0 (ticker :: rest) ∅ [] []
  = ([HttpGet Cached.TICKERS_URL], cache,
     filter (fun t => is_Some (cache !! upper t)) (ticker :: rest),
     filter (fun t => cache !! upper t = None) (ticker :: rest)).
Proof.
  intros Hhttp Hdata cache.
  assert (cache <> ∅) as Hne.
  { subst cache. destruct data as [|e data]; [contradiction|]. simpl.
    apply store_fold_not_empty. unfold Cached.store_entry. apply insert_non_empty. }
  assert (Cached.get_cik_for_ticker upper (https 0%nat) ticker ∅
          = ([HttpGet Cached.TICKERS_URL], cache, cache !! upper ticker)) as Hfirst.
  { unfold Cached.get_cik_for_ticker. cbv zeta.
    rewrite lookup_empty. destruct (decide (∅ = ∅)) as [_|]; [|contradiction].
    now rewrite Hhttp. }
  cbn [Script.check_ciks]. rewrite Hfirst. rewrite !filter_cons.
  destruct (cache !! upper ticker) as [cik|] eqn:Hl.
  - rewrite (check_ciks_cached _ _ _ _ _ _ Hne).
    destruct (decide (is_Some (Some cik))) as [_ | Hno]; [|exfalso; apply Hno; eauto].
    destruct (decide (Some cik = None)); [discriminate|]. reflexivity.
  - rewrite (check_ciks_cached _ _ _ _ _ _ Hne).
    destruct (decide (is_Some (@None string))) as [Hyes | _];
      [now apply is_Some_None in Hyes|].
    destruct (decide (@None string = None)); [|contradiction]. reflexivity.
Qed.
End CikCheck.

Lemma cik_prefilter_downloads_once_witness :
  Script.check_ciks Str.ascii_upper (fun _ => tickers_ok) 0 ["aapl"; "nope"; "MSFT"] ∅ [] []
  = ([HttpGet Cached.TICKERS_URL],
     fold_left (Cached.store_entry Str.ascii_upper) sample_tickers ∅,
     ["aapl"; "MSFT"], ["nope"]).
Proof.
  rewrite (cik_prefilter_downloads_once Str.ascii_upper (fun _ => tickers_ok)
             "aapl" ["nope"; "MSFT"] sample_tickers eq_refl ltac:(discriminate)).
  f_equal.
Defined.

Lemma batches_partition_witness :
  concat (Script.batches (seq 0 120)) = seq 0 120
  /\ ((length (Script.batches (seq 0 120)) - 1) * 50 < length (seq 0 120))%nat.
Proof.
  destruct (batches_partition (seq 0 120)) as (Hcat & _ & _ & Hcount).
  split; [exact Hcat|]. apply Hcount. vm_compute. lia.
Defined.

(** * Further properties: the list of constituents *)

Section ConstituentsFacts.
Import Constituents.
Variable check_date : string -> date_check.

Lemma unique_spec seen values :
  NoDup (unique seen values)
  /\ forall v, v ∈ unique seen values <-> v ∈ values /\ v ∉ seen.
Proof.
  revert seen. induction values as [|x values IH]; intros seen; simpl.
  - split; [constructor|]. intros v. split; [intros H | intros [H _]];
      now apply elem_of_nil in H.
  - destruct (decide (x ∈ seen)) as [Hx | Hx].
    + destruct (IH seen) as [Hnd Hmem]. split; [assumption|].
      intros v. rewrite Hmem, elem_of_cons. split; [tauto|].
      intros [[-> | Hv] Hs]; [contradiction | tauto].
    + destruct (IH ({[x]} ∪ seen)) as [Hnd Hmem]. split.
      * apply NoDup_cons. split; [|assumption].
        intros Hin. apply Hmem in Hin as [_ Hin]. apply Hin.
        apply elem_of_union. left. now apply elem_of_singleton.
      * intros v. rewrite !elem_of_cons, Hmem. split.
        -- intros [-> | [Hv Hs]]; [tauto|]. split; [tauto|].
           intros Hv'. apply Hs. apply elem_of_union. now right.
        -- intros [[-> | Hv] Hs]; [now left|].
           destruct (decide (v = x)) as [-> | Hne]; [now left|]. right.
           split; [assumption|]. intros Hu.
           apply elem_of_union in Hu as [Hu | Hu]; [|contradiction].
           now apply elem_of_singleton in Hu.
Qed.

Lemma unique_rows_spec seen rows :
  NoDup (Ticker <$> unique_rows seen rows)
  /\ (forall r, r ∈ unique_rows seen rows -> r ∈ rows /\ Ticker r ∉ seen)
  /\ (forall r, r ∈ rows -> Ticker r ∉ seen ->
        exists r', r' ∈ unique_rows seen rows /\ Ticker r' = Ticker r)
  /\ (forall r, r ∈ unique_rows seen rows ->
        exists pre post, rows = pre ++ r :: post
          /\ forall r', r' ∈ pre -> Ticker r' <> Ticker r).
Proof.
  revert seen. induction rows as [|x rows IH]; intros seen; simpl.
  - split; [constructor|]. split; [|split]; intros r H; now apply elem_of_nil in H.
  - destruct (decide (Ticker x ∈ seen)) as [Hx | Hx].
    + destruct (IH seen) as (Hnd & Hin & Hcov & Hfirst).
      split; [assumption|]. split; [|split].
      * intros r Hr. apply Hin in Hr as [Hr Hs]. split; [|assumption].
        apply elem_of_cons. now right.
      * intros r Hr Hs. apply elem_of_cons in Hr as [-> | Hr]; [contradiction|]. eauto.
      * intros r Hr. destruct (Hfirst r Hr) as (pre & post & -> & Hpre).
        exists (x :: pre), post. split; [reflexivity|].
        intros r' Hr'. apply elem_of_cons in Hr' as [-> | Hr']; [|auto].
        intros Heq. apply Hin in Hr as [_ Hr]. congruence.
    + destruct (IH ({[Ticker x]} ∪ seen)) as (Hnd & Hin & Hcov & Hfirst).
      split; [|split; [|split]].
      * simpl. apply NoDup_cons. split; [|assumption].
        intros H. apply list_elem_of_fmap in H as (r & Heq & Hr).
        apply Hin in Hr as [_ Hr]. apply Hr. rewrite <- Heq.
        apply elem_of_union. left. now apply elem_of_singleton.
      * intros r Hr. apply elem_of_cons in Hr as [-> | Hr].
        -- split; [apply elem_of_cons; now left | assumption].
        -- apply Hin in Hr as [Hr Hs]. split; [apply elem_of_cons; now right|].
           intros Hs'. apply Hs. apply elem_of_union. now right.
      * intros r Hr Hs. apply elem_of_cons in Hr as [-> | Hr].
        -- exists x. split; [apply elem_of_cons; now left | reflexivity].
        -- destruct (decide (Ticker r = Ticker x)) as [Heq | Hne].
           ++ exists x. split; [apply elem_of_cons; now left | now symmetry].
           ++ destruct (Hcov r Hr) as (r' & Hr' & Heq).
              { intros Hu. apply elem_of_union in Hu as [Hu | Hu]; [|contradiction].
                now apply elem_of_singleton in Hu. }
              exists r'. split; [apply elem_of_cons; now right | assumption].
      * intros r Hr. apply elem_of_cons in Hr as [-> | Hr].
        -- exists [], rows. split; [reflexivity|].
           intros r' Hr'. now apply elem_of_nil in Hr'.
        -- destruct (Hfirst r Hr) as (pre & post & -> & Hpre).
           exists (x :: pre), post. split; [reflexivity|].
           intros r' Hr'. apply elem_of_cons in Hr' as [-> | Hr']; [|auto].
           intros Heq. apply Hin in Hr as [_ Hr]. apply Hr. rewrite <- Heq.
           apply elem_of_union. left. now apply elem_of_singleton.
Qed.

Lemma replace_dot_no_dot s n : String.get n (replace_dot s) <> Some "."%char.
Proof.
  revert n. induction s as [|c s IH]; intros n; simpl; [discriminate|].
  destruct n as [|n]; [|apply IH].
  destruct (Ascii.eqb c ".") eqn:E; [discriminate|].
  intros [= ->]. now rewrite Ascii.eqb_refl in E.
Qed.

Lemma current_row_spec cols r :
  current_row cols = Some r ->
  Status r = "Current" /\ DateRemoved r = "" /\ Ticker r = replace_dot (cell cols 0)
  /\ (4 <= length cols)%nat.
Proof.
  unfold current_row. destruct (length cols <? 4)%nat eqn:Hlen; [discriminate|].
  apply Nat.ltb_ge in Hlen. intros [= <-]. simpl. auto.
Qed.

Lemma removed_row_spec current_tickers cols r :
  removed_row check_date current_tickers cols = Some r ->
  Status r = "Removed" /\ Ticker r <> "" /\ (Ticker r ∉ current_tickers)
  /\ Ticker r = replace_dot (cell cols 3)
  /\ DateRemoved r = cell cols 0
  /\ check_date (cell cols 0) = SinceCutoff
  /\ (4 <= length cols)%nat.
Proof.
  unfold removed_row. destruct (length cols <? 4)%nat eqn:Hlen; [discriminate|].
  apply Nat.ltb_ge in Hlen.
  destruct (check_date (cell cols 0)) eqn:Hdate; try discriminate.
  destruct (truthy (replace_dot (cell cols 3))) eqn:Ht; simpl; [|discriminate].
  destruct (bool_decide (replace_dot (cell cols 3) ∈ current_tickers)) eqn:Hin;
    simpl; [discriminate|].
  intros [= <-]. simpl. apply bool_decide_eq_false in Hin.
  split; [reflexivity|]. split; [|auto 10].
  intros Hemp. rewrite Hemp in Ht. discriminate.
Qed.

(** The result, when there is one, in terms of the two tables. *)
Lemma constituents_result tables tickers rows :
  get_sp500_constituents check_date tables = inr (tickers, rows) ->
  exists current_table changes_table,
    tables !! 0%nat = Some current_table /\ tables !! 1%nat = Some changes_table
    /\ let current := omap current_row (drop 1 current_table) in
       let removed :=
         omap (removed_row check_date (list_to_set (Ticker <$> current)))
           (drop 1 changes_table) in
       rows = current ++ unique_rows ∅ removed
       /\ tickers = merge_sort String.le (unique ∅ (Ticker <$> rows)).
Proof.
  unfold get_sp500_constituents.
  destruct tables as [|current_table tables']; [discriminate|]. cbv zeta.
  destruct ((current_table :: tables') !! 1%nat) as [changes_table|] eqn:Hch;
    [|discriminate].
  destruct (omap current_row (drop 1 current_table) ++ _) as [|r0 rest] eqn:Hrows;
    [discriminate|].
  intros [= <- <-]. exists current_table, changes_table.
  split; [reflexivity|]. split; [first [assumption | reflexivity]|]. cbv zeta.
  rewrite Hrows. split; reflexivity.
Qed.

(** X21. The list of tickers returned with the rows is in ascending order,
    without repetition, and holds exactly the tickers of the rows. *)
Theorem constituent_tickers_sorted_distinct (tables : list (list (list string)))
    (tickers : list string) (rows : list constituent) :
  get_sp500_constituents check_date tables = inr (tickers, rows) ->
  Sorted String.le tickers
  /\ NoDup tickers
  /\ forall t, t ∈ tickers <-> exists r, r ∈ rows /\ Ticker r = t.
Proof.
  intros Hres. apply constituents_result in Hres as (_ & _ & _ & _ & _ & ->).
  destruct (unique_spec ∅ (Ticker <$> rows)) as [Hnd Hmem].
  split; [apply Sorted_merge_sort; apply _|]. split.
  - now rewrite merge_sort_Permutation.
  - intros t. rewrite merge_sort_Permutation, Hmem, list_elem_of_fmap. split.
    + intros [(r & -> & Hr) _]. eauto.
    + intros (r & Hr & <-). split; [eauto | apply not_elem_of_empty].
Qed.

(** X22. The rows are the current constituents followed by the removed
    ones; a removed row has a non-empty ticker that is the ticker of no
    current row, a date of change that is not before the cut-off, and no two
    removed rows have the same ticker: of several changes removing one
    ticker, the first of the table is the one kept. *)
Theorem removed_rows_are_new_and_unique (tables : list (list (list string)))
    (tickers : list string) (rows : list constituent) :
  get_sp500_constituents check_date tables = inr (tickers, rows) ->
  exists current removed candidates,
    rows = current ++ removed
    /\ Forall (fun r => Status r = "Current" /\ DateRemoved r = "") current
    /\ Forall (fun r => Status r = "Removed" /\ Ticker r <> ""
                        /\ (Ticker r ∉ (Ticker <$> current))
                        /\ check_date (DateRemoved r) = SinceCutoff) removed
    /\ NoDup (Ticker <$> removed)
    /\ candidates
       = omap (removed_row check_date (list_to_set (Ticker <$> current)))
           (drop 1 (default [] (tables !! 1%nat)))
    /\ (forall r, r ∈ removed ->
          exists pre post, candidates = pre ++ r :: post
            /\ forall r', r' ∈ pre -> Ticker r' <> Ticker r)
    /\ (forall r, r ∈ candidates -> exists r', r' ∈ removed /\ Ticker r' = Ticker r).
Proof.
  intros Hres.
  apply constituents_result in Hres as (current_table & changes_table & _ & Hch & Hrows & _).
  cbv zeta in Hrows. rewrite Hch. simpl default.
  set (current := omap current_row (drop 1 current_table)) in *.
  set (candidates := omap (removed_row check_date (list_to_set (Ticker <$> current)))
                       (drop 1 changes_table)) in *.
  destruct (unique_rows_spec ∅ candidates) as (Hnd & Hin & Hcov & Hfirst).
  exists current, (unique_rows ∅ candidates), candidates.
  split; [assumption|]. split; [|split; [|split; [|split; [|split]]]].
  - apply Forall_forall. intros r Hr. subst current.
    apply list_elem_of_omap in Hr as (cols & _ & Hr).
    apply current_row_spec in Hr. tauto.
  - apply Forall_forall. intros r Hr. apply Hin in Hr as [Hr _]. subst candidates.
    apply list_elem_of_omap in Hr as (cols & _ & Hr).
    apply removed_row_spec in Hr as (H1 & H2 & H3 & _ & H5 & H6 & _).
    split; [assumption|]. split; [assumption|]. split; [|now rewrite H5].
    intros Hc. apply H3. now apply elem_of_list_to_set.
  - assumption.
  - reflexivity.
  - assumption.
  - intros r Hr. apply Hcov; [assumption | apply not_elem_of_empty].
Qed.

(** X23. The function fails with an [IndexError] exactly when the page has
    fewer than two tables, and with the [KeyError] of the missing column
    exactly when it has two but no row of either table qualifies. *)
Theorem constituents_errors (tables : list (list (list string))) :
  (get_sp500_constituents check_date tables = inl IndexError
   <-> (length tables < 2)%nat)
  /\ (get_sp500_constituents check_date tables = inl (KeyError "Ticker")
      <-> exists current_table changes_table,
            tables !! 0%nat = Some current_table /\ tables !! 1%nat = Some changes_table
            /\ omap current_row (drop 1 current_table) = []
            /\ omap (removed_row check_date ∅) (drop 1 changes_table) = []).
Proof.
  unfold get_sp500_constituents.
  destruct tables as [|current_table [|changes_table tables']]; simpl.
  - split; [split; [lia | reflexivity]|].
    split; [discriminate | intros (? & ? & H & _); discriminate].
  - split; [split; [lia | reflexivity]|].
    split; [discriminate | intros (? & ? & _ & H & _); discriminate].
  - set (current := omap current_row (drop 1 current_table)).
    set (removed := omap (removed_row check_date (list_to_set (Ticker <$> current)))
                      (drop 1 changes_table)).
    assert (current ++ unique_rows ∅ removed = [] <-> current = [] /\ removed = [])
      as Hnil.
    { split.
      - intros H. apply app_eq_nil in H as [H1 H2]. split; [assumption|].
        destruct removed as [|r removed]; [reflexivity|]. simpl in H2.
        destruct (decide (Ticker r ∈ ∅)) as [Hin|]; [|discriminate].
        now apply not_elem_of_empty in Hin.
      - intros [-> ->]. reflexivity. }
    destruct (current ++ unique_rows ∅ removed) as [|r0 rest] eqn:Hrows.
    + destruct (proj1 Hnil eq_refl) as [Hc Hr].
      split; [split; [discriminate | lia]|].
      split; [|reflexivity]. intros _. exists current_table, changes_table.
      split; [reflexivity|]. split; [reflexivity|]. split; [exact Hc|].
      subst removed. now rewrite Hc in Hr.
    + split; [split; [discriminate | lia]|].
      split; [discriminate|].
      intros (ct & cht & [= <-] & [= <-] & Hc & Hr). exfalso.
      assert (current = [] /\ removed = []) as Hboth.
      { split; [exact Hc|]. subst removed. fold current in Hc. now rewrite Hc. }
      apply Hnil in Hboth. discriminate.
Qed.

(** X24. No ticker of the result contains a dot: the dots of the page are
    replaced by dashes, for current and removed constituents alike. *)
Theorem constituent_tickers_have_no_dot (tables : list (list (list string)))
    (tickers : list string) (rows : list constituent) (t : string) (n : nat) :
  get_sp500_constituents check_date tables = inr (tickers, rows) ->
  t ∈ tickers ->
  String.get n t <> Some "."%char.
Proof.
  intros Hres Ht.
  pose proof Hres as Hres'.
  apply constituents_result in Hres as (current_table & changes_table & _ & _ & Hrows & Htick).
  cbv zeta in Hrows.
  rewrite Htick, merge_sort_Permutation in Ht.
  apply (proj2 (unique_spec ∅ _)) in Ht as [Ht _].
  apply list_elem_of_fmap in Ht as (r & -> & Hr).
  rewrite Hrows in Hr. apply elem_of_app in Hr as [Hr | Hr].
  - apply list_elem_of_omap in Hr as (cols & _ & Hr).
    apply current_row_spec in Hr as (_ & _ & -> & _). apply replace_dot_no_dot.
  - apply (proj1 (proj2 (unique_rows_spec ∅ _))) in Hr as [Hr _].
    apply list_elem_of_omap in Hr as (cols & _ & Hr).
    apply removed_row_spec in Hr as (_ & _ & _ & -> & _). apply replace_dot_no_dot.
Qed.
End ConstituentsFacts.

Lemma constituent_tickers_sorted_distinct_witness :
  NoDup ["BRK-B"; "MMM"; "OLD-A"].
Proof.
  destruct (Constituents.get_sp500_constituents Constituents.sample_check_date
              Constituents.sample_tables) as [err | [tickers rows]] eqn:Hres;
    [vm_compute in Hres; discriminate|].
  destruct (constituent_tickers_sorted_distinct Constituents.sample_check_date
              Constituents.sample_tables tickers rows Hres) as (_ & H & _).
  vm_compute in Hres. injection Hres as <- <-. exact H.
Defined.

Lemma removed_rows_are_new_and_unique_witness :
  exists current removed : list Constituents.constituent,
    length current = 2%nat /\ Constituents.Ticker <$> removed = ["OLD-A"]
    /\ NoDup (Constituents.Ticker <$> removed).
Proof.
  destruct (Constituents.get_sp500_constituents Constituents.sample_check_date
              Constituents.sample_tables) as [err | [tickers rows]] eqn:Hres;
    [vm_compute in Hres; discriminate|].
  destruct (removed_rows_are_new_and_unique Constituents.sample_check_date
              Constituents.sample_tables tickers rows Hres)
    as (current & removed & candidates & Hrows & Hcur & Hrem & Hnd & _).
  exists current, removed.
  vm_compute in Hres. injection Hres as <- <-.
  destruct current as [|c1 [|c2 [|c3 current]]]; simpl in Hrows.
  - exfalso. subst removed. apply Forall_cons in Hrem as [[H _] _]. discriminate.
  - exfalso. injection Hrows as <- <-.
    apply Forall_cons in Hrem as [[H _] _]. discriminate.
  - injection Hrows as <- <- <-. repeat split. exact Hnd.
  - exfalso. injection Hrows as <- <- <- _.
    apply Forall_cons in Hcur as [_ Hcur]. apply Forall_cons in Hcur as [_ Hcur].
    apply Forall_cons in Hcur as [[H _] _]. discriminate.
Defined.

Lemma constituent_tickers_have_no_dot_witness :
  String.get 3 "BRK-B" <> Some "."%char.
Proof.
  destruct (Constituents.get_sp500_constituents Constituents.sample_check_date
              Constituents.sample_tables) as [err | [tickers rows]] eqn:Hres;
    [vm_compute in Hres; discriminate|].
  apply (constituent_tickers_have_no_dot Constituents.sample_check_date
           Constituents.sample_tables tickers rows "BRK-B" 3 Hres).
  vm_compute in Hres. injection Hres as <- _.
  apply elem_of_cons. now left.
Defined.

Lemma constituents_errors_witness :
  Constituents.get_sp500_constituents Constituents.sample_check_date
    [ [ ["only"; "one"; "table"; "here"] ] ]
  = inl Constituents.IndexError.
Proof.
  apply (proj1 (constituents_errors Constituents.sample_check_date
                  [ [ ["only"; "one"; "table"; "here"] ] ])).
  simpl. lia.
Defined.
